(** * sftp_gui: path rules, session lifecycle, directory model and transfer worker

    A shallow embedding of [sftp_gui.py].  Python strings are modelled by
    [string], a character being a code point below 256; the pure helpers are
    Rocq functions; the objects that are mutated ([SshSftpSession],
    [TransferWorker], the remote pane of [MainWindow]) live in one explicit
    state, threaded by a state and exception monad; and every call into
    paramiko, the operating system or Qt takes its outcome from an
    environment that is a parameter of the model.  The state also records,
    in order, the signals emitted and the calls made.  [os.path] is
    [posixpath]; float arithmetic is binary64 with round to nearest even. *)

From Stdlib Require Import List String Ascii Bool Arith ZArith Lia.
From Stdlib Require Import QArith Qround Qpower Lqa.
From Stdlib Require Import Permutation Sorted DecimalString.
From Stdlib Require Import PrimInt63 Uint63 PrimFloat FloatOps SpecFloat.
From Equations Require Import Equations.
Import ListNotations.
Local Open Scope nat_scope.
Local Open Scope string_scope.

#[local] Arguments Ascii.eqb : simpl never.

(** ** Python string primitives *)

Module PyStr.

(** [s.startswith(p)]. *)
Fixpoint startswith (p s : string) : bool :=
  match p, s with
  | EmptyString, _ => true
  | String a p', String b s' => Ascii.eqb a b && startswith p' s'
  | String _ _, EmptyString => false
  end.

(** [sub in s]. *)
Fixpoint contains (sub s : string) : bool :=
  startswith sub s ||
  match s with
  | EmptyString => false
  | String _ t => contains sub t
  end.

(** [s.replace(old, new)] for a non-empty [old]: the occurrences of [old]
    are found from left to right and do not overlap.  [skip] counts the
    characters of the occurrence just replaced that are still to be
    dropped. *)
Fixpoint replace_from (old new : string) (skip : nat) (s : string) : string :=
  match s with
  | EmptyString => EmptyString
  | String c t =>
      match skip with
      | S k => replace_from old new k t
      | O =>
          if startswith old s
          then new ++ replace_from old new (String.length old - 1) t
          else String c (replace_from old new 0 t)
      end
  end.

Definition replace (old new s : string) : string := replace_from old new 0 s.

(** [s.endswith(p)] for a one-character [p]. *)
Fixpoint endswith_char (c : ascii) (s : string) : bool :=
  match s with
  | EmptyString => false
  | String d EmptyString => Ascii.eqb c d
  | String _ t => endswith_char c t
  end.

(** [x or default] on strings: the empty string is false. *)
Definition or_else (x default : string) : string :=
  match x with
  | EmptyString => default
  | _ => x
  end.

(** [s.lstrip(...)] and [s.rstrip(...)], [drop] telling which characters
    go. *)
Fixpoint lstrip_by (drop : ascii -> bool) (s : string) : string :=
  match s with
  | EmptyString => EmptyString
  | String c t => if drop c then lstrip_by drop t else s
  end.

Fixpoint rstrip_by (drop : ascii -> bool) (s : string) : string :=
  match s with
  | EmptyString => EmptyString
  | String c t =>
      match rstrip_by drop t with
      | EmptyString => if drop c then EmptyString else String c EmptyString
      | t' => String c t'
      end
  end.

(** [c.isspace()] for a code point below 256. *)
Definition isspace (c : ascii) : bool :=
  let n := N_of_ascii c in
  ((9 <=? n) && (n <=? 13) || (28 <=? n) && (n <=? 32)
   || (n =? 133) || (n =? 160))%N.

(** [s.strip()] and [s.rstrip("/")]. *)
Definition strip (s : string) : string := rstrip_by isspace (lstrip_by isspace s).
Definition rstrip_char (c : ascii) (s : string) : string :=
  rstrip_by (Ascii.eqb c) s.

(** [c.lower()] for a code point below 256: the letters A-Z and the
    Latin-1 capitals. *)
Definition lower_char (c : ascii) : ascii :=
  let n := N_of_ascii c in
  if ((65 <=? n) && (n <=? 90)
      || (192 <=? n) && (n <=? 222) && negb (n =? 215))%N
  then ascii_of_N (n + 32)
  else c.

Fixpoint lower (s : string) : string :=
  match s with
  | EmptyString => EmptyString
  | String c t => String (lower_char c) (lower t)
  end.

(** [s.split(sep)] for a one-character [sep]. *)
Fixpoint split_char (sep : ascii) (s : string) : list string :=
  match s with
  | EmptyString => [EmptyString]
  | String c t =>
      if Ascii.eqb sep c then EmptyString :: split_char sep t
      else match split_char sep t with
           | piece :: rest => String c piece :: rest
           | [] => [String c EmptyString]
           end
  end.

End PyStr.

(** [os.path] of a POSIX host ([posixpath]). *)
Module posixpath.

(** [p[:p.rfind("/") + 1]]: the path up to and including its last slash. *)
Fixpoint head_through_last_sep (p : string) : string :=
  match p with
  | EmptyString => EmptyString
  | String c t =>
      if PyStr.contains "/" p then String c (head_through_last_sep t)
      else EmptyString
  end.

(** [p[p.rfind("/") + 1:]]: what follows the last slash. *)
Fixpoint basename (p : string) : string :=
  match p with
  | EmptyString => EmptyString
  | String c t => if PyStr.contains "/" p then basename t else p
  end.

(** [head != sep * len(head)]. *)
Fixpoint all_sep (s : string) : bool :=
  match s with
  | EmptyString => true
  | String c t => Ascii.eqb "/" c && all_sep t
  end.

Definition dirname (p : string) : string :=
  let head := head_through_last_sep p in
  match head with
  | EmptyString => head
  | _ => if negb (all_sep head) then PyStr.rstrip_char "/" head else head
  end.

End posixpath.

Example strip_ex : PyStr.strip "  /a b/  " = "/a b/" /\ PyStr.strip "   " = "".
Proof. split; reflexivity. Qed.

Example split_char_ex : PyStr.split_char "|" "a||b|" = ["a"; ""; "b"; ""].
Proof. reflexivity. Qed.

Example lower_ex : PyStr.lower "ReadMe.TXT" = "readme.txt".
Proof. reflexivity. Qed.

Example dirname_ex :
  map posixpath.dirname ["/a/b"; "/a"; "a"; "/a//b"; "/a/b/"; "/"; "//a"] =
  ["/a"; "/"; ""; "/a"; "/a/b"; "/"; "//"].
Proof. reflexivity. Qed.

Example basename_ex :
  map posixpath.basename ["/a/b"; "a"; "/a/b/"; "/"] = ["b"; "a"; ""; ""].
Proof. reflexivity. Qed.

(** ** Helpers of the module *)

Definition slash : ascii := "/"%char.
Definition backslash : ascii := "\"%char.

(** Unfolding equations of [path.replace("//", "/")]. *)
Lemma dslash_step0 (c : ascii) (t : string) :
  PyStr.replace_from "//" "/" 0 (String c t) =
  if PyStr.startswith "//" (String c t)
  then String slash (PyStr.replace_from "//" "/" 1 t)
  else String c (PyStr.replace_from "//" "/" 0 t).
Proof. reflexivity. Qed.

Lemma dslash_step1 (c : ascii) (t : string) :
  PyStr.replace_from "//" "/" 1 (String c t) = PyStr.replace_from "//" "/" 0 t.
Proof. reflexivity. Qed.

Lemma startswith_dslash (s : string) :
  PyStr.startswith "//" s = true <-> exists t, s = String slash (String slash t).
Proof.
  split.
  - destruct s as [|c [|d t]]; cbn [PyStr.startswith]; try discriminate.
    + now rewrite andb_false_r.
    + rewrite andb_true_r. intros H. apply andb_prop in H. destruct H as [Hc Hd].
      apply Ascii.eqb_eq in Hc, Hd. subst. now exists t.
  - intros [t ->]. reflexivity.
Qed.

Lemma replace_dslash_shorter_aux (s : string) :
  (String.length (PyStr.replace_from "//" "/" 1 s) <= Nat.pred (String.length s)) /\
  (String.length (PyStr.replace_from "//" "/" 0 s) <= String.length s) /\
  (PyStr.contains "//" s = true ->
   String.length (PyStr.replace_from "//" "/" 0 s) < String.length s).
Proof.
  induction s as [|c t IH].
  - cbn. repeat split; try lia; discriminate.
  - destruct IH as (IH1 & IH0 & IHc).
    rewrite dslash_step0, dslash_step1.
    cbn [PyStr.contains].
    destruct (PyStr.startswith "//" (String c t)) eqn:E;
      cbn [String.length orb Nat.pred].
    + apply startswith_dslash in E. destruct E as (t' & E). injection E as -> ->.
      cbn [String.length Nat.pred] in *.
      repeat split; intros; lia.
    + repeat split; try lia. intros H. specialize (IHc H). lia.
Qed.

(** The body of [while "//" in path: path = path.replace("//", "/")]
    shortens the path, so the loop terminates. *)
Lemma replace_dslash_shorter (s : string) :
  PyStr.contains "//" s = true ->
  String.length (PyStr.replace "//" "/" s) < String.length s.
Proof. apply replace_dslash_shorter_aux. Qed.

Definition inspect {A : Type} (a : A) : {b : A | a = b} := exist _ a eq_refl.

Equations? collapse_slashes (path : string) : string
  by wf (String.length path) lt :=
  collapse_slashes path with inspect (PyStr.contains "//" path) => {
    | exist _ true H => collapse_slashes (PyStr.replace "//" "/" path);
    | exist _ false _ => path }.
Proof. apply replace_dslash_shorter; assumption. Qed.

Definition normalize_remote (path : string) : string :=
  match path with
  | EmptyString => "/"
  | _ => collapse_slashes (PyStr.replace "\" "/" path)
  end.

Definition join_remote (base name : string) : string :=
  let base := normalize_remote base in
  if PyStr.endswith_char slash base then base ++ name
  else base ++ "/" ++ name.

Example normalize_ex1 : normalize_remote "a\\b///c//" = "a/b/c/".
Proof. reflexivity. Qed.

Example join_ex1 : join_remote "/a/" "b" = "/a/b" /\ join_remote "/a" "b" = "/a/b".
Proof. split; reflexivity. Qed.

(** ** Properties of [normalize_remote] *)

Section Normalize.

(** The two ways out of the [while] loop. *)
Lemma collapse_slashes_done (s : string) :
  PyStr.contains "//" s = false -> collapse_slashes s = s.
Proof.
  intros H. funelim (collapse_slashes s); congruence.
Qed.

Lemma collapse_slashes_more (s : string) :
  PyStr.contains "//" s = true ->
  collapse_slashes s = collapse_slashes (PyStr.replace "//" "/" s).
Proof.
  intros H. funelim (collapse_slashes s); congruence.
Qed.

(** Induction along the iterations of the loop. *)
Lemma collapse_slashes_ind (P : string -> string -> Prop) :
  (forall s, PyStr.contains "//" s = false -> P s s) ->
  (forall s r, PyStr.contains "//" s = true ->
               P (PyStr.replace "//" "/" s) r -> P s r) ->
  forall s, P s (collapse_slashes s).
Proof.
  intros Hdone Hmore s.
  induction s as [s IH] using (well_founded_induction
    (Wf_nat.well_founded_ltof _ String.length)).
  destruct (PyStr.contains "//" s) eqn:E.
  - rewrite (collapse_slashes_more _ E). apply Hmore; [exact E|].
    apply IH. unfold Wf_nat.ltof. now apply replace_dslash_shorter.
  - rewrite (collapse_slashes_done _ E). now apply Hdone.
Qed.

Lemma collapse_slashes_no_dslash (s : string) :
  PyStr.contains "//" (collapse_slashes s) = false.
Proof.
  apply (collapse_slashes_ind (fun _ r => PyStr.contains "//" r = false)); auto.
Qed.

(** [path.replace("\", "/")] works character by character. *)
Lemma backslash_step (c : ascii) (t : string) :
  PyStr.replace_from "\" "/" 0 (String c t) =
  String (if Ascii.eqb backslash c then slash else c)
         (PyStr.replace_from "\" "/" 0 t).
Proof.
  cbn [PyStr.replace_from PyStr.startswith]. rewrite andb_true_r.
  fold backslash. destruct (Ascii.eqb backslash c); reflexivity.
Qed.

Lemma contains_char_cons (a c : ascii) (t : string) :
  PyStr.contains (String a "") (String c t) =
  Ascii.eqb a c || PyStr.contains (String a "") t.
Proof. cbn [PyStr.contains PyStr.startswith]. now rewrite andb_true_r. Qed.

Lemma replace_backslash_free (s : string) :
  PyStr.contains "\" (PyStr.replace "\" "/" s) = false.
Proof.
  unfold PyStr.replace. induction s as [|c t IH]; [reflexivity|].
  rewrite backslash_step, contains_char_cons, IH, orb_false_r.
  destruct (Ascii.eqb backslash c) eqn:E; [reflexivity|exact E].
Qed.

Lemma replace_backslash_id (s : string) :
  PyStr.contains "\" s = false -> PyStr.replace "\" "/" s = s.
Proof.
  unfold PyStr.replace. induction s as [|c t IH]; [reflexivity|].
  rewrite contains_char_cons, backslash_step. intros H.
  apply orb_false_elim in H. destruct H as [Hc Ht].
  unfold backslash. rewrite Hc, (IH Ht). reflexivity.
Qed.

Lemma replace_backslash_head (s : string) :
  PyStr.startswith "/" (PyStr.replace "\" "/" s) =
  PyStr.startswith "/" s || PyStr.startswith "\" s.
Proof.
  unfold PyStr.replace. destruct s as [|c t]; [reflexivity|].
  rewrite backslash_step. cbn [PyStr.startswith]. rewrite !andb_true_r.
  fold backslash. destruct (Ascii.eqb backslash c) eqn:E.
  - now rewrite orb_true_r.
  - now rewrite orb_false_r.
Qed.

Lemma replace_backslash_nonempty (s : string) :
  PyStr.replace "\" "/" s = "" -> s = "".
Proof.
  unfold PyStr.replace. destruct s; [reflexivity|].
  rewrite backslash_step. discriminate.
Qed.

(** [path.replace("//", "/")] keeps the first character, introduces no
    backslash and never empties a path. *)
Lemma replace_dslash_head (s : string) :
  PyStr.startswith "/" (PyStr.replace "//" "/" s) = PyStr.startswith "/" s.
Proof.
  unfold PyStr.replace. destruct s as [|c t]; [reflexivity|].
  rewrite dslash_step0. destruct (PyStr.startswith "//" (String c t)) eqn:E.
  - apply startswith_dslash in E. destruct E as [t' E]. injection E as -> ->.
    reflexivity.
  - reflexivity.
Qed.

Lemma replace_dslash_nonempty (s : string) :
  PyStr.replace "//" "/" s = "" -> s = "".
Proof.
  unfold PyStr.replace. destruct s as [|c t]; [reflexivity|].
  rewrite dslash_step0. destruct (PyStr.startswith "//" (String c t)); discriminate.
Qed.

Lemma replace_dslash_backslash_free (s : string) :
  PyStr.contains "\" s = false ->
  PyStr.contains "\" (PyStr.replace_from "//" "/" 1 s) = false /\
  PyStr.contains "\" (PyStr.replace_from "//" "/" 0 s) = false.
Proof.
  induction s as [|c t IH]; [now split|].
  rewrite contains_char_cons. intros H.
  apply orb_false_elim in H. destruct H as [Hc Ht].
  destruct (IH Ht) as [IH1 IH0].
  rewrite dslash_step0, dslash_step1. split; [exact IH0|].
  destruct (PyStr.startswith "//" (String c t));
    rewrite contains_char_cons; [rewrite IH1|rewrite IH0, Hc]; reflexivity.
Qed.

Lemma collapse_slashes_head (s : string) :
  PyStr.startswith "/" (collapse_slashes s) = PyStr.startswith "/" s.
Proof.
  apply (collapse_slashes_ind
           (fun s r => PyStr.startswith "/" r = PyStr.startswith "/" s)).
  - reflexivity.
  - intros s0 r _ ->. apply replace_dslash_head.
Qed.

Lemma collapse_slashes_nonempty (s : string) :
  collapse_slashes s = "" -> s = "".
Proof.
  apply (collapse_slashes_ind (fun s r => r = "" -> s = "")).
  - auto.
  - intros s0 r _ IH Hr. apply replace_dslash_nonempty. auto.
Qed.

Lemma collapse_slashes_backslash_free (s : string) :
  PyStr.contains "\" s = false -> PyStr.contains "\" (collapse_slashes s) = false.
Proof.
  apply (collapse_slashes_ind
           (fun s r => PyStr.contains "\" s = false -> PyStr.contains "\" r = false)).
  - auto.
  - intros s0 r _ IH H. apply IH. now apply replace_dslash_backslash_free.
Qed.

(** A path without backslash and without double slash is left alone. *)
Lemma normalize_remote_fixpoint (s : string) :
  s <> "" ->
  PyStr.contains "\" s = false ->
  PyStr.contains "//" s = false ->
  normalize_remote s = s.
Proof.
  intros Hne Hb Hd. destruct s as [|c t]; [congruence|].
  unfold normalize_remote. rewrite (replace_backslash_id _ Hb).
  now apply collapse_slashes_done.
Qed.

Lemma normalize_remote_no_dslash (p : string) :
  PyStr.contains "//" (normalize_remote p) = false.
Proof.
  destruct p; [reflexivity|]. apply collapse_slashes_no_dslash.
Qed.

Lemma normalize_remote_backslash_free (p : string) :
  PyStr.contains "\" (normalize_remote p) = false.
Proof.
  destruct p; [reflexivity|].
  apply collapse_slashes_backslash_free, replace_backslash_free.
Qed.

Lemma normalize_remote_nonempty (p : string) : normalize_remote p <> "".
Proof.
  destruct p as [|c t]; [discriminate|].
  intros E. apply collapse_slashes_nonempty in E.
  apply replace_backslash_nonempty in E. discriminate.
Qed.

End Normalize.

(** C1 as stated fails: [normalize_remote] never adds a leading slash, so a
    relative path stays relative. *)
Lemma normalize_remote_relative_counterexample :
  normalize_remote "a" = "a" /\
  PyStr.startswith "/" (normalize_remote "a") = false.
Proof. split; reflexivity. Qed.

(** C1 (amended): [normalize_remote] is idempotent, its result contains no
    two consecutive slashes, it starts with a slash exactly when the input is
    empty or starts with a slash or a backslash, and the empty path
    normalizes to the root. *)
Theorem normalize_remote_spec (p : string) :
  normalize_remote (normalize_remote p) = normalize_remote p /\
  PyStr.contains "//" (normalize_remote p) = false /\
  (PyStr.startswith "/" (normalize_remote p) = true <->
   p = "" \/ PyStr.startswith "/" p = true \/ PyStr.startswith "\" p = true) /\
  normalize_remote "" = "/".
Proof.
  destruct p as [|c t].
  - repeat split; auto.
  - set (p := String c t).
    assert (Hn : normalize_remote p = collapse_slashes (PyStr.replace "\" "/" p))
      by reflexivity.
    pose proof (normalize_remote_no_dslash p) as Hd.
    pose proof (normalize_remote_backslash_free p) as Hb.
    pose proof (normalize_remote_nonempty p) as Hne.
    split; [now apply normalize_remote_fixpoint|].
    split; [exact Hd|]. split; [|reflexivity].
    rewrite Hn, collapse_slashes_head, replace_backslash_head.
    rewrite orb_true_iff. split.
    + intros [H|H]; auto.
    + intros [H|[H|H]]; [discriminate|auto|auto].
Qed.

(** ** Exceptions, effects and the state of the program *)

Local Open Scope Z_scope.

(** A Python exception: its class and [str(e)]. *)
Inductive exn_class :=
| RuntimeError | ZeroDivisionError | AttributeError | OtherException.

Record exn := Exn { exn_cls : exn_class; exn_str : string }.

(** The identity of a paramiko object ([SSHClient] or [SFTPClient]). *)
Definition handle := Z.

(** Calls that leave the program: paramiko, the operating system, tarfile. *)
Inductive call :=
| SFTPClient_close (h : handle)
| SSHClient_close (h : handle)
| SSHClient_new
| SSHClient_connect (h : handle) (host : string) (port : Z)
                    (username password : string) (timeout : Z)
| SSHClient_open_sftp (h : handle)
| SSHClient_exec_command (h : handle) (cmd : string) (timeout : Z)
| SFTPClient_listdir_attr (h : handle) (path : string)
| SFTPClient_stat (h : handle) (path : string)
| SFTPClient_put (h : handle) (local_path remote_path : string)
| SFTPClient_get (h : handle) (remote_path local_path : string)
| os_path_getsize (path : string)
| os_path_isdir (path : string)
| os_makedirs (path : string)
| os_remove (path : string)
| tempfile_NamedTemporaryFile (suffix : string)
| tarfile_create (tar_path folder arcname : string)
| tarfile_extractall (tar_path dest : string)
| time_time
| QMessageBox_critical (title text : string).

(** What the program does that can be seen from outside, in order: Qt
    signals emitted and calls made. *)
Inductive effect :=
| connected_changed (ok : bool)
| progress (pct : Z)
| status (msg : string)
| finished (ok : bool) (msg : string)
| Call (c : call).

Record SshSftpSession := mkSession {
  ssh : option handle;
  sftp : option handle;
  host : string;
  username : string
}.

(** [SshSftpSession.__init__]. *)
Definition SshSftpSession_init : SshSftpSession :=
  {| ssh := None; sftp := None; host := ""; username := "" |}.

Record RemoteEntry := mkRemoteEntry {
  name : string;
  is_dir : bool;
  size : Z;
  mtime : Z;
  mode : Z
}.

(** The part of [MainWindow] and its [RemoteTable] that the navigation
    works on; rows, icons, the log pane and the buttons are presentation
    and are left out. *)
Record MainWindow := mkWindow {
  remote_path : string;             (* self.remote_path.text() *)
  current_path : string;            (* self.remote_table.current_path *)
  entries : list RemoteEntry;       (* self.remote_table.entries *)
  lbl_status : string               (* self.lbl_status.text() *)
}.

Record state := mkState {
  session : SshSftpSession;
  _cancel : bool;               (* TransferWorker._cancel *)
  window : MainWindow;
  stored : list string;         (* remote paths that a put has written in full *)
  fetched : list string;        (* local paths that a get has written in full *)
  trace : list effect           (* oldest first *)
}.

Definition with_session (f : SshSftpSession -> SshSftpSession) (s : state) : state :=
  {| session := f (session s); _cancel := _cancel s; window := window s;
     stored := stored s; fetched := fetched s; trace := trace s |}.
Definition with_cancel (b : bool) (s : state) : state :=
  {| session := session s; _cancel := b; window := window s;
     stored := stored s; fetched := fetched s; trace := trace s |}.
Definition with_window (f : MainWindow -> MainWindow) (s : state) : state :=
  {| session := session s; _cancel := _cancel s; window := f (window s);
     stored := stored s; fetched := fetched s; trace := trace s |}.
Definition with_stored (p : string) (s : state) : state :=
  {| session := session s; _cancel := _cancel s; window := window s;
     stored := stored s ++ [p]; fetched := fetched s; trace := trace s |}.
Definition with_fetched (p : string) (s : state) : state :=
  {| session := session s; _cancel := _cancel s; window := window s;
     stored := stored s; fetched := fetched s ++ [p]; trace := trace s |}.
Definition with_effect (e : effect) (s : state) : state :=
  {| session := session s; _cancel := _cancel s; window := window s;
     stored := stored s; fetched := fetched s; trace := trace s ++ [e] |}.

(** What a call into the outside world comes back with.  The worker runs on
    its own thread while the user interface stays live, so a call may also
    come back after the user has pressed Cancel ([TransferWorker.cancel] has
    run on the other thread). *)
Record reply (A : Type) := Reply {
  cancel_pressed : bool;
  outcome : exn + A
}.
Arguments Reply {A}.
Arguments cancel_pressed {A}.
Arguments outcome {A}.

Definition returns {A : Type} (a : A) : reply A := Reply false (inr a).
Definition raises {A : Type} (e : exn) : reply A := Reply false (inl e).

(** *** State and exception monad *)

Definition M (A : Type) : Type := state -> (exn + A) * state.

Definition ret {A : Type} (a : A) : M A := fun s => (inr a, s).
Definition raise {A : Type} (e : exn) : M A := fun s => (inl e, s).
Definition bind {A B : Type} (m : M A) (k : A -> M B) : M B :=
  fun s => match m s with
           | (inr a, s') => k a s'
           | (inl e, s') => (inl e, s')
           end.
(** [try: m  except Exception as e: h e]. *)
Definition try_except {A : Type} (m : M A) (h : exn -> M A) : M A :=
  fun s => match m s with
           | (inr a, s') => (inr a, s')
           | (inl e, s') => h e s'
           end.

Definition get : M state := fun s => (inr s, s).
Definition modify (f : state -> state) : M unit := fun s => (inr tt, f s).
Definition emit (e : effect) : M unit := modify (with_effect e).

(** [TransferWorker.cancel], which the user interface thread runs when
    Cancel is pressed. *)
Definition cancel : M unit := modify (with_cancel true).

Definition press_cancel (pressed : bool) : M unit :=
  if pressed then cancel else ret tt.

(** The end of a call: a pending Cancel gets through, and the call returns
    or raises as the environment says. *)
Definition come_back {A : Type} (r : reply A) : M A :=
  fun s => (outcome r, if cancel_pressed r then with_cancel true s else s).

(** A call is recorded, then comes back. *)
Definition do_call {A : Type} (c : call) (r : reply A) : M A :=
  fun s => come_back r (with_effect (Call c) s).

Declare Scope monad_scope.
Delimit Scope monad_scope with monad.
Notation "x <- m ;; k" := (bind m (fun x => k))
  (at level 61, m at next level, right associativity) : monad_scope.
Notation "m ;; k" := (bind m (fun _ => k))
  (at level 61, right associativity) : monad_scope.
Local Open Scope monad_scope.

(** [for x in xs: body x]. *)
Fixpoint for_each {A : Type} (xs : list A) (body : A -> M unit) : M unit :=
  match xs with
  | [] => ret tt
  | x :: rest => body x ;; for_each rest body
  end.

(** ** SshSftpSession *)

Definition is_connected (self : SshSftpSession) : bool :=
  match ssh self, sftp self with
  | Some _, Some _ => true
  | _, _ => false
  end.

(** Outcomes of the two [close] calls of [disconnect]. *)
Record disconnect_env := {
  sftp_close_reply : reply unit;
  ssh_close_reply : reply unit
}.

Definition disconnect (env : disconnect_env) : M unit :=
  try_except
    (s <- get ;;
     match sftp (session s) with
     | Some h => do_call (SFTPClient_close h) (sftp_close_reply env)
     | None => ret tt
     end)
    (fun _ => ret tt) ;;
  try_except
    (s <- get ;;
     match ssh (session s) with
     | Some h => do_call (SSHClient_close h) (ssh_close_reply env)
     | None => ret tt
     end)
    (fun _ => ret tt) ;;
  modify (with_session (fun self =>
    {| ssh := None; sftp := sftp self; host := host self; username := username self |})) ;;
  modify (with_session (fun self =>
    {| ssh := ssh self; sftp := None; host := host self; username := username self |})) ;;
  emit (connected_changed false).

(** Outcomes of the calls of [connect]. *)
Record connect_env := {
  connect_disconnect : disconnect_env;
  SSHClient_reply : reply handle;          (* paramiko.SSHClient() and its
                                              host key policy *)
  ssh_connect_reply : reply unit;          (* ssh.connect(...) *)
  open_sftp_reply : reply handle           (* ssh.open_sftp() *)
}.

Definition connect (env : connect_env)
    (host_ username_ password : string) (port timeout : Z) : M unit :=
  disconnect (connect_disconnect env) ;;
  modify (with_session (fun self =>
    {| ssh := ssh self; sftp := sftp self; host := host_; username := username self |})) ;;
  modify (with_session (fun self =>
    {| ssh := ssh self; sftp := sftp self; host := host self; username := username_ |})) ;;
  ssh_ <- do_call SSHClient_new (SSHClient_reply env) ;;
  do_call (SSHClient_connect ssh_ host_ port username_ password timeout)
          (ssh_connect_reply env) ;;
  sftp_ <- do_call (SSHClient_open_sftp ssh_) (open_sftp_reply env) ;;
  modify (with_session (fun self =>
    {| ssh := Some ssh_; sftp := sftp self; host := host self; username := username self |})) ;;
  modify (with_session (fun self =>
    {| ssh := ssh self; sftp := Some sftp_; host := host self; username := username self |})) ;;
  emit (connected_changed true).

(** [SshSftpSession.exec]. *)
Definition exec (r : reply (Z * string * string)) (cmd : string) (timeout : Z)
  : M (Z * string * string) :=
  s <- get ;;
  if negb (is_connected (session s))
  then raise (Exn RuntimeError "Not connected")
  else
    match ssh (session s) with
    | Some h => do_call (SSHClient_exec_command h cmd timeout) r
    | None => raise (Exn AttributeError "'NoneType' object has no attribute 'exec_command'")
    end.

(** ** Properties of the session *)

Section SessionFacts.

(** The [close] calls [disconnect] makes from a session: the channel first,
    then the transport, each only if the handle is present. *)
Definition close_calls (self : SshSftpSession) : list effect :=
  match sftp self with Some h => [Call (SFTPClient_close h)] | None => [] end ++
  match ssh self with Some h => [Call (SSHClient_close h)] | None => [] end.

Definition cancel_after_disconnect (env : disconnect_env) (s : state) : bool :=
  (match ssh (session s) with
   | Some _ => cancel_pressed (ssh_close_reply env) | None => false end)
  || (match sftp (session s) with
      | Some _ => cancel_pressed (sftp_close_reply env) | None => false end)
  || _cancel s.

(** [disconnect] run on any state, whatever the [close] calls do. *)
Lemma disconnect_run (env : disconnect_env) (s : state) :
  disconnect env s =
  (inr tt,
   {| session := {| ssh := None; sftp := None;
                    host := host (session s); username := username (session s) |};
      _cancel := cancel_after_disconnect env s;
      window := window s;
      stored := stored s; fetched := fetched s;
      trace := (trace s ++ close_calls (session s)) ++ [connected_changed false] |}).
Proof.
  destruct s as [[ssh0 sftp0 host0 user0] c w st ft tr], env as [[p1 o1] [p2 o2]].
  unfold cancel_after_disconnect, close_calls.
  destruct sftp0 as [h1|], ssh0 as [h2|];
    destruct p1, o1 as [e1|[]], p2, o2 as [e2|[]], c; cbv -[app];
    rewrite <- ?app_assoc; reflexivity.
Qed.

(** [connect] seen after its leading [disconnect]. *)
Lemma connect_run (env : connect_env) (h u pw : string) (port t : Z) (s : state) :
  let s0 := snd (disconnect (connect_disconnect env) s) in
  let s1 := with_session (fun _ =>
              {| ssh := None; sftp := None; host := h; username := u |}) s0 in
  connect env h u pw port t s =
  (c <- do_call SSHClient_new (SSHClient_reply env) ;;
   do_call (SSHClient_connect c h port u pw t) (ssh_connect_reply env) ;;
   f <- do_call (SSHClient_open_sftp c) (open_sftp_reply env) ;;
   modify (with_session (fun _ =>
     {| ssh := Some c; sftp := Some f; host := h; username := u |})) ;;
   emit (connected_changed true)) s1.
Proof.
  cbv zeta. unfold connect at 1. unfold bind at 1.
  rewrite disconnect_run. cbn [snd].
  destruct env as [denv [p0 [e0|c]] [p1 [e1|[]]] [p2 [e2|f]]];
    destruct p0, p1, p2; reflexivity.
Qed.

End SessionFacts.

Lemma connect_failure_session (env : connect_env) (h u pw : string) (port t : Z)
    (s s' : state) (e : exn) :
  connect env h u pw port t s = (inl e, s') ->
  session s' = {| ssh := None; sftp := None; host := h; username := u |}.
Proof.
  rewrite connect_run. cbv zeta. rewrite disconnect_run. cbn [snd].
  destruct env as [denv [p0 [e0|c]] [p1 [e1|[]]] [p2 [e2|f]]];
    destruct p0, p1, p2; cbv -[app cancel_after_disconnect close_calls];
    intros H; inversion H; reflexivity.
Qed.

(** [MainWindow.__init__], and a session that is connected to
    [old.example] as [alice]. *)
Definition MainWindow_init : MainWindow :=
  {| remote_path := "/"; current_path := "/"; entries := []; lbl_status := "Ready." |}.

Definition connected_state : state :=
  {| session := {| ssh := Some 1; sftp := Some 2;
                   host := "old.example"; username := "alice" |};
     _cancel := false;
     window := MainWindow_init;
     stored := []; fetched := [];
     trace := [] |}.

Definition closes_ok : disconnect_env :=
  {| sftp_close_reply := returns tt; ssh_close_reply := returns tt |}.

(** The server rejects the password. *)
Definition bad_credentials : connect_env :=
  {| connect_disconnect := closes_ok;
     SSHClient_reply := returns 3;
     ssh_connect_reply := raises (Exn OtherException "Authentication failed.");
     open_sftp_reply := returns 4 |}.

(** The transport opens but the file-transfer channel does not. *)
Definition no_sftp_subsystem : connect_env :=
  {| connect_disconnect := closes_ok;
     SSHClient_reply := returns 3;
     ssh_connect_reply := returns tt;
     open_sftp_reply := raises (Exn OtherException "Channel closed.") |}.

Example connect_bad_credentials_trace :
  connect bad_credentials "new.example" "bob" "wrong" 22 12 connected_state =
  (inl (Exn OtherException "Authentication failed."),
   {| session := {| ssh := None; sftp := None;
                    host := "new.example"; username := "bob" |};
      _cancel := false;
      window := MainWindow_init;
      stored := []; fetched := [];
      trace := [Call (SFTPClient_close 2); Call (SSHClient_close 1);
                connected_changed false; Call SSHClient_new;
                Call (SSHClient_connect 3 "new.example" 22 "bob" "wrong" 12)] |}).
Proof. reflexivity. Qed.

Example connect_no_sftp_trace :
  connect no_sftp_subsystem "new.example" "bob" "pw" 22 12 connected_state =
  (inl (Exn OtherException "Channel closed."),
   {| session := {| ssh := None; sftp := None;
                    host := "new.example"; username := "bob" |};
      _cancel := false;
      window := MainWindow_init;
      stored := []; fetched := [];
      trace := [Call (SFTPClient_close 2); Call (SSHClient_close 1);
                connected_changed false; Call SSHClient_new;
                Call (SSHClient_connect 3 "new.example" 22 "bob" "pw" 12);
                Call (SSHClient_open_sftp 3)] |}).
Proof. reflexivity. Qed.

(** Both [close] calls fail: both are still made, and the session ends up
    disconnected. *)
Definition closes_fail : disconnect_env :=
  {| sftp_close_reply := raises (Exn OtherException "Socket is closed");
     ssh_close_reply := raises (Exn OtherException "Socket is closed") |}.

Example disconnect_close_errors_trace :
  disconnect closes_fail connected_state =
  (inr tt,
   {| session := {| ssh := None; sftp := None;
                    host := "old.example"; username := "alice" |};
      _cancel := false;
      window := MainWindow_init;
      stored := []; fetched := [];
      trace := [Call (SFTPClient_close 2); Call (SSHClient_close 1);
                connected_changed false] |}).
Proof. reflexivity. Qed.

(** C5: however [connect] fails (creating the client, opening the transport
    and authenticating, or opening the file-transfer channel), the session is
    left disconnected: [is_connected] is false and neither handle is kept. *)
Theorem connect_failure_leaves_disconnected
    (env : connect_env) (h u pw : string) (port t : Z) (s s' : state) (e : exn) :
  connect env h u pw port t s = (inl e, s') ->
  is_connected (session s') = false /\
  ssh (session s') = None /\ sftp (session s') = None.
Proof.
  intros H. apply connect_failure_session in H. rewrite H. now repeat split.
Qed.

Lemma connect_failure_leaves_disconnected_witness :
  let s' := snd (connect bad_credentials "new.example" "bob" "wrong" 22 12
                   connected_state) in
  is_connected (session s') = false /\
  ssh (session s') = None /\ sftp (session s') = None.
Proof.
  cbv zeta.
  apply (connect_failure_leaves_disconnected bad_credentials
           "new.example" "bob" "wrong" 22 12 connected_state _
           (Exn OtherException "Authentication failed.")).
  reflexivity.
Defined.

(** C10: a failed [connect] has already overwritten [host] and [username]:
    the session is disconnected, yet both fields hold the arguments of the
    failed attempt, not those of the session that was connected before. *)
Theorem connect_failure_overwrites_host_username
    (env : connect_env) (h u pw : string) (port t : Z) (s s' : state) (e : exn) :
  connect env h u pw port t s = (inl e, s') ->
  ssh (session s') = None /\ sftp (session s') = None /\
  host (session s') = h /\ username (session s') = u.
Proof.
  intros H. apply connect_failure_session in H. rewrite H. now repeat split.
Qed.

Lemma connect_failure_overwrites_host_username_witness :
  host (session connected_state) = "old.example" /\
  username (session connected_state) = "alice" /\
  let s' := snd (connect no_sftp_subsystem "new.example" "bob" "pw" 22 12
                   connected_state) in
  ssh (session s') = None /\ sftp (session s') = None /\
  host (session s') = "new.example" /\ username (session s') = "bob".
Proof.
  split; [reflexivity|]. split; [reflexivity|]. cbv zeta.
  apply (connect_failure_overwrites_host_username no_sftp_subsystem
           "new.example" "bob" "pw" 22 12 connected_state _
           (Exn OtherException "Channel closed.")).
  reflexivity.
Defined.

(** C6: [disconnect] never raises, also on a session that is already
    disconnected; it leaves the session disconnected; it tries to close the
    channel and then the transport whenever they are present, whatever
    either [close] does; and every call, the second of two in a row
    included, emits [connected_changed(False)]. *)
Theorem disconnect_idempotent (env1 env2 : disconnect_env) (s : state) :
  let r1 := disconnect env1 s in
  let r2 := disconnect env2 (snd r1) in
  fst r1 = inr tt /\ fst r2 = inr tt /\
  is_connected (session (snd r1)) = false /\
  ssh (session (snd r1)) = None /\ sftp (session (snd r1)) = None /\
  is_connected (session (snd r2)) = false /\
  trace (snd r1) =
    ((trace s ++ close_calls (session s)) ++ [connected_changed false])%list /\
  trace (snd r2) = (trace (snd r1) ++ [connected_changed false])%list.
Proof.
  cbv zeta. rewrite !disconnect_run. cbn [fst snd session trace].
  unfold close_calls at 2. cbn [ssh sftp]. rewrite app_nil_r.
  repeat split; reflexivity.
Qed.

(** ** Remote browsing: [MainWindow.refresh_remote], [on_remote_cd], [remote_up] *)

(** [list.sort(key=...)]: Python's sort is stable and compares keys with
    [<] only; on any input its result is the one of the stable insertion
    sort below. *)
Section ListSort.
Context {A K : Type} (key : A -> K) (lt : K -> K -> bool).

Fixpoint insert_by (x : A) (l : list A) : list A :=
  match l with
  | [] => [x]
  | y :: t => if lt (key y) (key x) then y :: insert_by x t else x :: l
  end.

Fixpoint sort_by (l : list A) : list A :=
  match l with
  | [] => []
  | x :: t => insert_by x (sort_by t)
  end.

End ListSort.

(** [<] on the key tuples [(bool, str)]: the first components that differ
    decide, [False < True], strings compare by code point. *)
Definition bool_lt (a b : bool) : bool := negb a && b.

Definition tuple_lt (a b : bool * string) : bool :=
  if Bool.eqb (fst a) (fst b)
  then (if String.eqb (snd a) (snd b) then false else String.ltb (snd a) (snd b))
  else bool_lt (fst a) (fst b).

(** [lambda e: (not e.is_dir, e.name.lower())]. *)
Definition sort_key (e : RemoteEntry) : bool * string :=
  (negb (is_dir e), PyStr.lower (name e)).

(** One row of [sftp.listdir_attr]. *)
Record SFTPAttributes := mkAttr {
  filename : string;
  st_size : Z;
  st_mtime : Z;
  st_mode : Z
}.

(** [stat.S_ISDIR(attr.st_mode)]: [(mode & 0o170000) == 0o040000]. *)
Definition is_sftp_dir (attr : SFTPAttributes) : bool :=
  Z.land (st_mode attr) 61440 =? 16384.

Definition entry_of_attr (attr : SFTPAttributes) : RemoteEntry :=
  {| name := filename attr; is_dir := is_sftp_dir attr; size := st_size attr;
     mtime := st_mtime attr; mode := st_mode attr |}.

(** [RemoteTable.set_path] and [RemoteTable.populate] on the modelled part
    of the table, and [MainWindow.set_status]. *)
Definition set_path (p : string) : M unit :=
  modify (with_window (fun w =>
    {| remote_path := remote_path w; current_path := normalize_remote p;
       entries := entries w; lbl_status := lbl_status w |})).

Definition populate (es : list RemoteEntry) : M unit :=
  modify (with_window (fun w =>
    {| remote_path := remote_path w; current_path := current_path w;
       entries := es; lbl_status := lbl_status w |})).

Definition set_status (msg : string) : M unit :=
  modify (with_window (fun w =>
    {| remote_path := remote_path w; current_path := current_path w;
       entries := entries w; lbl_status := msg |})).

(** [self.remote_path.setText(p)]. *)
Definition remote_path_setText (p : string) : M unit :=
  modify (with_window (fun w =>
    {| remote_path := p; current_path := current_path w;
       entries := entries w; lbl_status := lbl_status w |})).

Definition sort_entries (es : list RemoteEntry) : list RemoteEntry :=
  sort_by sort_key tuple_lt es.

Definition refresh_remote (listing : reply (list SFTPAttributes)) : M unit :=
  s <- get ;;
  if negb (is_connected (session s)) then ret tt
  else
    let p := normalize_remote
               (PyStr.or_else (PyStr.strip (remote_path (window s))) "/") in
    try_except
      (set_path p ;;
       attrs <- match sftp (session s) with
                | Some h => do_call (SFTPClient_listdir_attr h p) listing
                | None => raise (Exn AttributeError
                            "'NoneType' object has no attribute 'listdir_attr'")
                end ;;
       let es := map entry_of_attr attrs in
       let es := sort_entries es in
       populate es ;;
       set_status ("Remote: " ++ p))
      (fun e => emit (Call (QMessageBox_critical "Remote list failed" (exn_str e)))).

Definition on_remote_cd (listing : reply (list SFTPAttributes)) (new_path : string)
  : M unit :=
  remote_path_setText (normalize_remote new_path) ;;
  refresh_remote listing.

Definition remote_up (listing : reply (list SFTPAttributes)) : M unit :=
  s <- get ;;
  let p := normalize_remote
             (PyStr.or_else (PyStr.strip (remote_path (window s))) "/") in
  if String.eqb p "/" then ret tt
  else
    let parent := normalize_remote
                    (PyStr.or_else (posixpath.dirname (PyStr.rstrip_char "/" p)) "/") in
    remote_path_setText parent ;;
    refresh_remote listing.

(** A window whose remote path field shows [p], over a connected session. *)
Definition browsing (p : string) : state :=
  with_window (fun w =>
    {| remote_path := p; current_path := current_path w;
       entries := entries w; lbl_status := lbl_status w |}) connected_state.

Example remote_up_ex (l : reply (list SFTPAttributes)) :
  remote_path (window (snd (remote_up l (browsing " /a//b/c/ ")))) = "/a/b".
Proof. destruct l as [[] [e|attrs]]; reflexivity. Qed.

(** ** Properties of the path primitives used by [remote_up] *)

Section PathFacts.

Lemma startswith_app (sub a b : string) :
  PyStr.startswith sub a = true -> PyStr.startswith sub (a ++ b) = true.
Proof.
  revert a. induction sub as [|c sub IH]; intros a; [reflexivity|].
  destruct a as [|d a]; cbn [PyStr.startswith append]; [discriminate|].
  intros H. apply andb_prop in H. destruct H as [-> H]. now rewrite IH.
Qed.

Lemma contains_app_l (sub a b : string) :
  PyStr.contains sub a = true -> PyStr.contains sub (a ++ b) = true.
Proof.
  induction a as [|c a IH].
  - cbn [PyStr.contains]. rewrite orb_false_r. destruct sub; [|discriminate].
    intros _. now destruct b.
  - cbn [PyStr.contains append]. intros H. apply orb_prop in H.
    destruct H as [H|H].
    + pose proof (startswith_app sub (String c a) b H) as H'.
      cbn [append] in H'. now rewrite H'.
    + rewrite (IH H). apply orb_true_r.
Qed.

Lemma contains_app_r (sub a b : string) :
  PyStr.contains sub b = true -> PyStr.contains sub (a ++ b) = true.
Proof.
  intros H. induction a as [|c a IH]; [exact H|].
  cbn [PyStr.contains append]. rewrite IH. apply orb_true_r.
Qed.

Lemma contains_app_false (sub a b : string) :
  PyStr.contains sub (a ++ b) = false ->
  PyStr.contains sub a = false /\ PyStr.contains sub b = false.
Proof.
  intros H. split.
  - destruct (PyStr.contains sub a) eqn:E; [|reflexivity].
    now rewrite (contains_app_l _ _ b E) in H.
  - destruct (PyStr.contains sub b) eqn:E; [|reflexivity].
    now rewrite (contains_app_r _ a _ E) in H.
Qed.

(** [rstrip]. *)
Lemma rstrip_by_cons (drop : ascii -> bool) (c : ascii) (t : string) :
  PyStr.rstrip_by drop (String c t) =
  match PyStr.rstrip_by drop t with
  | EmptyString => if drop c then EmptyString else String c EmptyString
  | t' => String c t'
  end.
Proof. reflexivity. Qed.

Lemma rstrip_by_app (drop : ascii -> bool) (a b : string) :
  PyStr.rstrip_by drop b <> "" ->
  PyStr.rstrip_by drop (a ++ b) = a ++ PyStr.rstrip_by drop b.
Proof.
  intros Hb. induction a as [|c a IH]; [reflexivity|].
  cbn [append]. rewrite rstrip_by_cons, IH.
  destruct (a ++ PyStr.rstrip_by drop b) eqn:E; [|reflexivity].
  destruct a; [cbn in E; congruence|discriminate].
Qed.

Lemma rstrip_by_dropped_tail (drop : ascii -> bool) (a : string) (c : ascii) :
  drop c = true ->
  PyStr.rstrip_by drop (a ++ String c "") = PyStr.rstrip_by drop a.
Proof.
  intros Hc. induction a as [|x a IH].
  - cbn. now rewrite Hc.
  - cbn [append]. now rewrite !rstrip_by_cons, IH.
Qed.

(** A segment: a non-empty name without slash. *)
Lemma rstrip_segment (nm tail : string) :
  nm <> "" -> PyStr.contains "/" nm = false -> tail = "" \/ tail = "/" ->
  PyStr.rstrip_char "/" (nm ++ tail) = nm.
Proof.
  unfold PyStr.rstrip_char. intros Hne Hs Ht.
  induction nm as [|c t IH]; [congruence|].
  rewrite contains_char_cons in Hs. apply orb_false_elim in Hs.
  destruct Hs as [Hc Hs].
  cbn [append]. rewrite rstrip_by_cons.
  destruct t as [|c' t'].
  - cbn [append]. destruct Ht as [->| ->]; cbn [PyStr.rstrip_by];
      rewrite ?Ascii.eqb_refl, Hc; reflexivity.
  - rewrite IH; [reflexivity|discriminate|exact Hs].
Qed.

Lemma rstrip_no_dslash (d rest : string) :
  PyStr.contains "//" (d ++ String slash rest) = false ->
  PyStr.rstrip_char "/" d = d.
Proof.
  unfold PyStr.rstrip_char. induction d as [|c d IH]; [reflexivity|].
  cbn [append PyStr.contains]. intros H. apply orb_false_elim in H.
  destruct H as [Hh Ht]. rewrite rstrip_by_cons, (IH Ht).
  destruct d as [|c' d']; [|reflexivity].
  cbn [append PyStr.startswith] in Hh. rewrite Ascii.eqb_refl in Hh.
  cbn [andb] in Hh. rewrite andb_true_r in Hh. now rewrite Hh.
Qed.

(** [posixpath.dirname]. *)
Lemma head_no_sep (s : string) :
  PyStr.contains "/" s = false -> posixpath.head_through_last_sep s = "".
Proof. destruct s; [reflexivity|]. cbn [posixpath.head_through_last_sep]. now intros ->. Qed.

Lemma head_through_last_sep_app (d nm : string) :
  PyStr.contains "/" nm = false ->
  posixpath.head_through_last_sep (d ++ String slash nm) = d ++ "/".
Proof.
  intros Hs. induction d as [|c d IH].
  - cbn [append posixpath.head_through_last_sep].
    rewrite contains_char_cons, Ascii.eqb_refl. cbn [orb].
    now rewrite (head_no_sep _ Hs).
  - cbn [append posixpath.head_through_last_sep].
    rewrite contains_char_cons.
    rewrite (contains_app_r "/" d (String slash nm)).
    + rewrite orb_true_r, IH. reflexivity.
    + rewrite contains_char_cons, Ascii.eqb_refl. reflexivity.
Qed.

Lemma all_sep_dslash (d rest : string) :
  d <> "" -> posixpath.all_sep (d ++ "/") = true ->
  PyStr.contains "//" (d ++ String slash rest) = true.
Proof.
  intros Hne H. destruct d as [|c d]; [congruence|].
  cbn [append posixpath.all_sep] in H. apply andb_prop in H.
  destruct H as [Hc Hd]. apply Ascii.eqb_eq in Hc. subst c.
  cbn [append PyStr.contains]. apply orb_true_iff. left.
  apply startswith_dslash.
  destruct d as [|c d]; cbn [append]; [now eexists|].
  cbn [append posixpath.all_sep] in Hd. apply andb_prop in Hd.
  destruct Hd as [Hc _]. apply Ascii.eqb_eq in Hc. subst c. now eexists.
Qed.

(** The parent of [d/nm] is [d], or the root when [d] is empty. *)
Lemma dirname_segment (d nm : string) :
  PyStr.contains "/" nm = false ->
  PyStr.contains "//" (d ++ String slash nm) = false ->
  PyStr.or_else (posixpath.dirname (d ++ String slash nm)) "/" = PyStr.or_else d "/".
Proof.
  intros Hs Hd. unfold posixpath.dirname.
  rewrite (head_through_last_sep_app _ _ Hs).
  destruct d as [|c d]; [reflexivity|].
  set (d0 := String c d) in *.
  assert (Hall : posixpath.all_sep (d0 ++ "/") = false).
  { destruct (posixpath.all_sep (d0 ++ "/")) eqn:E; [|reflexivity].
    rewrite (all_sep_dslash d0 nm) in Hd; [discriminate|discriminate|exact E]. }
  rewrite Hall. cbn [negb].
  assert (Hr : PyStr.rstrip_char "/" (d0 ++ "/") = d0).
  { unfold PyStr.rstrip_char. rewrite rstrip_by_dropped_tail by apply Ascii.eqb_refl.
    exact (rstrip_no_dslash d0 nm Hd). }
  subst d0. cbn [append] in *. rewrite Hr. reflexivity.
Qed.

End PathFacts.

(** ** Properties of [remote_up] *)

Section NavigationFacts.

Lemma str_app_assoc (a b c : string) : (a ++ b) ++ c = a ++ (b ++ c).
Proof. induction a as [|x a IH]; [reflexivity|]. cbn [append]. now rewrite IH. Qed.

(** [refresh_remote] never writes the remote path field. *)
Lemma refresh_remote_keeps_path (l : reply (list SFTPAttributes)) (s : state) :
  remote_path (window (snd (refresh_remote l s))) = remote_path (window s).
Proof.
  destruct s as [[ssh0 sftp0 host0 user0] c [rp cp es st] sd fd tr].
  destruct l as [pressed [e|attrs]], ssh0 as [h0|], sftp0 as [h1|], pressed;
    reflexivity.
Qed.

Lemma remote_up_at_root (l : reply (list SFTPAttributes)) (s : state) :
  normalize_remote (PyStr.or_else (PyStr.strip (remote_path (window s))) "/") = "/" ->
  remote_up l s = (inr tt, s).
Proof.
  intros H. unfold remote_up, bind, get. now rewrite H.
Qed.

Lemma remote_up_elsewhere (l : reply (list SFTPAttributes)) (s : state) :
  let p := normalize_remote
             (PyStr.or_else (PyStr.strip (remote_path (window s))) "/") in
  p <> "/" ->
  remote_path (window (snd (remote_up l s))) =
  normalize_remote
    (PyStr.or_else (posixpath.dirname (PyStr.rstrip_char "/" p)) "/").
Proof.
  cbv zeta. intros H. apply String.eqb_neq in H.
  unfold remote_up, bind at 1, get. rewrite H.
  unfold bind, remote_path_setText, modify.
  now rewrite refresh_remote_keeps_path.
Qed.

(** From [d/nm] or [d/nm/], shown normalized, [remote_up] goes to [d]. *)
Lemma remote_up_from_segment (l : reply (list SFTPAttributes)) (s : state)
    (d nm tail : string) :
  nm <> "" -> PyStr.contains "/" nm = false -> tail = "" \/ tail = "/" ->
  remote_path (window s) = d ++ "/" ++ nm ++ tail ->
  PyStr.strip (remote_path (window s)) = remote_path (window s) ->
  normalize_remote (remote_path (window s)) = remote_path (window s) ->
  remote_path (window (snd (remote_up l s))) = PyStr.or_else d "/".
Proof.
  intros Hnm Hseg Htail Hshown Hstrip Hnorm.
  set (text := remote_path (window s)) in *.
  assert (Hne : text <> "") by (rewrite Hshown; destruct d; discriminate).
  assert (Hp : normalize_remote (PyStr.or_else (PyStr.strip text) "/") = text).
  { rewrite Hstrip. destruct text; [congruence|exact Hnorm]. }
  assert (Hd : PyStr.contains "//" text = false)
    by (rewrite <- Hnorm; apply normalize_remote_no_dslash).
  assert (Hb : PyStr.contains "\" text = false)
    by (rewrite <- Hnorm; apply normalize_remote_backslash_free).
  assert (Hroot : text <> "/").
  { rewrite Hshown. destruct d as [|c [|c' d']]; cbn [append]; try discriminate.
    destruct nm; [congruence|discriminate]. }
  rewrite remote_up_elsewhere; fold text; rewrite Hp; [|exact Hroot].
  assert (Hsplit : text = (d ++ String slash nm) ++ tail).
  { rewrite Hshown, str_app_assoc. reflexivity. }
  assert (Hr : PyStr.rstrip_char "/" text = d ++ String slash nm).
  { rewrite Hshown. unfold PyStr.rstrip_char.
    change ("/" ++ nm ++ tail) with (String slash (nm ++ tail)).
    assert (E : PyStr.rstrip_by (Ascii.eqb "/") (String slash (nm ++ tail)) =
                String slash nm).
    { rewrite rstrip_by_cons.
      fold (PyStr.rstrip_char "/" (nm ++ tail)).
      rewrite (rstrip_segment nm tail Hnm Hseg Htail).
      destruct nm; [congruence|reflexivity]. }
    rewrite rstrip_by_app; rewrite E; [reflexivity|discriminate]. }
  rewrite Hr.
  rewrite Hsplit in Hd, Hb.
  apply contains_app_false in Hd, Hb. destruct Hd as [Hd _], Hb as [Hb _].
  rewrite (dirname_segment d nm Hseg Hd).
  destruct d as [|c d]; [reflexivity|].
  apply contains_app_false in Hd, Hb. destruct Hd as [Hd _], Hb as [Hb _].
  cbn [PyStr.or_else]. apply normalize_remote_fixpoint; [discriminate|exact Hb|exact Hd].
Qed.

End NavigationFacts.

(** C8: [remote_up] does nothing when the current path is the root;
    otherwise it sets the path to the parent of the path without its
    trailing slash, the root standing in for an empty parent: from ["/a/b"]
    to ["/a"], from ["/a"] to ["/"], and from [d/nm] or [d/nm/] to [d]. *)
Theorem remote_up_spec (l : reply (list SFTPAttributes)) (s : state) :
  let shown := remote_path (window s) in
  let p := normalize_remote (PyStr.or_else (PyStr.strip shown) "/") in
  let after := remote_path (window (snd (remote_up l s))) in
  (p = "/" -> remote_up l s = (inr tt, s)) /\
  (p <> "/" ->
   after = normalize_remote
             (PyStr.or_else (posixpath.dirname (PyStr.rstrip_char "/" p)) "/")) /\
  (shown = "/" -> remote_up l s = (inr tt, s)) /\
  (shown = "/a/b" -> after = "/a") /\
  (shown = "/a" -> after = "/") /\
  (forall d nm tail : string,
     nm <> "" -> PyStr.contains "/" nm = false -> tail = "" \/ tail = "/" ->
     shown = d ++ "/" ++ nm ++ tail ->
     PyStr.strip shown = shown -> normalize_remote shown = shown ->
     after = PyStr.or_else d "/").
Proof.
  cbv zeta. split; [apply remote_up_at_root|].
  split; [apply remote_up_elsewhere|].
  split; [intros H; apply remote_up_at_root; now rewrite H|].
  split; [intros H; rewrite remote_up_elsewhere; now rewrite H|].
  split; [intros H; rewrite remote_up_elsewhere; now rewrite H|].
  intros d nm tail. apply remote_up_from_segment.
Qed.

Lemma remote_up_spec_witness :
  remote_up (returns []) (browsing "/") = (inr tt, browsing "/") /\
  remote_path (window (snd (remote_up (returns []) (browsing "/a/b")))) = "/a" /\
  remote_path (window (snd (remote_up (returns []) (browsing "/a")))) = "/" /\
  remote_path (window (snd (remote_up (returns []) (browsing "/srv/www/html/")))) =
    "/srv/www".
Proof.
  split; [apply (remote_up_spec (returns []) (browsing "/")); reflexivity|].
  split; [apply (remote_up_spec (returns []) (browsing "/a/b")); reflexivity|].
  split; [apply (remote_up_spec (returns []) (browsing "/a")); reflexivity|].
  pose proof (remote_up_spec (returns []) (browsing "/srv/www/html/")) as H.
  cbv zeta in H. destruct H as (_ & _ & _ & _ & _ & H).
  apply (H "/srv/www" "html" "/"); try reflexivity; [discriminate|now right].
Defined.

(** ** Properties of the directory listing order *)

Section SortFacts.

(** The stable insertion sort permutes its input and leaves it ordered,
    whenever [lt] is asymmetric. *)
Section Generic.
Context {A K : Type} (key : A -> K) (lt : K -> K -> bool).
Hypothesis lt_asym : forall a b, lt a b = true -> lt b a = false.

(** [a] may stand before [b]. *)
Definition not_after (a b : A) : Prop := lt (key b) (key a) = false.

Lemma insert_by_perm (x : A) (l : list A) : Permutation (x :: l) (insert_by key lt x l).
Proof.
  induction l as [|y t IH]; cbn [insert_by]; [reflexivity|].
  destruct (lt (key y) (key x)); [|reflexivity].
  rewrite perm_swap. now apply perm_skip.
Qed.

Lemma sort_by_perm (l : list A) : Permutation l (sort_by key lt l).
Proof.
  induction l as [|x t IH]; cbn [sort_by]; [reflexivity|].
  rewrite <- insert_by_perm. now apply perm_skip.
Qed.

Lemma insert_by_sorted (x : A) (l : list A) :
  Sorted not_after l -> Sorted not_after (insert_by key lt x l).
Proof.
  induction 1 as [|y t Hs IH Hhd]; cbn [insert_by].
  - repeat constructor.
  - destruct (lt (key y) (key x)) eqn:E.
    + constructor; [exact IH|].
      destruct Hhd as [|z t' Hz]; cbn [insert_by].
      * constructor. unfold not_after. now apply lt_asym.
      * destruct (lt (key z) (key x)); constructor;
          [exact Hz | unfold not_after; now apply lt_asym].
    + constructor; [now constructor|]. constructor. exact E.
Qed.

Lemma sort_by_sorted (l : list A) : Sorted not_after (sort_by key lt l).
Proof.
  induction l as [|x t IH]; cbn [sort_by]; [constructor|].
  now apply insert_by_sorted.
Qed.

End Generic.

(** Strings compare by code point; [<] is asymmetric and irreflexive. *)
Lemma string_compare_refl (a : string) : String.compare a a = Eq.
Proof.
  pose proof (String.compare_antisym a a) as H.
  destruct (String.compare a a); cbn in H; congruence.
Qed.

Lemma string_ltb_asym (a b : string) :
  String.ltb a b = true -> String.ltb b a = false.
Proof.
  unfold String.ltb. rewrite (String.compare_antisym a b).
  destruct (String.compare b a); cbn; congruence.
Qed.

Lemma string_ltb_eqb (a b : string) :
  (if String.eqb a b then false else String.ltb a b) = String.ltb a b.
Proof.
  destruct (String.eqb_spec a b) as [->|]; [|reflexivity].
  unfold String.ltb. now rewrite string_compare_refl.
Qed.

Lemma tuple_lt_asym (a b : bool * string) :
  tuple_lt a b = true -> tuple_lt b a = false.
Proof.
  destruct a as [a1 a2], b as [b1 b2]. unfold tuple_lt. cbn [fst snd].
  rewrite !string_ltb_eqb.
  destruct a1, b1; cbn; try congruence; apply string_ltb_asym.
Qed.

(** The comparisons [sort_entries] makes. *)
Definition name_key (e : RemoteEntry) : string := PyStr.lower (name e).

Lemma tuple_lt_same_kind (x y : RemoteEntry) :
  is_dir x = is_dir y ->
  tuple_lt (sort_key y) (sort_key x) = String.ltb (name_key y) (name_key x).
Proof.
  intros H. unfold tuple_lt, sort_key. cbn [fst snd]. rewrite H.
  rewrite Bool.eqb_reflx. apply string_ltb_eqb.
Qed.

Lemma tuple_lt_dir_file (d f : RemoteEntry) :
  is_dir d = true -> is_dir f = false ->
  tuple_lt (sort_key d) (sort_key f) = true /\
  tuple_lt (sort_key f) (sort_key d) = false.
Proof.
  intros Hd Hf. unfold tuple_lt, sort_key. cbn [fst snd].
  now rewrite Hd, Hf.
Qed.

(** Sorting one kind of entry by case-insensitive name. *)
Definition sort_by_name (l : list RemoteEntry) : list RemoteEntry :=
  sort_by name_key String.ltb l.

Definition is_file (e : RemoteEntry) : bool := negb (is_dir e).

Lemma insert_dir (x : RemoteEntry) (ds fs : list RemoteEntry) :
  is_dir x = true ->
  Forall (fun e => is_dir e = true) ds -> Forall (fun e => is_dir e = false) fs ->
  insert_by sort_key tuple_lt x (ds ++ fs) =
  (insert_by name_key String.ltb x ds ++ fs)%list.
Proof.
  intros Hx Hds Hfs. induction Hds as [|y ds Hy Hds IH]; cbn [insert_by app].
  - destruct Hfs as [|f fs Hf Hfs]; [reflexivity|]. cbn [insert_by].
    now rewrite (proj2 (tuple_lt_dir_file x f Hx Hf)).
  - rewrite tuple_lt_same_kind by congruence.
    destruct (String.ltb (name_key y) (name_key x)); [|reflexivity].
    cbn [app]. now rewrite IH.
Qed.

Lemma insert_file (x : RemoteEntry) (ds fs : list RemoteEntry) :
  is_dir x = false ->
  Forall (fun e => is_dir e = true) ds -> Forall (fun e => is_dir e = false) fs ->
  insert_by sort_key tuple_lt x (ds ++ fs) =
  (ds ++ insert_by name_key String.ltb x fs)%list.
Proof.
  intros Hx Hds Hfs. induction Hds as [|y ds Hy Hds IH]; cbn [insert_by app].
  - induction Hfs as [|f fs Hf Hfs IHf]; [reflexivity|]. cbn [insert_by].
    rewrite tuple_lt_same_kind by congruence.
    destruct (String.ltb (name_key f) (name_key x)); [|reflexivity].
    now rewrite IHf.
  - rewrite (proj1 (tuple_lt_dir_file y x Hy Hx)). now rewrite IH.
Qed.

Lemma sort_by_name_Forall (P : RemoteEntry -> Prop) (l : list RemoteEntry) :
  Forall P l -> Forall P (sort_by_name l).
Proof.
  intros H. eapply Permutation_Forall; [|exact H]. apply sort_by_perm.
Qed.

Lemma filter_Forall (f : RemoteEntry -> bool) (l : list RemoteEntry) :
  Forall (fun e => f e = true) (filter f l).
Proof. apply Forall_forall. intros e He. now apply filter_In in He. Qed.

(** The listing order is: the directories by name, then the files by name. *)
Lemma sort_entries_split (es : list RemoteEntry) :
  sort_entries es =
  (sort_by_name (filter is_dir es) ++ sort_by_name (filter is_file es))%list.
Proof.
  unfold sort_entries. induction es as [|x es IH]; [reflexivity|].
  cbn [sort_by filter]. rewrite IH. unfold is_file at 2.
  assert (Hds : Forall (fun e => is_dir e = true) (sort_by_name (filter is_dir es)))
    by apply sort_by_name_Forall, filter_Forall.
  assert (Hfs : Forall (fun e => is_dir e = false) (sort_by_name (filter is_file es))).
  { apply sort_by_name_Forall. eapply Forall_impl; [|apply filter_Forall].
    unfold is_file. intros e He. now apply negb_true_iff. }
  destruct (is_dir x) eqn:Hx; cbn [negb].
  - now apply insert_dir.
  - now apply insert_file.
Qed.

(** [<=] on strings is transitive, and is what [not_after] means. *)
Lemma string_leb_trans (a b c : string) :
  String.leb a b = true -> String.leb b c = true -> String.leb a c = true.
Proof.
  unfold String.leb. revert b c.
  induction a as [|x a IH]; intros [|y b] [|z c]; cbn [String.compare];
    try easy.
  unfold Ascii.compare.
  destruct (N.compare_spec (N_of_ascii x) (N_of_ascii y)) as [Exy|Exy|Exy];
    destruct (N.compare_spec (N_of_ascii y) (N_of_ascii z)) as [Eyz|Eyz|Eyz];
    try easy.
  - rewrite Exy, Eyz, N.compare_refl. apply IH.
  - rewrite Exy. now rewrite (proj2 (N.compare_lt_iff _ _) Eyz).
  - rewrite <- Eyz. now rewrite (proj2 (N.compare_lt_iff _ _) Exy).
  - now rewrite (proj2 (N.compare_lt_iff _ _) (N.lt_trans _ _ _ Exy Eyz)).
Qed.

Lemma string_ltb_leb (a b : string) :
  String.ltb b a = false <-> String.leb a b = true.
Proof.
  unfold String.ltb, String.leb. rewrite (String.compare_antisym a b).
  destruct (String.compare b a); cbn; intuition congruence.
Qed.

(** [a] is listed no later than [b] by case-insensitive name. *)
Definition name_le (a b : RemoteEntry) : Prop :=
  String.leb (PyStr.lower (name a)) (PyStr.lower (name b)) = true.

Lemma Sorted_weaken {A : Type} (R R' : A -> A -> Prop) (l : list A) :
  (forall a b, R a b -> R' a b) -> Sorted R l -> Sorted R' l.
Proof.
  intros HR. induction 1 as [|x l Hs IH Hhd]; constructor; [exact IH|].
  destruct Hhd; constructor. now apply HR.
Qed.

Lemma sort_by_name_ascending (l : list RemoteEntry) :
  StronglySorted name_le (sort_by_name l).
Proof.
  apply Sorted_StronglySorted.
  - intros a b c. apply string_leb_trans.
  - eapply Sorted_weaken; [|apply sort_by_sorted, string_ltb_asym].
    intros a b H. now apply string_ltb_leb.
Qed.

(** What [refresh_remote] puts in the table when the listing succeeds. *)
Lemma refresh_remote_entries (s : state) (pressed : bool)
    (attrs : list SFTPAttributes) :
  is_connected (session s) = true ->
  entries (window (snd (refresh_remote (Reply pressed (inr attrs)) s))) =
  sort_entries (map entry_of_attr attrs).
Proof.
  destruct s as [[[h0|] [h1|] host0 user0] c [rp cp es st] sd fd tr];
    try discriminate.
  intros _. destruct pressed; reflexivity.
Qed.

End SortFacts.

(** The listing of the example: a directory [z], a file [a], a directory [B]. *)
Definition example_listing : list SFTPAttributes :=
  [ {| filename := "z"; st_size := 4096; st_mtime := 1700000000; st_mode := 16877 |};
    {| filename := "a"; st_size := 12; st_mtime := 1700000001; st_mode := 33188 |};
    {| filename := "B"; st_size := 4096; st_mtime := 1700000002; st_mode := 16877 |} ].

(** C7: a refresh shows the listed entries reordered: all directories, then
    all files, each group ascending by lower-cased name; a listing of
    directory [z], file [a], directory [B] is shown as [B], [z], [a]. *)
Theorem refresh_remote_order (s : state) (pressed : bool)
    (attrs : list SFTPAttributes) :
  is_connected (session s) = true ->
  let listed := map entry_of_attr attrs in
  let shown := entries (window (snd (refresh_remote (Reply pressed (inr attrs)) s))) in
  Permutation listed shown /\
  (exists ds fs : list RemoteEntry,
     shown = (ds ++ fs)%list /\
     Forall (fun e => is_dir e = true) ds /\
     Forall (fun e => is_dir e = false) fs /\
     StronglySorted name_le ds /\ StronglySorted name_le fs) /\
  (map (fun a => (filename a, is_sftp_dir a)) attrs =
     [("z", true); ("a", false); ("B", true)] ->
   map name shown = ["B"; "z"; "a"]).
Proof.
  intros Hc. cbv zeta. rewrite (refresh_remote_entries s pressed attrs Hc).
  split; [apply sort_by_perm|]. split.
  - rewrite sort_entries_split.
    exists (sort_by_name (filter is_dir (map entry_of_attr attrs))),
           (sort_by_name (filter is_file (map entry_of_attr attrs))).
    split; [reflexivity|].
    split; [apply sort_by_name_Forall, filter_Forall|].
    split.
    { apply sort_by_name_Forall. eapply Forall_impl; [|apply filter_Forall].
      unfold is_file. intros e He. now apply negb_true_iff. }
    split; apply sort_by_name_ascending.
  - destruct attrs as [|a1 [|a2 [|a3 [|a4 rest]]]]; cbn [map]; try discriminate.
    intros H. injection H as H1 D1 H2 D2 H3 D3.
    unfold sort_entries, sort_by, insert_by, tuple_lt, sort_key, entry_of_attr.
    cbn [name is_dir fst snd]. rewrite H1, H2, H3, D1, D2, D3. reflexivity.
Qed.

Lemma refresh_remote_order_witness :
  map name (entries (window (snd (refresh_remote (returns example_listing)
                                    connected_state)))) = ["B"; "z"; "a"].
Proof.
  apply (refresh_remote_order connected_state false example_listing);
    reflexivity.
Defined.

(** ** Python float arithmetic

    [int((tx / total) * 100)] is computed in binary64.  A finite float is
    modelled by the rational it denotes; [round53] rounds a rational to the
    nearest number with a 53-bit significand, ties to even.  The exponent is
    not bounded here, so the model is exact as long as no result leaves the
    normal range of binary64, which byte counts below [2^1000] never do. *)


Module PyFloat.

(** [floor(log2 x)] for [0 < x]. *)
Definition ilog2 (x : Q) : Z :=
  let c := Z.log2 (Qnum x) - Z.log2 (Zpos (Qden x)) in
  if Qle_bool (2 ^ c) x then c else c - 1.

Definition round_half_even (y : Q) : Z :=
  let f := Qfloor y in
  match Qcompare (y - inject_Z f) (1 # 2) with
  | Lt => f
  | Gt => f + 1
  | Eq => if Z.even f then f else f + 1
  end.

Definition round53_pos (x : Q) : Q :=
  let e := ilog2 x - 52 in
  (inject_Z (round_half_even (x / 2 ^ e)) * 2 ^ e)%Q.

Definition round53 (x : Q) : Q :=
  match Qcompare x 0 with
  | Eq => 0%Q
  | Gt => round53_pos x
  | Lt => (- round53_pos (- x))%Q
  end.

(** [a / b] on integers: the quotient, correctly rounded. *)
Definition truediv (a b : Z) : exn + Q :=
  if b =? 0 then inl (Exn ZeroDivisionError "division by zero")
  else inr (round53 (inject_Z a / inject_Z b)).

(** [x * n] for a float [x] and an integer [n] that a float holds exactly. *)
Definition mul_int (x : Q) (n : Z) : Q := round53 (x * inject_Z n).

(** [int(x)]: truncation toward zero. *)
Definition int_of (x : Q) : Z :=
  if Qle_bool 0 x then Qfloor x else Qceiling x.

End PyFloat.

(** [int((tx / total) * 100)]. *)
Definition percentage (tx total : Z) : exn + Z :=
  match PyFloat.truediv tx total with
  | inl e => inl e
  | inr q => inr (PyFloat.int_of (PyFloat.mul_int q 100))
  end.

Example percentage_ex :
  map (fun tx => percentage tx 100) [0; 28; 29; 30; 57; 58; 100; 250] =
  map inr [0; 28; 28; 30; 56; 57; 100; 250] /\
  percentage 32768 98304 = inr 33 /\
  percentage 5 0 = inl (Exn ZeroDivisionError "division by zero").
Proof. repeat split; vm_compute; reflexivity. Qed.

Section FloatFacts.
Local Open Scope Q_scope.

Lemma two_pow_pos (k : Z) : 0 < 2 ^ k.
Proof. apply Qpower_0_lt. reflexivity. Qed.

Lemma two_pow_mono (a b : Z) : (a <= b)%Z -> 2 ^ a <= 2 ^ b.
Proof. intros H. apply Qpower_le_compat_l; [exact H|]. discriminate. Qed.

Lemma two_pow_succ (k : Z) : 2 ^ (k + 1) == 2 * 2 ^ k.
Proof.
  rewrite Qpower_plus by discriminate. rewrite Qmult_comm.
  apply Qmult_comp; reflexivity.
Qed.

Lemma two_pow_pred (k : Z) : 2 ^ (k - 1) == 2 ^ k / 2.
Proof. rewrite Qpower_minus by discriminate. reflexivity. Qed.

Lemma two_pow_log2_le (n : Z) : (0 < n)%Z -> 2 ^ Z.log2 n <= inject_Z n.
Proof.
  intros H. rewrite <- (Zpower_Qpower 2) by apply Z.log2_nonneg.
  rewrite <- Zle_Qle. apply Z.log2_spec. exact H.
Qed.

Lemma two_pow_log2_lt (n : Z) : (0 < n)%Z -> inject_Z n < 2 ^ (Z.log2 n + 1).
Proof.
  intros H. rewrite <- (Zpower_Qpower 2) by (pose proof (Z.log2_nonneg n); lia).
  rewrite <- Zlt_Qlt. replace (Z.log2 n + 1)%Z with (Z.succ (Z.log2 n)) by lia.
  apply Z.log2_spec. exact H.
Qed.

(** [ilog2 x] is the binade of [x]. *)
Lemma ilog2_spec (x : Q) :
  0 < x -> 2 ^ PyFloat.ilog2 x <= x /\ x < 2 ^ (PyFloat.ilog2 x + 1).
Proof.
  intros Hx. unfold PyFloat.ilog2.
  destruct x as [n d]. cbn [Qnum Qden].
  assert (Hn : (0 < n)%Z) by (unfold Qlt in Hx; cbn in Hx; lia).
  set (ln := Z.log2 n). set (ld := Z.log2 (Z.pos d)).
  pose proof (two_pow_log2_le n Hn) as Hn1.
  pose proof (two_pow_log2_lt n Hn) as Hn2.
  pose proof (two_pow_log2_le (Z.pos d) eq_refl) as Hd1.
  pose proof (two_pow_log2_lt (Z.pos d) eq_refl) as Hd2.
  fold ln in Hn1, Hn2. fold ld in Hd1, Hd2.
  rewrite two_pow_succ in Hn2, Hd2.
  assert (HP : 2 ^ (ln - ld) * 2 ^ ld == 2 ^ ln).
  { rewrite <- Qpower_plus by discriminate.
    now replace (ln - ld + ld)%Z with ln by lia. }
  pose proof (two_pow_pos (ln - ld)) as HPpos.
  pose proof (two_pow_pos ld) as HBpos.
  assert (Hx' : n # d == inject_Z n / inject_Z (Z.pos d)) by apply Qmake_Qdiv.
  assert (Hdpos : 0 < inject_Z (Z.pos d)) by reflexivity.
  set (P := 2 ^ (ln - ld)) in *. set (A := 2 ^ ln) in *. set (B := 2 ^ ld) in *.
  set (N := inject_Z n) in *. set (D := inject_Z (Z.pos d)) in *.
  assert (Hup : n # d < 2 ^ (ln - ld + 1)).
  { rewrite Hx', two_pow_succ. fold P. apply Qlt_shift_div_r; [exact Hdpos|].
    clearbody P A B N D.
    assert (0 <= P * (D - B)) by (apply Qmult_le_0_compat; lra). lra. }
  assert (Hlow : 2 ^ (ln - ld - 1) <= n # d).
  { rewrite Hx', two_pow_pred. fold P. apply Qle_shift_div_l; [exact Hdpos|].
    clearbody P A B N D.
    assert (0 <= P * (2 * B - D)) by (apply Qmult_le_0_compat; lra).
    setoid_replace (P / 2 * D) with ((P * D) / 2) by field.
    apply Qle_shift_div_r; [reflexivity|]. lra. }
  destruct (Qle_bool P (n # d)) eqn:E.
  - apply Qle_bool_iff in E. split; [exact E|exact Hup].
  - split; [exact Hlow|]. replace (ln - ld - 1 + 1)%Z with (ln - ld)%Z by lia.
    apply Qnot_le_lt. intros H. apply Qle_bool_iff in H. unfold P in E. congruence.
Qed.

Lemma ilog2_mono (x y : Q) :
  0 < x -> x <= y -> (PyFloat.ilog2 x <= PyFloat.ilog2 y)%Z.
Proof.
  intros Hx Hxy.
  assert (Hy : 0 < y) by (eapply Qlt_le_trans; eauto).
  destruct (ilog2_spec x Hx) as [Hx1 _].
  destruct (ilog2_spec y Hy) as [_ Hy2].
  destruct (Z_le_gt_dec (PyFloat.ilog2 x) (PyFloat.ilog2 y)) as [|Hgt];
    [assumption|].
  exfalso.
  assert (H : 2 ^ (PyFloat.ilog2 y + 1) <= 2 ^ PyFloat.ilog2 x)
    by (apply two_pow_mono; lia).
  lra.
Qed.

Ltac comparison_to_order H :=
  first [apply Qeq_alt in H | apply Qlt_alt in H | apply Qgt_alt in H].

Lemma round_half_even_bounds (y : Q) :
  (Qfloor y <= PyFloat.round_half_even y <= Qfloor y + 1)%Z.
Proof.
  unfold PyFloat.round_half_even.
  destruct (y - inject_Z (Qfloor y) ?= 1 # 2);
    [destruct (Z.even (Qfloor y))| |]; lia.
Qed.

Lemma round_half_even_Z (z : Z) : PyFloat.round_half_even (inject_Z z) = z.
Proof.
  unfold PyFloat.round_half_even. rewrite Qfloor_Z.
  assert (H : inject_Z z - inject_Z z < 1 # 2) by lra.
  rewrite Qlt_alt in H. now rewrite H.
Qed.

Lemma round_half_even_mono (x y : Q) :
  x <= y -> (PyFloat.round_half_even x <= PyFloat.round_half_even y)%Z.
Proof.
  intros Hxy.
  pose proof (Qfloor_resp_le x y Hxy) as Hf.
  pose proof (round_half_even_bounds x) as Bx.
  pose proof (round_half_even_bounds y) as By.
  destruct (Z.eq_dec (Qfloor x) (Qfloor y)) as [E|NE]; [|lia].
  unfold PyFloat.round_half_even. rewrite <- E.
  destruct (x - inject_Z (Qfloor x) ?= 1 # 2) eqn:Cx;
    destruct (y - inject_Z (Qfloor x) ?= 1 # 2) eqn:Cy;
    try (destruct (Z.even (Qfloor x))); try lia; exfalso;
    comparison_to_order Cx; comparison_to_order Cy; lra.
Qed.

(** The significand of a rounded positive number has 53 bits, or is [2^53]. *)
Lemma round53_pos_mantissa (x : Q) :
  0 < x ->
  let e := (PyFloat.ilog2 x - 52)%Z in
  (2 ^ 52 <= PyFloat.round_half_even (x / 2 ^ e) <= 2 ^ 53)%Z.
Proof.
  intros Hx e. destruct (ilog2_spec x Hx) as [H1 H2].
  pose proof (two_pow_pos e) as He.
  assert (Hs : 2 ^ PyFloat.ilog2 x == 2 ^ 52 * 2 ^ e).
  { unfold e. rewrite <- Qpower_plus by discriminate.
    now replace (52 + (PyFloat.ilog2 x - 52))%Z with (PyFloat.ilog2 x) by lia. }
  rewrite two_pow_succ, Hs in H2. rewrite Hs in H1.
  assert (L : inject_Z (2 ^ 52) <= x / 2 ^ e).
  { apply Qle_shift_div_l; [exact He|]. exact H1. }
  assert (U : x / 2 ^ e <= inject_Z (2 ^ 53)).
  { apply Qle_shift_div_r; [exact He|]. apply Qlt_le_weak.
    eapply Qlt_le_trans; [exact H2|]. rewrite Qmult_assoc. apply Qle_refl. }
  apply round_half_even_mono in L, U. rewrite round_half_even_Z in L, U. lia.
Qed.

Lemma round53_pos_mono (x y : Q) :
  0 < x -> x <= y -> PyFloat.round53_pos x <= PyFloat.round53_pos y.
Proof.
  intros Hx Hxy.
  assert (Hy : 0 < y) by (eapply Qlt_le_trans; eauto).
  pose proof (ilog2_mono x y Hx Hxy) as He.
  pose proof (round53_pos_mantissa x Hx) as Mx.
  pose proof (round53_pos_mantissa y Hy) as My.
  cbv zeta in Mx, My. unfold PyFloat.round53_pos.
  set (ex := (PyFloat.ilog2 x - 52)%Z) in *.
  set (ey := (PyFloat.ilog2 y - 52)%Z) in *.
  destruct (Z.eq_dec ex ey) as [E|NE].
  - rewrite <- E. apply Qmult_le_compat_r; [|apply Qlt_le_weak, two_pow_pos].
    rewrite <- Zle_Qle. apply round_half_even_mono.
    apply Qmult_le_compat_r; [exact Hxy|].
    apply Qlt_le_weak, Qinv_lt_0_compat, two_pow_pos.
  - assert (Hlt : (ex + 1 <= ey)%Z) by (unfold ex, ey in *; lia).
    apply Qle_trans with (inject_Z (2 ^ 53) * 2 ^ ex).
    { apply Qmult_le_compat_r; [|apply Qlt_le_weak, two_pow_pos].
      rewrite <- Zle_Qle. lia. }
    apply Qle_trans with (inject_Z (2 ^ 52) * 2 ^ ey).
    { apply Qle_trans with (inject_Z (2 ^ 52) * 2 ^ (ex + 1)).
      - rewrite two_pow_succ. rewrite Qmult_assoc.
        apply Qmult_le_compat_r; [|apply Qlt_le_weak, two_pow_pos]. discriminate.
      - apply Qmult_le_l; [reflexivity|]. now apply two_pow_mono. }
    apply Qmult_le_compat_r; [|apply Qlt_le_weak, two_pow_pos].
    rewrite <- Zle_Qle. lia.
Qed.

Lemma round53_pos_positive (x : Q) : 0 < x -> 0 < PyFloat.round53_pos x.
Proof.
  intros Hx. pose proof (round53_pos_mantissa x Hx) as M. cbv zeta in M.
  unfold PyFloat.round53_pos.
  apply Qmult_lt_0_compat; [|apply two_pow_pos].
  rewrite <- (Zlt_Qlt 0). lia.
Qed.

(** Rounding, truncation and the percentage are monotone. *)
Lemma round53_mono (x y : Q) :
  x <= y -> PyFloat.round53 x <= PyFloat.round53 y.
Proof.
  intros Hxy. unfold PyFloat.round53.
  destruct (x ?= 0) eqn:Cx; comparison_to_order Cx;
    destruct (y ?= 0) eqn:Cy; comparison_to_order Cy; try lra.
  - apply Qlt_le_weak, round53_pos_positive. lra.
  - assert (H : 0 < PyFloat.round53_pos (- x)) by (apply round53_pos_positive; lra).
    lra.
  - assert (H : PyFloat.round53_pos (- y) <= PyFloat.round53_pos (- x))
      by (apply round53_pos_mono; lra).
    lra.
  - assert (H : 0 < PyFloat.round53_pos (- x)) by (apply round53_pos_positive; lra).
    assert (H' : 0 < PyFloat.round53_pos y) by (apply round53_pos_positive; lra).
    lra.
  - apply round53_pos_mono; lra.
Qed.

Lemma int_of_mono (x y : Q) :
  x <= y -> (PyFloat.int_of x <= PyFloat.int_of y)%Z.
Proof.
  intros Hxy. unfold PyFloat.int_of.
  destruct (Qle_bool 0 x) eqn:Ex, (Qle_bool 0 y) eqn:Ey.
  - now apply Qfloor_resp_le.
  - apply Qle_bool_iff in Ex. exfalso.
    assert (H : 0 <= y) by lra. apply Qle_bool_iff in H. congruence.
  - apply Qle_bool_iff in Ey.
    assert (Hx : x <= 0).
    { apply Qnot_lt_le. intros H. apply Qlt_le_weak, Qle_bool_iff in H. congruence. }
    apply Qceiling_resp_le in Hx. apply Qfloor_resp_le in Ey.
    change (Qceiling 0) with 0%Z in Hx. change (Qfloor 0) with 0%Z in Ey. lia.
  - now apply Qceiling_resp_le.
Qed.

Lemma percentage_defined (tx total : Z) :
  total <> 0%Z -> exists p : Z, percentage tx total = inr p.
Proof.
  intros H. unfold percentage, PyFloat.truediv.
  apply Z.eqb_neq in H. rewrite H. eauto.
Qed.

Lemma percentage_mono (tx1 tx2 total p1 p2 : Z) :
  (0 < total)%Z -> (tx1 <= tx2)%Z ->
  percentage tx1 total = inr p1 -> percentage tx2 total = inr p2 ->
  (p1 <= p2)%Z.
Proof.
  intros Ht Htx. unfold percentage, PyFloat.truediv, PyFloat.mul_int.
  assert (E : (total =? 0)%Z = false) by (apply Z.eqb_neq; lia). rewrite E.
  intros H1 H2. injection H1 as <-. injection H2 as <-.
  apply int_of_mono, round53_mono.
  apply Qmult_le_compat_r; [|discriminate].
  apply round53_mono.
  apply Qmult_le_compat_r; [rewrite <- Zle_Qle; exact Htx|].
  apply Qlt_le_weak, Qinv_lt_0_compat. rewrite <- (Zlt_Qlt 0). exact Ht.
Qed.

End FloatFacts.

(** ** TransferWorker *)

(** [str(n)] for the integers that the f-strings print. *)
Definition str_of_nat (n : nat) : string := NilZero.string_of_uint (Nat.to_uint n).
Definition str_of_Z (z : Z) : string := NilZero.string_of_int (Z.to_int z).

Definition lift {A : Type} (r : exn + A) : M A := fun s => (r, s).

(** [for i, x in enumerate(xs, start=i0): body i x]. *)
Fixpoint for_each_from {A : Type} (i0 : nat) (xs : list A)
    (body : nat -> A -> M unit) : M unit :=
  match xs with
  | [] => ret tt
  | x :: rest => body i0 x ;; for_each_from (S i0) rest body
  end.

(** [os.path.join(a, b)] of [posixpath]. *)
Definition posixpath_join (a b : string) : string :=
  if PyStr.startswith "/" b then b
  else match a with
       | EmptyString => b
       | _ => if PyStr.endswith_char slash a then a ++ b else a ++ "/" ++ b
       end.

(** What [sftp.put] and [sftp.get] do with their [callback]: after each
    block moved they call it with the number of bytes moved so far, then
    they return or raise.  Cancel may be pressed while a block moves and
    while the transfer winds up. *)
Record chunk := {
  chunk_tx : Z;                (* bytes transferred so far *)
  chunk_cancel : bool          (* Cancel pressed while this block moved *)
}.

Record transfer := {
  callbacks : list chunk;
  completion : reply unit
}.

Definition run_transfer (t : transfer) (cb : Z -> M unit) : M unit :=
  for_each (callbacks t)
    (fun c => press_cancel (chunk_cancel c) ;; cb (chunk_tx c)) ;;
  come_back (completion t).

Definition sftp_put (h : handle) (local_path remote_path : string)
    (t : transfer) (cb : Z -> M unit) : M unit :=
  emit (Call (SFTPClient_put h local_path remote_path)) ;;
  run_transfer t cb ;;
  modify (with_stored remote_path).

Definition sftp_get (h : handle) (remote_path local_path : string)
    (t : transfer) (cb : Z -> M unit) : M unit :=
  emit (Call (SFTPClient_get h remote_path local_path)) ;;
  run_transfer t cb ;;
  modify (with_fetched local_path).

(** [max(0, min(100, pct))]. *)
Definition clamp (pct : Z) : Z := Z.max 0 (Z.min 100 pct).

(** [if self._cancel: raise RuntimeError("Cancelled")]. *)
Definition check_cancel : M unit :=
  s <- get ;;
  if _cancel s then raise (Exn RuntimeError "Cancelled") else ret tt.

(** The callback [cb] of [_put_file]. *)
Definition put_cb (total tx : Z) : M unit :=
  (if total >? 0
   then pct <- lift (percentage tx total) ;; emit (progress (clamp pct))
   else ret tt) ;;
  check_cancel.

Record put_env := {
  getsize_reply : reply Z;        (* os.path.getsize(local_path) *)
  put_transfer : transfer         (* sftp.put(...) *)
}.

Definition _put_file (env : put_env) (local_path remote_path : string) : M unit :=
  s <- get ;;
  let sftp_ := sftp (session s) in
  total <- do_call (os_path_getsize local_path) (getsize_reply env) ;;
  emit (status ("Uploading: " ++ posixpath.basename local_path)) ;;
  emit (progress 0) ;;
  match sftp_ with
  | Some h => sftp_put h local_path remote_path (put_transfer env) (put_cb total)
  | None => raise (Exn AttributeError "'NoneType' object has no attribute 'put'")
  end ;;
  emit (progress 100).

(** The callback [cb] of [_get_file]; [remote_size] may be [None]. *)
Definition get_cb (remote_size : option Z) (tx : Z) : M unit :=
  match remote_size with
  | Some size_ =>
      if negb (size_ =? 0) && (size_ >? 0)
      then pct <- lift (percentage tx size_) ;; emit (progress (clamp pct))
      else ret tt
  | None => ret tt
  end ;;
  check_cancel.

Record get_env := {
  stat_reply : reply (option Z);  (* sftp.stat(remote_path).st_size *)
  get_transfer : transfer         (* sftp.get(...) *)
}.

Definition _get_file (env : get_env) (remote_path local_path : string)
    (remote_size : option Z) : M unit :=
  s <- get ;;
  let sftp_ := sftp (session s) in
  remote_size <-
    match remote_size with
    | None =>
        try_except
          match sftp_ with
          | Some h => do_call (SFTPClient_stat h remote_path) (stat_reply env)
          | None => raise (Exn AttributeError
                             "'NoneType' object has no attribute 'stat'")
          end
          (fun _ => ret (Some 0))
    | Some size_ => ret (Some size_)
    end ;;
  emit (status ("Downloading: " ++ posixpath.basename remote_path)) ;;
  emit (progress 0) ;;
  match sftp_ with
  | Some h => sftp_get h remote_path local_path (get_transfer env) (get_cb remote_size)
  | None => raise (Exn AttributeError "'NoneType' object has no attribute 'get'")
  end ;;
  emit (progress 100).

(** [[p for p in csv.split("|") if p.strip()]]. *)
Definition split_paths (csv : string) : list string :=
  filter (fun p => negb (String.eqb (PyStr.strip p) "")) (PyStr.split_char "|" csv).

Record upload_files_env := {
  uf_mkdir : reply (Z * string * string);   (* exec("mkdir -p ...") *)
  uf_file : nat -> put_env                  (* the i-th file, from 1 *)
}.

Definition upload_files (env : upload_files_env)
    (local_paths_csv remote_dir : string) : M unit :=
  try_except
    (let remote_dir := normalize_remote remote_dir in
     let local_paths := split_paths local_paths_csv in
     match local_paths with
     | [] => emit (finished false "No local files selected.")
     | _ =>
         emit (status ("Ensuring remote dir: " ++ remote_dir)) ;;
         exec (uf_mkdir env) ("mkdir -p '" ++ remote_dir ++ "'") 60 ;;
         for_each_from 1 local_paths (fun i lp =>
           check_cancel ;;
           let rp := join_remote remote_dir (posixpath.basename lp) in
           emit (status ("[" ++ str_of_nat i ++ "/"
                         ++ str_of_nat (List.length local_paths)
                         ++ "] Uploading file -> " ++ rp)) ;;
           _put_file (uf_file env i) lp rp) ;;
         emit (finished true "Upload completed.")
     end)
    (fun e => emit (finished false ("Upload failed: " ++ exn_str e))).

Record upload_folder_env := {
  uo_isdir : reply bool;                    (* os.path.isdir(local_folder) *)
  uo_abspath : string;                      (* os.path.abspath(local_folder) *)
  uo_tmp : reply string;                    (* NamedTemporaryFile(...).name *)
  uo_tar : reply unit;                      (* tarfile.open(...); tar.add(...) *)
  uo_mkdir : reply (Z * string * string);
  uo_put : put_env;
  uo_extract : reply (Z * string * string);
  uo_remove : reply unit                    (* os.remove(tar_path) *)
}.

Definition upload_folder (env : upload_folder_env)
    (local_folder remote_dir : string) (extract_remote : bool) : M unit :=
  try_except
    (isdir <- do_call (os_path_isdir local_folder) (uo_isdir env) ;;
     if negb isdir then emit (finished false "Selected path is not a folder.")
     else
       let remote_dir := normalize_remote remote_dir in
       let folder_name := posixpath.basename (uo_abspath env) in
       tar_path <- do_call (tempfile_NamedTemporaryFile
                              ("_" ++ folder_name ++ ".tar.gz")) (uo_tmp env) ;;
       emit (status "Compressing folder...") ;;
       emit (progress 0) ;;
       do_call (tarfile_create tar_path local_folder folder_name) (uo_tar env) ;;
       emit (status "Ensuring remote dir...") ;;
       exec (uo_mkdir env) ("mkdir -p '" ++ remote_dir ++ "'") 60 ;;
       let remote_tar := join_remote remote_dir (folder_name ++ ".tar.gz") in
       emit (status "Uploading compressed folder...") ;;
       _put_file (uo_put env) tar_path remote_tar ;;
       (if extract_remote
        then
          emit (status "Extracting on remote...") ;;
          let cmd := "tar -xzf '" ++ remote_tar ++ "' -C '" ++ remote_dir
                     ++ "' && rm -f '" ++ remote_tar ++ "'" in
          r <- exec (uo_extract env) cmd 300 ;;
          let '(code, out, err) := r in
          if negb (code =? 0)
          then raise (Exn RuntimeError
                        ("Remote extract failed: "
                         ++ PyStr.or_else (PyStr.strip err) (PyStr.strip out)))
          else ret tt
        else ret tt) ;;
       try_except (do_call (os_remove tar_path) (uo_remove env)) (fun _ => ret tt) ;;
       emit (finished true "Folder upload completed."))
    (fun e => emit (finished false ("Folder upload failed: " ++ exn_str e))).

Record download_files_env := {
  df_abspath : string;                      (* os.path.abspath(local_dir) *)
  df_makedirs : reply unit;
  df_file : nat -> get_env                  (* the i-th file, from 1 *)
}.

Definition download_files (env : download_files_env)
    (remote_paths_csv local_dir : string) : M unit :=
  try_except
    (let local_dir := df_abspath env in
     do_call (os_makedirs local_dir) (df_makedirs env) ;;
     let remote_paths := split_paths remote_paths_csv in
     match remote_paths with
     | [] => emit (finished false "No remote files selected.")
     | _ =>
         for_each_from 1 remote_paths (fun i rp =>
           check_cancel ;;
           let fname := posixpath.basename (PyStr.rstrip_char "/" rp) in
           let lp := posixpath_join local_dir fname in
           emit (status ("[" ++ str_of_nat i ++ "/"
                         ++ str_of_nat (List.length remote_paths)
                         ++ "] Downloading -> " ++ lp)) ;;
           _get_file (df_file env i) rp lp None) ;;
         emit (finished true "Download completed.")
     end)
    (fun e => emit (finished false ("Download failed: " ++ exn_str e))).

Record download_folder_env := {
  do_abspath : string;                      (* os.path.abspath(local_dir) *)
  do_makedirs : reply unit;
  do_time : reply Z;                        (* int(time.time()) *)
  do_archive : reply (Z * string * string);
  do_get : get_env;
  do_clean : reply (Z * string * string);
  do_extract : reply unit;                  (* tarfile.open(...); extractall *)
  do_remove : reply unit
}.

Definition download_folder (env : download_folder_env)
    (remote_folder local_dir : string) (extract_local : bool) : M unit :=
  try_except
    (let remote_folder := normalize_remote remote_folder in
     let local_dir := do_abspath env in
     do_call (os_makedirs local_dir) (do_makedirs env) ;;
     let folder_name := posixpath.basename (PyStr.rstrip_char "/" remote_folder) in
     now_ <- do_call time_time (do_time env) ;;
     let remote_tar := normalize_remote
                         ("/tmp/" ++ folder_name ++ "_" ++ str_of_Z now_ ++ ".tar.gz") in
     let local_tar := posixpath_join local_dir (posixpath.basename remote_tar) in
     emit (status "Creating archive on remote...") ;;
     let parent := normalize_remote
                     (posixpath.dirname (PyStr.rstrip_char "/" remote_folder)) in
     let base := folder_name in
     let cmd := "tar -czf '" ++ remote_tar ++ "' -C '" ++ parent ++ "' '"
                ++ base ++ "'" in
     r <- exec (do_archive env) cmd 300 ;;
     let '(code, out, err) := r in
     (if negb (code =? 0)
      then raise (Exn RuntimeError
                    ("Remote archive failed: "
                     ++ PyStr.or_else (PyStr.strip err) (PyStr.strip out)))
      else ret tt) ;;
     emit (status "Downloading archive...") ;;
     _get_file (do_get env) remote_tar local_tar None ;;
     emit (status "Cleaning remote temp...") ;;
     exec (do_clean env) ("rm -f '" ++ remote_tar ++ "'") 60 ;;
     (if extract_local
      then
        emit (status "Extracting locally...") ;;
        do_call (tarfile_extractall local_tar local_dir) (do_extract env) ;;
        try_except (do_call (os_remove local_tar) (do_remove env)) (fun _ => ret tt)
      else ret tt) ;;
     emit (finished true "Folder download completed."))
    (fun e => emit (finished false ("Folder download failed: " ++ exn_str e))).

(** A job as [MainWindow.run_worker] hands it to the worker thread. *)
Inductive TransferJob :=
| UploadFiles (env : upload_files_env) (local_paths_csv remote_dir : string)
| UploadFolder (env : upload_folder_env) (local_folder remote_dir : string)
               (extract_remote : bool)
| DownloadFiles (env : download_files_env) (remote_paths_csv local_dir : string)
| DownloadFolder (env : download_folder_env) (remote_folder local_dir : string)
                 (extract_local : bool).

Definition run_job (j : TransferJob) : M unit :=
  match j with
  | UploadFiles env csv dir => upload_files env csv dir
  | UploadFolder env folder dir x => upload_folder env folder dir x
  | DownloadFiles env csv dir => download_files env csv dir
  | DownloadFolder env folder dir x => download_folder env folder dir x
  end.

(** ** One file transfer, step by step *)

Section TransferFacts.

Definition cancelled : exn := Exn RuntimeError "Cancelled".

(** What one run of the callback emits. *)
Definition progress_step (total tx : Z) : list effect :=
  if total >? 0
  then match percentage tx total with
       | inr pct => [progress (clamp pct)]
       | inl _ => []
       end
  else [].

(** The run of the callbacks of a transfer, from the state of the Cancel
    flag before the first block: the result, the flag afterwards and the
    progress emitted. *)
Fixpoint cb_result (flag : bool) (cs : list chunk) : exn + unit :=
  match cs with
  | [] => inr tt
  | c :: rest => if flag || chunk_cancel c then inl cancelled else cb_result false rest
  end.

Fixpoint cb_flag (flag : bool) (cs : list chunk) : bool :=
  match cs with
  | [] => flag
  | c :: rest => if flag || chunk_cancel c then true else cb_flag false rest
  end.

Fixpoint cb_steps (total : Z) (flag : bool) (cs : list chunk) : list effect :=
  match cs with
  | [] => []
  | c :: rest =>
      (progress_step total (chunk_tx c) ++
       (if flag || chunk_cancel c then [] else cb_steps total false rest))%list
  end.

Lemma put_cb_run (total tx : Z) (s : state) :
  put_cb total tx s =
  (if _cancel s then inl cancelled else inr tt,
   {| session := session s; _cancel := _cancel s; window := window s;
      stored := stored s; fetched := fetched s;
      trace := trace s ++ progress_step total tx |}).
Proof.
  destruct s as [se c w sd fd tr].
  unfold put_cb, progress_step, bind, check_cancel, get, lift, emit, modify,
    with_effect, ret, raise. cbn [session _cancel window stored fetched trace].
  destruct (total >? 0) eqn:Et.
  - destruct (percentage_defined tx total) as [p Hp]; [lia|]. rewrite Hp.
    destruct c; reflexivity.
  - rewrite app_nil_r. destruct c; reflexivity.
Qed.

(** The callback of [_get_file] is the one of [_put_file] for the size that
    was found, an unknown size counting as zero. *)
Definition known_size (remote_size : option Z) : Z :=
  match remote_size with Some size_ => size_ | None => 0 end.

Lemma get_cb_put_cb (remote_size : option Z) (tx : Z) (s : state) :
  get_cb remote_size tx s = put_cb (known_size remote_size) tx s.
Proof.
  unfold get_cb, put_cb, known_size. destruct remote_size as [z|]; [|reflexivity].
  replace (negb (z =? 0) && (z >? 0)) with (z >? 0); [reflexivity|].
  destruct (Z.gtb_spec z 0), (Z.eqb_spec z 0); cbn; lia || reflexivity.
Qed.

Lemma callback_step (total : Z) (c : chunk) (s : state) :
  (press_cancel (chunk_cancel c) ;; put_cb total (chunk_tx c)) s =
  (if _cancel s || chunk_cancel c then inl cancelled else inr tt,
   {| session := session s; _cancel := _cancel s || chunk_cancel c;
      window := window s; stored := stored s; fetched := fetched s;
      trace := trace s ++ progress_step total (chunk_tx c) |}).
Proof.
  unfold bind, press_cancel. destruct c as [tx pressed]. cbn [chunk_cancel chunk_tx].
  destruct pressed; unfold cancel, modify, ret; rewrite put_cb_run;
    destruct s as [se c w sd fd tr]; cbn;
    [rewrite orb_true_r|rewrite orb_false_r]; reflexivity.
Qed.

Lemma callbacks_run (total : Z) (cs : list chunk) (s : state) :
  for_each cs (fun c => press_cancel (chunk_cancel c) ;; put_cb total (chunk_tx c)) s =
  (cb_result (_cancel s) cs,
   {| session := session s; _cancel := cb_flag (_cancel s) cs;
      window := window s; stored := stored s; fetched := fetched s;
      trace := trace s ++ cb_steps total (_cancel s) cs |}).
Proof.
  revert s. induction cs as [|c rest IH]; intros s.
  - destruct s. cbn. now rewrite app_nil_r.
  - cbn [for_each cb_result cb_flag cb_steps]. unfold bind at 1.
    rewrite callback_step.
    destruct (_cancel s || chunk_cancel c) eqn:E.
    + now rewrite app_nil_r.
    + rewrite IH. cbn [session _cancel window stored fetched trace].
      now rewrite app_assoc.
Qed.

(** A whole [sftp.put] or [sftp.get], from the flag before it. *)
Definition transfer_result (t : transfer) (flag : bool) : exn + unit :=
  match cb_result flag (callbacks t) with
  | inl e => inl e
  | inr _ => outcome (completion t)
  end.

Definition transfer_flag (t : transfer) (flag : bool) : bool :=
  match cb_result flag (callbacks t) with
  | inl _ => cb_flag flag (callbacks t)
  | inr _ => cancel_pressed (completion t) || cb_flag flag (callbacks t)
  end.

Lemma run_transfer_run (total : Z) (t : transfer) (s : state) :
  run_transfer t (put_cb total) s =
  (transfer_result t (_cancel s),
   {| session := session s; _cancel := transfer_flag t (_cancel s);
      window := window s; stored := stored s; fetched := fetched s;
      trace := trace s ++ cb_steps total (_cancel s) (callbacks t) |}).
Proof.
  unfold run_transfer, transfer_result, transfer_flag. unfold bind at 1.
  rewrite callbacks_run.
  destruct (cb_result (_cancel s) (callbacks t)) as [e|[]]; [reflexivity|].
  unfold come_back. destruct (cancel_pressed (completion t)); reflexivity.
Qed.

(** [_put_file] from a state whose flag is [flag] and whose channel handle
    is [sftp_]: its result, the flag afterwards, and what it emits. *)
Definition no_attribute (attr : string) : exn :=
  Exn AttributeError ("'NoneType' object has no attribute '" ++ attr ++ "'").

Definition put_file_result (sftp_ : option handle) (env : put_env) (flag : bool)
  : exn + unit :=
  match outcome (getsize_reply env), sftp_ with
  | inl e, _ => inl e
  | inr _, None => inl (no_attribute "put")
  | inr _, Some _ =>
      transfer_result (put_transfer env) (cancel_pressed (getsize_reply env) || flag)
  end.

Definition put_file_flag (sftp_ : option handle) (env : put_env) (flag : bool)
  : bool :=
  let flag0 := cancel_pressed (getsize_reply env) || flag in
  match outcome (getsize_reply env), sftp_ with
  | inr _, Some _ => transfer_flag (put_transfer env) flag0
  | _, _ => flag0
  end.

Definition put_file_effects (sftp_ : option handle) (env : put_env)
    (local_path remote_path : string) (flag : bool) : list effect :=
  let flag0 := cancel_pressed (getsize_reply env) || flag in
  Call (os_path_getsize local_path) ::
  match outcome (getsize_reply env) with
  | inl _ => []
  | inr total =>
      status ("Uploading: " ++ posixpath.basename local_path) ::
      progress 0 ::
      match sftp_ with
      | None => []
      | Some h =>
          (Call (SFTPClient_put h local_path remote_path) ::
           cb_steps total flag0 (callbacks (put_transfer env)) ++
           match transfer_result (put_transfer env) flag0 with
           | inr _ => [progress 100]
           | inl _ => []
           end)%list
      end
  end.

Definition put_file_stored (sftp_ : option handle) (env : put_env)
    (remote_path : string) (flag : bool) : list string :=
  match put_file_result sftp_ env flag with
  | inr _ => [remote_path]
  | inl _ => []
  end.

Lemma put_file_run (env : put_env) (local_path remote_path : string) (s : state) :
  let sftp_ := sftp (session s) in
  _put_file env local_path remote_path s =
  (put_file_result sftp_ env (_cancel s),
   {| session := session s; _cancel := put_file_flag sftp_ env (_cancel s);
      window := window s;
      stored := stored s ++ put_file_stored sftp_ env remote_path (_cancel s);
      fetched := fetched s;
      trace := trace s ++
               put_file_effects sftp_ env local_path remote_path (_cancel s) |}).
Proof.
  cbv zeta.
  unfold _put_file, put_file_result, put_file_flag, put_file_effects,
    put_file_stored, put_file_result.
  destruct env as [[pressed [e|total]] t].
  - destruct s as [se c w sd fd tr], pressed; cbn; now rewrite app_nil_r.
  - destruct s as [[ssh0 [h|] host0 user0] c w sd fd tr], pressed;
      cbv [bind get do_call come_back emit modify sftp_put ret raise
           with_effect with_cancel with_stored no_attribute
           session sftp _cancel window stored fetched trace
           getsize_reply put_transfer outcome cancel_pressed orb];
      rewrite ?run_transfer_run;
      cbn [session _cancel window stored fetched trace];
      try (destruct (transfer_result t _) as [e|[]]);
      rewrite <- ?app_assoc, ?app_nil_r; reflexivity.
Qed.

Lemma for_each_ext {A : Type} (xs : list A) (f g : A -> M unit) (s : state) :
  (forall x s', f x s' = g x s') -> for_each xs f s = for_each xs g s.
Proof.
  intros H. revert s. induction xs as [|x rest IH]; intros s; [reflexivity|].
  cbn [for_each]. unfold bind. rewrite H.
  destruct (g x s) as [[e|[]] s']; [reflexivity|apply IH].
Qed.

Lemma run_transfer_get (remote_size : option Z) (t : transfer) (s : state) :
  run_transfer t (get_cb remote_size) s =
  run_transfer t (put_cb (known_size remote_size)) s.
Proof.
  unfold run_transfer, bind.
  rewrite (for_each_ext (callbacks t) _
             (fun c => press_cancel (chunk_cancel c) ;;
                       put_cb (known_size remote_size) (chunk_tx c))).
  - reflexivity.
  - intros c s'. unfold bind. destruct (press_cancel (chunk_cancel c) s') as [[e|[]] s''];
      [reflexivity|apply get_cb_put_cb].
Qed.

(** [_get_file] in the same way.  The size is the one passed in, or the one
    [sftp.stat] reports, or zero when the lookup fails. *)
Definition found_size (sftp_ : option handle) (env : get_env)
    (remote_size : option Z) : option Z :=
  match remote_size, sftp_ with
  | Some size_, _ => Some size_
  | None, None => Some 0
  | None, Some _ =>
      match outcome (stat_reply env) with
      | inl _ => Some 0
      | inr size_ => size_
      end
  end.

Definition stat_effects (sftp_ : option handle) (env : get_env)
    (remote_path : string) (remote_size : option Z) : list effect :=
  match remote_size, sftp_ with
  | None, Some h => [Call (SFTPClient_stat h remote_path)]
  | _, _ => []
  end.

Definition flag_after_stat (sftp_ : option handle) (env : get_env)
    (remote_size : option Z) (flag : bool) : bool :=
  match remote_size, sftp_ with
  | None, Some _ => cancel_pressed (stat_reply env) || flag
  | _, _ => flag
  end.

Definition get_file_result (sftp_ : option handle) (env : get_env)
    (remote_size : option Z) (flag : bool) : exn + unit :=
  match sftp_ with
  | None => inl (no_attribute "get")
  | Some _ =>
      transfer_result (get_transfer env) (flag_after_stat sftp_ env remote_size flag)
  end.

Definition get_file_flag (sftp_ : option handle) (env : get_env)
    (remote_size : option Z) (flag : bool) : bool :=
  match sftp_ with
  | None => flag
  | Some _ =>
      transfer_flag (get_transfer env) (flag_after_stat sftp_ env remote_size flag)
  end.

Definition get_file_effects (sftp_ : option handle) (env : get_env)
    (remote_path local_path : string) (remote_size : option Z) (flag : bool)
  : list effect :=
  let flag0 := flag_after_stat sftp_ env remote_size flag in
  (stat_effects sftp_ env remote_path remote_size ++
   status ("Downloading: " ++ posixpath.basename remote_path) ::
   progress 0 ::
   match sftp_ with
   | None => []
   | Some h =>
       Call (SFTPClient_get h remote_path local_path) ::
       cb_steps (known_size (found_size sftp_ env remote_size)) flag0
                (callbacks (get_transfer env)) ++
       match transfer_result (get_transfer env) flag0 with
       | inr _ => [progress 100]
       | inl _ => []
       end
   end)%list.

Definition get_file_fetched (sftp_ : option handle) (env : get_env)
    (local_path : string) (remote_size : option Z) (flag : bool) : list string :=
  match get_file_result sftp_ env remote_size flag with
  | inr _ => [local_path]
  | inl _ => []
  end.

Lemma get_file_run (env : get_env) (remote_path local_path : string)
    (remote_size : option Z) (s : state) :
  let sftp_ := sftp (session s) in
  _get_file env remote_path local_path remote_size s =
  (get_file_result sftp_ env remote_size (_cancel s),
   {| session := session s;
      _cancel := get_file_flag sftp_ env remote_size (_cancel s);
      window := window s; stored := stored s;
      fetched := fetched s ++
                 get_file_fetched sftp_ env local_path remote_size (_cancel s);
      trace := trace s ++
               get_file_effects sftp_ env remote_path local_path remote_size
                 (_cancel s) |}).
Proof.
  cbv zeta.
  unfold _get_file, get_file_result, get_file_flag, get_file_effects,
    get_file_fetched, get_file_result, found_size, stat_effects, flag_after_stat.
  destruct env as [[pressed [e|size_]] t].
  all: destruct s as [[ssh0 [h|] host0 user0] c w sd fd tr], pressed,
         remote_size as [z|];
    cbv [bind get do_call come_back emit modify sftp_get ret raise try_except
         with_effect with_cancel with_fetched no_attribute
         session sftp _cancel window stored fetched trace
         stat_reply get_transfer outcome cancel_pressed orb];
    rewrite ?run_transfer_get, ?run_transfer_run;
    cbn [session _cancel window stored fetched trace app];
    try (destruct (transfer_result t _) as [e'|[]]);
    rewrite <- ?app_assoc, ?app_nil_r; reflexivity.
Qed.

End TransferFacts.

(** ** Progress of one file transfer *)

(** The percentages among the effects. *)
Definition progress_values (tr : list effect) : list Z :=
  flat_map (fun e => match e with progress pct => [pct] | _ => [] end) tr.

Section ProgressFacts.

Lemma progress_values_app (a b : list effect) :
  progress_values (a ++ b) = (progress_values a ++ progress_values b)%list.
Proof. apply flat_map_app. Qed.

Lemma clamp_range (pct : Z) : 0 <= clamp pct <= 100.
Proof. unfold clamp. lia. Qed.

Lemma clamp_mono (a b : Z) : a <= b -> clamp a <= clamp b.
Proof. unfold clamp. lia. Qed.

(** Every percentage the callbacks emit comes from one of the byte counts. *)
Lemma cb_steps_origin (total : Z) (flag : bool) (cs : list chunk) (q : Z) :
  In q (progress_values (cb_steps total flag cs)) ->
  0 < total /\
  exists c pct, In c cs /\ percentage (chunk_tx c) total = inr pct /\ q = clamp pct.
Proof.
  revert flag. induction cs as [|c rest IH]; intros flag; [intros []|].
  cbn [cb_steps]. rewrite progress_values_app. intros H.
  apply in_app_or in H. destruct H as [H|H].
  - unfold progress_step in H. destruct (Z.gtb_spec total 0) as [Ht|]; [|easy].
    destruct (percentage (chunk_tx c) total) as [e|pct] eqn:E; [easy|].
    destruct H as [<-|[]]. split; [lia|]. exists c, pct. cbn. auto.
  - destruct (flag || chunk_cancel c); [easy|].
    destruct (IH _ H) as (Ht & c' & pct & Hin & Hp & Hq).
    split; [exact Ht|]. exists c', pct. cbn. auto.
Qed.

Lemma cb_steps_range (total : Z) (flag : bool) (cs : list chunk) :
  Forall (fun pct => 0 <= pct <= 100) (progress_values (cb_steps total flag cs)).
Proof.
  apply Forall_forall. intros q Hq.
  destruct (cb_steps_origin _ _ _ _ Hq) as (_ & c & pct & _ & _ & ->).
  apply clamp_range.
Qed.

(** Byte counts that do not decrease give percentages that do not decrease. *)
Lemma cb_steps_sorted (total : Z) (flag : bool) (cs : list chunk) :
  Sorted Z.le (map chunk_tx cs) ->
  StronglySorted Z.le (progress_values (cb_steps total flag cs)).
Proof.
  intros Hs. apply Sorted_StronglySorted in Hs; [|exact Z.le_trans].
  revert flag. induction cs as [|c rest IH]; intros flag; [constructor|].
  cbn [map] in Hs. apply StronglySorted_inv in Hs. destruct Hs as [Hrest Hhd].
  cbn [cb_steps]. rewrite progress_values_app.
  assert (Htail : StronglySorted Z.le
            (progress_values (if flag || chunk_cancel c then []
                              else cb_steps total false rest)))
    by (destruct (flag || chunk_cancel c); [constructor|now apply IH]).
  unfold progress_step. destruct (Z.gtb_spec total 0) as [Ht|]; [|exact Htail].
  destruct (percentage (chunk_tx c) total) as [e|pct] eqn:E; [exact Htail|].
  cbn [progress_values flat_map app]. constructor; [exact Htail|].
  apply Forall_forall. intros q Hq.
  destruct (flag || chunk_cancel c); [easy|].
  destruct (cb_steps_origin _ _ _ _ Hq) as (_ & c' & pct' & Hin & Hp & ->).
  apply clamp_mono. apply (percentage_mono (chunk_tx c) (chunk_tx c') total);
    [lia| |exact E|exact Hp].
  rewrite Forall_forall in Hhd. apply Hhd. now apply in_map.
Qed.

(** A percentage sequence [0, steps..., 100] or [0, steps...]. *)
Lemma progress_sequence_sorted (steps tail_ : list Z) :
  StronglySorted Z.le steps -> Forall (fun pct => 0 <= pct <= 100) steps ->
  tail_ = [] \/ tail_ = [100] ->
  StronglySorted Z.le (0 :: steps ++ tail_) /\
  Forall (fun pct => 0 <= pct <= 100) (0 :: steps ++ tail_).
Proof.
  intros Hs Hr Ht.
  assert (Hrt : Forall (fun pct => 0 <= pct <= 100) tail_)
    by (destruct Ht as [-> | ->]; repeat constructor; lia).
  assert (Hall : Forall (fun pct => 0 <= pct <= 100) (steps ++ tail_))
    by (apply Forall_app; split; assumption).
  split.
  - constructor.
    + induction Hs as [|x l Hl IH Hx]; cbn [app].
      * destruct Ht as [-> | ->]; repeat constructor.
      * apply Forall_cons_iff in Hr. destruct Hr as [Hx0 Hr].
        constructor; [apply IH; [exact Hr|]|].
        { apply Forall_app; split; assumption. }
        apply Forall_app. split; [exact Hx|].
        destruct Ht as [-> | ->]; repeat constructor. lia.
    + eapply Forall_impl; [|exact Hall]. cbn. intros; lia.
  - constructor; [lia|exact Hall].
Qed.

End ProgressFacts.

Section ProgressOfTransfers.

Definition in_percent_range (pct : Z) : Prop := 0 <= pct <= 100.

(** The percentages of [_put_file], read off its effects. *)
Lemma put_file_progress (sftp_ : option handle) (env : put_env)
    (lp rp : string) (flag : bool) :
  progress_values (put_file_effects sftp_ env lp rp flag) =
  match outcome (getsize_reply env), sftp_ with
  | inl _, _ => []
  | inr _, None => [0]
  | inr total, Some _ =>
      (0 :: progress_values
              (cb_steps total (cancel_pressed (getsize_reply env) || flag)
                 (callbacks (put_transfer env))) ++
            match put_file_result sftp_ env flag with
            | inr _ => [100]
            | inl _ => []
            end)%list
  end.
Proof.
  unfold put_file_effects, put_file_result.
  destruct (outcome (getsize_reply env)) as [e|total]; [reflexivity|].
  destruct sftp_ as [h|]; [|reflexivity].
  cbn [progress_values flat_map app]. fold (progress_values).
  f_equal. rewrite progress_values_app.
  now destruct (transfer_result _ _) as [e|[]].
Qed.

Lemma get_file_progress (sftp_ : option handle) (env : get_env)
    (rp lp : string) (remote_size : option Z) (flag : bool) :
  progress_values (get_file_effects sftp_ env rp lp remote_size flag) =
  match sftp_ with
  | None => [0]
  | Some _ =>
      (0 :: progress_values
              (cb_steps (known_size (found_size sftp_ env remote_size))
                 (flag_after_stat sftp_ env remote_size flag)
                 (callbacks (get_transfer env))) ++
            match get_file_result sftp_ env remote_size flag with
            | inr _ => [100]
            | inl _ => []
            end)%list
  end.
Proof.
  unfold get_file_effects, get_file_result. rewrite progress_values_app.
  assert (E : progress_values (stat_effects sftp_ env rp remote_size) = []).
  { unfold stat_effects. now destruct remote_size, sftp_. }
  rewrite E. cbn [app]. destruct sftp_ as [h|]; [|reflexivity].
  cbn [progress_values flat_map app]. fold (progress_values).
  f_equal. rewrite progress_values_app.
  now destruct (transfer_result _ _) as [e|[]].
Qed.

End ProgressOfTransfers.

(** A file of 100000 bytes sent in blocks of 32768 bytes. *)
Definition four_blocks : transfer :=
  {| callbacks := [ {| chunk_tx := 32768; chunk_cancel := false |};
                    {| chunk_tx := 65536; chunk_cancel := false |};
                    {| chunk_tx := 98304; chunk_cancel := false |};
                    {| chunk_tx := 100000; chunk_cancel := false |} ];
     completion := returns tt |}.

Definition put_100000 : put_env :=
  {| getsize_reply := returns 100000; put_transfer := four_blocks |}.

Example put_100000_trace :
  trace (snd (_put_file put_100000 "/home/u/b.bin" "/srv/b.bin" connected_state)) =
  [Call (os_path_getsize "/home/u/b.bin"); status "Uploading: b.bin"; progress 0;
   Call (SFTPClient_put 2 "/home/u/b.bin" "/srv/b.bin");
   progress 32; progress 65; progress 98; progress 100; progress 100].
Proof. vm_compute. reflexivity. Qed.

(** C3: during one file transfer, upload or download, the percentages
    emitted never decrease and stay within 0..100; the first one is 0 (an
    upload whose size lookup fails emits none); and a transfer that succeeds
    ends on 100.  The byte counts reported by the transport are taken not to
    decrease. *)
Theorem file_transfer_progress :
  (forall (env : put_env) (lp rp : string) (s : state),
     Sorted Z.le (map chunk_tx (callbacks (put_transfer env))) ->
     let r := _put_file env lp rp s in
     exists new : list effect,
       trace (snd r) = (trace s ++ new)%list /\
       StronglySorted Z.le (progress_values new) /\
       Forall in_percent_range (progress_values new) /\
       ((exists rest, progress_values new = 0 :: rest) \/
        (progress_values new = [] /\
         exists e, outcome (getsize_reply env) = inl e)) /\
       (fst r = inr tt -> exists init, progress_values new = (init ++ [100])%list)) /\
  (forall (env : get_env) (rp lp : string) (remote_size : option Z) (s : state),
     Sorted Z.le (map chunk_tx (callbacks (get_transfer env))) ->
     let r := _get_file env rp lp remote_size s in
     exists new : list effect,
       trace (snd r) = (trace s ++ new)%list /\
       StronglySorted Z.le (progress_values new) /\
       Forall in_percent_range (progress_values new) /\
       (exists rest, progress_values new = 0 :: rest) /\
       (fst r = inr tt -> exists init, progress_values new = (init ++ [100])%list)).
Proof.
  split.
  - intros env lp rp s Hs. cbv zeta. rewrite put_file_run. cbn [fst snd trace].
    eexists. split; [reflexivity|]. rewrite put_file_progress.
    destruct (outcome (getsize_reply env)) as [e|total] eqn:Eo.
    { unfold put_file_result. rewrite Eo.
      split; [constructor|]. split; [constructor|].
      split; [right; eauto|discriminate]. }
    destruct (sftp (session s)) as [h|].
    + set (steps := progress_values (cb_steps total _ _)).
      set (res := put_file_result _ _ _).
      destruct (progress_sequence_sorted steps
                  (match res with inr _ => [100] | inl _ => [] end))
        as [Hsorted Hrange];
        [apply cb_steps_sorted, Hs | apply cb_steps_range
        | destruct res; auto |].
      repeat split; [exact Hsorted|exact Hrange|left; eauto|].
      intros Hres. rewrite Hres. exists (0 :: steps). reflexivity.
    + unfold put_file_result. rewrite Eo.
      split; [repeat constructor|].
      split; [repeat constructor; unfold in_percent_range; lia|].
      split; [left; eauto|discriminate].
  - intros env rp lp remote_size s Hs. cbv zeta. rewrite get_file_run.
    cbn [fst snd trace]. eexists. split; [reflexivity|].
    rewrite get_file_progress.
    destruct (sftp (session s)) as [h|].
    + set (steps := progress_values (cb_steps _ _ _)).
      set (res := get_file_result _ _ _ _).
      destruct (progress_sequence_sorted steps
                  (match res with inr _ => [100] | inl _ => [] end))
        as [Hsorted Hrange];
        [apply cb_steps_sorted, Hs | apply cb_steps_range
        | destruct res; auto |].
      repeat split; [exact Hsorted|exact Hrange|eauto|].
      intros Hres. rewrite Hres. exists (0 :: steps). reflexivity.
    + split; [repeat constructor|].
      split; [repeat constructor; unfold in_percent_range; lia|].
      split; [eauto|discriminate].
Qed.

Lemma file_transfer_progress_witness :
  exists new : list effect,
    trace (snd (_put_file put_100000 "/home/u/b.bin" "/srv/b.bin" connected_state)) =
      (trace connected_state ++ new)%list /\
    StronglySorted Z.le (progress_values new) /\
    Forall in_percent_range (progress_values new) /\
    ((exists rest, progress_values new = 0 :: rest) \/
     (progress_values new = [] /\
      exists e, outcome (getsize_reply put_100000) = inl e)) /\
    (fst (_put_file put_100000 "/home/u/b.bin" "/srv/b.bin" connected_state) = inr tt ->
     exists init, progress_values new = (init ++ [100])%list).
Proof.
  apply (proj1 file_transfer_progress put_100000 "/home/u/b.bin" "/srv/b.bin"
           connected_state).
  cbn. repeat constructor; lia.
Defined.

(** ** Uploading an empty file *)

Section EmptyFile.

Lemma cb_steps_no_size (total : Z) (flag : bool) (cs : list chunk) :
  total <= 0 -> cb_steps total flag cs = [].
Proof.
  intros Ht. revert flag. induction cs as [|c rest IH]; intros flag; [reflexivity|].
  cbn [cb_steps]. unfold progress_step.
  destruct (Z.gtb_spec total 0); [lia|].
  destruct (flag || chunk_cancel c); [reflexivity|apply IH].
Qed.

(** The callbacks raise nothing but [RuntimeError("Cancelled")]. *)
Lemma cb_result_cases (flag : bool) (cs : list chunk) :
  cb_result flag cs = inr tt \/ cb_result flag cs = inl cancelled.
Proof.
  revert flag. induction cs as [|c rest IH]; intros flag; [now left|].
  cbn [cb_result]. destruct (flag || chunk_cancel c); [now right|apply IH].
Qed.

Lemma transfer_result_cases (t : transfer) (flag : bool) (e : exn) :
  transfer_result t flag = inl e ->
  e = cancelled \/ outcome (completion t) = inl e.
Proof.
  unfold transfer_result.
  destruct (cb_result_cases flag (callbacks t)) as [-> | ->].
  - now right.
  - intros H. injection H as <-. now left.
Qed.

End EmptyFile.

(** An empty file: paramiko moves no block and calls the callback never. *)
Definition put_empty : put_env :=
  {| getsize_reply := returns 0;
     put_transfer := {| callbacks := []; completion := returns tt |} |}.

(** C9: for a local file of size 0 the callback computes no percentage (the
    [total > 0] guard skips the division, which would raise
    [ZeroDivisionError]), so the only exceptions of the upload are
    [Cancelled] and what the transport raises; progress 0 is emitted at the
    start and progress 100 on success, and nothing in between. *)
Theorem zero_byte_upload (env : put_env) (lp rp : string) (s : state) (h : handle) :
  outcome (getsize_reply env) = inr 0 ->
  sftp (session s) = Some h ->
  (forall (tx : Z) (s' : state), put_cb 0 tx s' = check_cancel s') /\
  (forall tx : Z, percentage tx 0 = inl (Exn ZeroDivisionError "division by zero")) /\
  let r := _put_file env lp rp s in
  exists new : list effect,
    trace (snd r) = (trace s ++ new)%list /\
    progress_values new =
      0 :: match fst r with inr _ => [100] | inl _ => [] end /\
    (forall e : exn, fst r = inl e ->
       e = cancelled \/ outcome (completion (put_transfer env)) = inl e).
Proof.
  intros Hsize Hsftp. split; [reflexivity|]. split; [reflexivity|].
  cbv zeta. rewrite put_file_run. cbn [fst snd trace].
  eexists. split; [reflexivity|].
  rewrite put_file_progress, Hsize, Hsftp.
  rewrite cb_steps_no_size by lia. cbn [progress_values flat_map app].
  split; [reflexivity|].
  intros e. unfold put_file_result. rewrite Hsize.
  apply transfer_result_cases.
Qed.

Lemma zero_byte_upload_witness :
  exists new : list effect,
    trace (snd (_put_file put_empty "/home/u/empty" "/srv/empty" connected_state)) =
      (trace connected_state ++ new)%list /\
    progress_values new = [0; 100].
Proof.
  destruct (zero_byte_upload put_empty "/home/u/empty" "/srv/empty"
              connected_state 2 eq_refl eq_refl) as (_ & _ & new & Ht & Hp & _).
  exists new. split; [exact Ht|exact Hp].
Defined.

(** ** The terminal event of a job *)

Definition is_finished (e : effect) : bool :=
  match e with
  | finished _ _ => true
  | _ => false
  end.

Definition no_finished (tr : list effect) : Prop :=
  Forall (fun e => is_finished e = false) tr.

(** A computation that only adds to the trace, and never a [finished]. *)
Definition quiet {A : Type} (m : M A) : Prop :=
  forall s, exists tr, trace (snd (m s)) = (trace s ++ tr)%list /\ no_finished tr.

(** A computation that either returns after emitting exactly one
    [finished], as its last effect, or raises without having emitted any. *)
Definition one_shot (m : M unit) : Prop :=
  forall s,
    (exists tr ok msg,
        fst (m s) = inr tt /\
        trace (snd (m s)) = (trace s ++ tr ++ [finished ok msg])%list /\
        no_finished tr) \/
    (exists e tr,
        fst (m s) = inl e /\
        trace (snd (m s)) = (trace s ++ tr)%list /\ no_finished tr).

(** What a job has to be. *)
Definition terminal (m : M unit) : Prop :=
  forall s, exists tr ok msg,
    fst (m s) = inr tt /\
    trace (snd (m s)) = (trace s ++ tr ++ [finished ok msg])%list /\
    no_finished tr.

Section TerminalFacts.

Lemma quiet_same_trace {A : Type} (m : M A) :
  (forall s, trace (snd (m s)) = trace s) -> quiet m.
Proof.
  intros H s. exists []. rewrite H, app_nil_r. split; [reflexivity|constructor].
Qed.

Lemma quiet_ret {A : Type} (a : A) : quiet (ret a).
Proof. now apply quiet_same_trace. Qed.

Lemma quiet_raise {A : Type} (e : exn) : quiet (@raise A e).
Proof. now apply quiet_same_trace. Qed.

Lemma quiet_get : quiet get.
Proof. now apply quiet_same_trace. Qed.

Lemma quiet_lift {A : Type} (r : exn + A) : quiet (lift r).
Proof. now apply quiet_same_trace. Qed.

Lemma quiet_press_cancel (b : bool) : quiet (press_cancel b).
Proof. apply quiet_same_trace. intros s. now destruct b. Qed.

Lemma quiet_come_back {A : Type} (r : reply A) : quiet (come_back r).
Proof.
  apply quiet_same_trace. intros s. unfold come_back.
  now destruct (cancel_pressed r).
Qed.

Lemma quiet_with_stored (p : string) : quiet (modify (with_stored p)).
Proof. now apply quiet_same_trace. Qed.

Lemma quiet_with_fetched (p : string) : quiet (modify (with_fetched p)).
Proof. now apply quiet_same_trace. Qed.

Lemma quiet_emit (e : effect) : is_finished e = false -> quiet (emit e).
Proof.
  intros H s. exists [e]. split; [reflexivity|]. now repeat constructor.
Qed.

Lemma quiet_bind {A B : Type} (m : M A) (k : A -> M B) :
  quiet m -> (forall a, quiet (k a)) -> quiet (bind m k).
Proof.
  intros Hm Hk s. unfold bind. destruct (Hm s) as (tr1 & E1 & Q1).
  destruct (m s) as [[e|a] s1]; cbn [snd] in *.
  - exists tr1. auto.
  - destruct (Hk a s1) as (tr2 & E2 & Q2). exists (tr1 ++ tr2)%list.
    rewrite E2, E1, app_assoc. split; [reflexivity|].
    apply Forall_app. auto.
Qed.

Lemma quiet_try_except {A : Type} (m : M A) (h : exn -> M A) :
  quiet m -> (forall e, quiet (h e)) -> quiet (try_except m h).
Proof.
  intros Hm Hh s. unfold try_except. destruct (Hm s) as (tr1 & E1 & Q1).
  destruct (m s) as [[e|a] s1]; cbn [snd] in *.
  - destruct (Hh e s1) as (tr2 & E2 & Q2). exists (tr1 ++ tr2)%list.
    rewrite E2, E1, app_assoc. split; [reflexivity|].
    apply Forall_app. auto.
  - exists tr1. auto.
Qed.

Lemma quiet_do_call {A : Type} (c : call) (r : reply A) : quiet (do_call c r).
Proof.
  intros s. exists [Call c]. unfold do_call, come_back.
  split; [now destruct (cancel_pressed r)|]. now repeat constructor.
Qed.

Lemma quiet_for_each {A : Type} (xs : list A) (body : A -> M unit) :
  (forall x, quiet (body x)) -> quiet (for_each xs body).
Proof.
  intros H. induction xs as [|x rest IH]; cbn [for_each].
  - apply quiet_ret.
  - apply quiet_bind; auto.
Qed.

Lemma quiet_for_each_from {A : Type} (i0 : nat) (xs : list A)
    (body : nat -> A -> M unit) :
  (forall i x, quiet (body i x)) -> quiet (for_each_from i0 xs body).
Proof.
  intros H. revert i0. induction xs as [|x rest IH]; intros i0; cbn [for_each_from].
  - apply quiet_ret.
  - apply quiet_bind; auto.
Qed.

(** Breaks a [quiet] goal down along the structure of the program. *)
Ltac quiet_step :=
  first
    [ apply quiet_ret | apply quiet_raise | apply quiet_get | apply quiet_lift
    | apply quiet_press_cancel | apply quiet_come_back | apply quiet_do_call
    | apply quiet_with_stored | apply quiet_with_fetched
    | apply quiet_emit; reflexivity
    | apply quiet_bind; [|intros ?]
    | apply quiet_try_except; [|intros ?]
    | apply quiet_for_each; intros ?
    | apply quiet_for_each_from; intros ? ?
    | match goal with
      | |- quiet (if ?b then _ else _) => destruct b
      | |- quiet (match ?x with _ => _ end) => destruct x
      end ].

Lemma quiet_check_cancel : quiet check_cancel.
Proof. unfold check_cancel. repeat quiet_step. Qed.

Lemma quiet_exec (r : reply (Z * string * string)) (cmd : string) (timeout : Z) :
  quiet (exec r cmd timeout).
Proof. unfold exec. repeat quiet_step. Qed.

Lemma quiet_put_cb (total tx : Z) : quiet (put_cb total tx).
Proof. unfold put_cb. repeat quiet_step. Qed.

Lemma quiet_get_cb (remote_size : option Z) (tx : Z) : quiet (get_cb remote_size tx).
Proof. unfold get_cb. repeat quiet_step. Qed.

Lemma quiet_run_transfer (t : transfer) (cb : Z -> M unit) :
  (forall tx, quiet (cb tx)) -> quiet (run_transfer t cb).
Proof. intros H. unfold run_transfer. repeat quiet_step. apply H. Qed.

Lemma quiet_put_file (env : put_env) (lp rp : string) : quiet (_put_file env lp rp).
Proof.
  unfold _put_file, sftp_put. repeat quiet_step.
Qed.

Lemma quiet_get_file (env : get_env) (rp lp : string) (remote_size : option Z) :
  quiet (_get_file env rp lp remote_size).
Proof.
  unfold _get_file, sftp_get. repeat quiet_step.
Qed.

(** One-shot computations. *)
Lemma one_shot_emit (ok : bool) (msg : string) : one_shot (emit (finished ok msg)).
Proof.
  intros s. left. exists [], ok, msg. repeat split. constructor.
Qed.

Lemma one_shot_bind {A : Type} (m : M A) (k : A -> M unit) :
  quiet m -> (forall a, one_shot (k a)) -> one_shot (bind m k).
Proof.
  intros Hm Hk s. unfold bind. destruct (Hm s) as (tr1 & E1 & Q1).
  destruct (m s) as [[e|a] s1]; cbn [fst snd] in *.
  - right. exists e, tr1. auto.
  - destruct (Hk a s1) as [(tr2 & ok & msg & R & E2 & Q2)|(e & tr2 & R & E2 & Q2)].
    + left. exists (tr1 ++ tr2)%list, ok, msg. rewrite R, E2, E1.
      rewrite <- !app_assoc. repeat split. apply Forall_app. auto.
    + right. exists e, (tr1 ++ tr2)%list. rewrite R, E2, E1, app_assoc.
      repeat split. apply Forall_app. auto.
Qed.

(** [try: body  except Exception as e: self.finished.emit(False, ...)]. *)
Lemma terminal_try_except (body : M unit) (message : exn -> string) :
  one_shot body ->
  terminal (try_except body (fun e => emit (finished false (message e)))).
Proof.
  intros Hb s. unfold try_except.
  destruct (Hb s) as [(tr & ok & msg & R & E & Q)|(e & tr & R & E & Q)];
    destruct (body s) as [[e'|[]] s1]; cbn [fst snd] in *; try discriminate.
  - exists tr, ok, msg. auto.
  - exists tr, false, (message e'). cbn. rewrite E, <- app_assoc. auto.
Qed.

Ltac one_shot_step :=
  first
    [ apply one_shot_emit
    | apply one_shot_bind; [|intros ?]
    | match goal with
      | |- one_shot (if ?b then _ else _) => destruct b
      | |- one_shot (match ?x with _ => _ end) => destruct x
      end ].

Lemma upload_files_terminal (env : upload_files_env) (csv dir : string) :
  terminal (upload_files env csv dir).
Proof.
  unfold upload_files. apply terminal_try_except. cbv zeta.
  destruct (split_paths csv) as [|lp0 rest]; [apply one_shot_emit|].
  repeat one_shot_step;
    repeat first [apply quiet_exec | apply quiet_check_cancel
                 | apply quiet_put_file | quiet_step].
Qed.

Lemma upload_folder_terminal (env : upload_folder_env) (folder dir : string)
    (extract_remote : bool) :
  terminal (upload_folder env folder dir extract_remote).
Proof.
  unfold upload_folder. apply terminal_try_except. cbv zeta.
  repeat one_shot_step;
    repeat first [apply quiet_exec | apply quiet_check_cancel
                 | apply quiet_put_file | quiet_step].
Qed.

Lemma download_files_terminal (env : download_files_env) (csv dir : string) :
  terminal (download_files env csv dir).
Proof.
  unfold download_files. apply terminal_try_except. cbv zeta.
  apply one_shot_bind; [apply quiet_do_call|intros _].
  destruct (split_paths csv) as [|rp0 rest]; [apply one_shot_emit|].
  repeat one_shot_step;
    repeat first [apply quiet_exec | apply quiet_check_cancel
                 | apply quiet_get_file | quiet_step].
Qed.

Lemma download_folder_terminal (env : download_folder_env) (folder dir : string)
    (extract_local : bool) :
  terminal (download_folder env folder dir extract_local).
Proof.
  unfold download_folder. apply terminal_try_except. cbv zeta.
  repeat one_shot_step;
    repeat first [apply quiet_exec | apply quiet_check_cancel
                 | apply quiet_get_file | quiet_step].
Qed.

End TerminalFacts.

(** C4: whatever the job and whatever the outside world does, the worker
    method returns after emitting exactly one [finished(ok, message)], and
    that event is the last thing the job emits: no progress follows it. *)
Theorem one_terminal_event (j : TransferJob) (s : state) :
  exists (before : list effect) (ok : bool) (message : string),
    fst (run_job j s) = inr tt /\
    trace (snd (run_job j s)) = (trace s ++ before ++ [finished ok message])%list /\
    no_finished before.
Proof.
  destruct j; cbn [run_job].
  - apply upload_files_terminal.
  - apply upload_folder_terminal.
  - apply download_files_terminal.
  - apply download_folder_terminal.
Qed.

(** ** Cancelling an upload of several files *)

(** The [sftp.put] calls and the remote commands among the effects. *)
Definition put_calls (tr : list effect) : list (string * string) :=
  flat_map (fun e => match e with
                     | Call (SFTPClient_put _ lp rp) => [(lp, rp)]
                     | _ => []
                     end) tr.

Definition exec_calls (tr : list effect) : list string :=
  flat_map (fun e => match e with
                     | Call (SSHClient_exec_command _ cmd _) => [cmd]
                     | _ => []
                     end) tr.

(** An upload that nobody cancels and that succeeds. *)
Definition clean_put (e : put_env) : Prop :=
  cancel_pressed (getsize_reply e) = false /\
  (exists total, outcome (getsize_reply e) = inr total) /\
  Forall (fun c => chunk_cancel c = false) (callbacks (put_transfer e)) /\
  completion (put_transfer e) = returns tt.

(** An upload during which Cancel is pressed while a block moves, so that
    the callback for that block finds the flag set. *)
Definition cancelled_put (e : put_env) : Prop :=
  (exists total, outcome (getsize_reply e) = inr total) /\
  Exists (fun c => chunk_cancel c = true) (callbacks (put_transfer e)).

(** An upload during which Cancel is pressed only after the last block has
    been reported, while [sftp.put] winds up, and which then succeeds. *)
Definition late_cancel_put (e : put_env) : Prop :=
  cancel_pressed (getsize_reply e) = false /\
  (exists total, outcome (getsize_reply e) = inr total) /\
  Forall (fun c => chunk_cancel c = false) (callbacks (put_transfer e)) /\
  completion (put_transfer e) = Reply true (inr tt).

(** The body of the loop of [upload_files]. *)
Definition upload_one (env : upload_files_env) (remote_dir : string) (n i : nat)
    (lp : string) : M unit :=
  check_cancel ;;
  let rp := join_remote remote_dir (posixpath.basename lp) in
  emit (status ("[" ++ str_of_nat i ++ "/" ++ str_of_nat n
                ++ "] Uploading file -> " ++ rp)) ;;
  _put_file (uf_file env i) lp rp.

Definition destination (remote_dir lp : string) : string :=
  join_remote remote_dir (posixpath.basename lp).

Section CancelFacts.

Lemma cb_steps_progress (total : Z) (flag : bool) (cs : list chunk) :
  Forall (fun e => exists pct, e = progress pct) (cb_steps total flag cs).
Proof.
  revert flag. induction cs as [|c rest IH]; intros flag; [constructor|].
  cbn [cb_steps]. apply Forall_app. split.
  - unfold progress_step. destruct (total >? 0); [|constructor].
    destruct (percentage (chunk_tx c) total); repeat constructor. eauto.
  - destruct (flag || chunk_cancel c); [constructor|apply IH].
Qed.

Lemma only_progress (tr : list effect) :
  Forall (fun e => exists pct, e = progress pct) tr ->
  put_calls tr = [] /\ exec_calls tr = [] /\ no_finished tr.
Proof.
  induction 1 as [|e tr [pct ->] _ (IH1 & IH2 & IH3)].
  - repeat split. constructor.
  - cbn. repeat split; auto. now constructor.
Qed.

Lemma cb_clean (cs : list chunk) :
  Forall (fun c => chunk_cancel c = false) cs ->
  cb_result false cs = inr tt /\ cb_flag false cs = false.
Proof.
  induction 1 as [|c rest Hc _ IH]; [now split|].
  cbn [cb_result cb_flag]. now rewrite Hc.
Qed.

Lemma cb_cancelled (flag : bool) (cs : list chunk) :
  Exists (fun c => chunk_cancel c = true) cs ->
  cb_result flag cs = inl cancelled.
Proof.
  intros H. revert flag. induction H as [c rest Hc|c rest _ IH]; intros flag;
    cbn [cb_result].
  - now rewrite Hc, orb_true_r.
  - destruct (flag || chunk_cancel c); [reflexivity|apply IH].
Qed.

(** What the effects of one [_put_file] contain. *)
Lemma put_file_effects_summary (h : handle) (env : put_env) (lp rp : string)
    (flag : bool) (total : Z) :
  outcome (getsize_reply env) = inr total ->
  let tr := put_file_effects (Some h) env lp rp flag in
  put_calls tr = [(lp, rp)] /\ exec_calls tr = [] /\ no_finished tr.
Proof.
  intros Ho. cbv zeta. unfold put_file_effects. rewrite Ho.
  destruct (only_progress _ (cb_steps_progress total
              (cancel_pressed (getsize_reply env) || flag)
              (callbacks (put_transfer env)))) as (P1 & P2 & P3).
  set (steps := cb_steps _ _ _) in *.
  set (last_ := match transfer_result _ _ with inr _ => [progress 100] | inl _ => [] end).
  assert (L : put_calls last_ = [] /\ exec_calls last_ = [] /\ no_finished last_).
  { subst last_. destruct (transfer_result _ _); repeat split; repeat constructor. }
  destruct L as (L1 & L2 & L3).
  unfold put_calls, exec_calls, no_finished in *.
  cbn [flat_map app]. rewrite !flat_map_app, P1, P2, L1, L2.
  repeat split. repeat (constructor; [reflexivity|]).
  apply Forall_app. auto.
Qed.

Section Loop.
Context (env : upload_files_env) (remote_dir : string) (n : nat).

(** One clean turn of the loop. *)
Lemma upload_one_clean (i : nat) (lp : string) (s : state) (h : handle) :
  _cancel s = false -> sftp (session s) = Some h -> clean_put (uf_file env i) ->
  exists s' tr,
    upload_one env remote_dir n i lp s = (inr tt, s') /\
    _cancel s' = false /\ session s' = session s /\
    stored s' = (stored s ++ [destination remote_dir lp])%list /\
    trace s' = (trace s ++ tr)%list /\
    put_calls tr = [(lp, destination remote_dir lp)] /\
    exec_calls tr = [] /\ no_finished tr.
Proof.
  intros Hc Hh (Hp & [total Ho] & Hcs & Hdone).
  unfold upload_one, check_cancel. unfold bind at 1. unfold bind at 1, get.
  rewrite Hc. unfold ret. cbv zeta. unfold bind at 1, emit, modify.
  rewrite put_file_run. fold (destination remote_dir lp).
  cbn [session _cancel with_effect trace stored fetched window]. rewrite Hh, Hc.
  destruct (cb_clean _ Hcs) as [Hr Hf].
  assert (Hres : put_file_result (Some h) (uf_file env i) false = inr tt).
  { unfold put_file_result, transfer_result. rewrite Ho, Hp. cbn [orb].
    now rewrite Hr, Hdone. }
  assert (Hflag : put_file_flag (Some h) (uf_file env i) false = false).
  { unfold put_file_flag, transfer_flag. rewrite Ho, Hp. cbn [orb].
    now rewrite Hr, Hf, Hdone. }
  unfold put_file_stored. rewrite Hres, Hflag.
  eexists _, _. split; [reflexivity|]. cbn [session _cancel stored trace].
  repeat split; [rewrite <- app_assoc; reflexivity| | |].
  all: destruct (put_file_effects_summary h (uf_file env i) lp
                   (destination remote_dir lp) false total Ho) as (S1 & S2 & S3).
  - cbn. exact S1.
  - cbn. exact S2.
  - constructor; [reflexivity|exact S3].
Qed.

(** The turn of the loop in which Cancel is pressed. *)
Lemma upload_one_cancelled (i : nat) (lp : string) (s : state) (h : handle) :
  _cancel s = false -> sftp (session s) = Some h -> cancelled_put (uf_file env i) ->
  exists s' tr,
    upload_one env remote_dir n i lp s = (inl cancelled, s') /\
    stored s' = stored s /\
    trace s' = (trace s ++ tr)%list /\
    put_calls tr = [(lp, destination remote_dir lp)] /\
    exec_calls tr = [] /\ no_finished tr.
Proof.
  intros Hc Hh ([total Ho] & Hcs).
  unfold upload_one, check_cancel. unfold bind at 1. unfold bind at 1, get.
  rewrite Hc. unfold ret. cbv zeta. unfold bind at 1, emit, modify.
  rewrite put_file_run. fold (destination remote_dir lp).
  cbn [session _cancel with_effect trace stored fetched window]. rewrite Hh, Hc.
  assert (Hres : put_file_result (Some h) (uf_file env i) false = inl cancelled).
  { unfold put_file_result, transfer_result. rewrite Ho.
    now rewrite (cb_cancelled _ _ Hcs). }
  unfold put_file_stored. rewrite Hres.
  eexists _, _. split; [reflexivity|]. cbn [session _cancel stored trace].
  rewrite app_nil_r.
  repeat split; [rewrite <- app_assoc; reflexivity| | |].
  all: destruct (put_file_effects_summary h (uf_file env i) lp
                   (destination remote_dir lp) false total Ho) as (S1 & S2 & S3).
  - cbn. exact S1.
  - cbn. exact S2.
  - constructor; [reflexivity|exact S3].
Qed.

(** The loop over files that all go through, followed by [rest]. *)
Lemma upload_loop_clean (before rest : list string) (i0 : nat) (s : state)
    (h : handle) :
  _cancel s = false -> sftp (session s) = Some h ->
  (forall i, (i0 <= i < i0 + List.length before)%nat -> clean_put (uf_file env i)) ->
  exists s' tr,
    for_each_from i0 (before ++ rest) (upload_one env remote_dir n) s =
    for_each_from (i0 + List.length before) rest (upload_one env remote_dir n) s' /\
    _cancel s' = false /\ session s' = session s /\
    stored s' = (stored s ++ map (destination remote_dir) before)%list /\
    trace s' = (trace s ++ tr)%list /\
    put_calls tr = map (fun lp => (lp, destination remote_dir lp)) before /\
    exec_calls tr = [] /\ no_finished tr.
Proof.
  revert i0 s. induction before as [|lp before IH]; intros i0 s Hc Hh Hclean.
  - exists s, []. cbn [app List.length map]. rewrite Nat.add_0_r, !app_nil_r.
    repeat split; auto. constructor.
  - destruct (upload_one_clean i0 lp s h Hc Hh) as
      (s1 & tr1 & R1 & C1 & Se1 & St1 & T1 & P1 & X1 & Q1).
    { apply Hclean. cbn [List.length]. lia. }
    destruct (IH (S i0) s1 C1) as (s2 & tr2 & R2 & C2 & Se2 & St2 & T2 & P2 & X2 & Q2).
    { now rewrite Se1. }
    { intros i Hi. apply Hclean. cbn [List.length]. lia. }
    exists s2, (tr1 ++ tr2)%list.
    cbn [app for_each_from List.length map]. unfold bind at 1. rewrite R1, R2.
    replace (i0 + S (List.length before))%nat with (S i0 + List.length before)%nat by lia.
    split; [reflexivity|]. split; [exact C2|]. split; [congruence|].
    split; [rewrite St2, St1, <- app_assoc; reflexivity|].
    split; [rewrite T2, T1, <- app_assoc; reflexivity|].
    unfold put_calls, exec_calls, no_finished in *.
    rewrite !flat_map_app, P1, P2, X1, X2.
    repeat split. apply Forall_app. auto.
Qed.

(** A turn of the loop that starts with the flag set. *)
Lemma upload_one_flag_set (i : nat) (lp : string) (s : state) :
  _cancel s = true -> upload_one env remote_dir n i lp s = (inl cancelled, s).
Proof.
  intros Hc. unfold upload_one, check_cancel. unfold bind at 1. unfold bind at 1, get.
  now rewrite Hc.
Qed.

(** A turn of the loop with Cancel pressed after the last block. *)
Lemma upload_one_late (i : nat) (lp : string) (s : state) (h : handle) :
  _cancel s = false -> sftp (session s) = Some h -> late_cancel_put (uf_file env i) ->
  exists s' tr,
    upload_one env remote_dir n i lp s = (inr tt, s') /\
    _cancel s' = true /\
    stored s' = (stored s ++ [destination remote_dir lp])%list /\
    trace s' = (trace s ++ tr)%list /\
    put_calls tr = [(lp, destination remote_dir lp)] /\
    exec_calls tr = [] /\ no_finished tr.
Proof.
  intros Hc Hh (Hp & [total Ho] & Hcs & Hdone).
  unfold upload_one, check_cancel. unfold bind at 1. unfold bind at 1, get.
  rewrite Hc. unfold ret. cbv zeta. unfold bind at 1, emit, modify.
  rewrite put_file_run. fold (destination remote_dir lp).
  cbn [session _cancel with_effect trace stored fetched window]. rewrite Hh, Hc.
  destruct (cb_clean _ Hcs) as [Hr Hf].
  assert (Hres : put_file_result (Some h) (uf_file env i) false = inr tt).
  { unfold put_file_result, transfer_result. rewrite Ho, Hp. cbn [orb].
    now rewrite Hr, Hdone. }
  assert (Hflag : put_file_flag (Some h) (uf_file env i) false = true).
  { unfold put_file_flag, transfer_flag. rewrite Ho, Hp. cbn [orb].
    now rewrite Hr, Hdone. }
  unfold put_file_stored. rewrite Hres, Hflag.
  eexists _, _. split; [reflexivity|]. cbn [session _cancel stored trace].
  repeat split; [rewrite <- app_assoc; reflexivity| | |].
  all: destruct (put_file_effects_summary h (uf_file env i) lp
                   (destination remote_dir lp) false total Ho) as (S1 & S2 & S3).
  - cbn. exact S1.
  - cbn. exact S2.
  - constructor; [reflexivity|exact S3].
Qed.

(** The loop from the file during whose transfer Cancel is pressed. *)
Lemma upload_loop_cancelled (i : nat) (lp : string) (after : list string)
    (s : state) (h : handle) :
  _cancel s = false -> sftp (session s) = Some h ->
  cancelled_put (uf_file env i) \/
  (late_cancel_put (uf_file env i) /\ after <> []) ->
  exists s' tr more,
    for_each_from i (lp :: after) (upload_one env remote_dir n) s =
      (inl cancelled, s') /\
    stored s' = (stored s ++ more)%list /\
    (more = [] \/ more = [destination remote_dir lp]) /\
    trace s' = (trace s ++ tr)%list /\
    put_calls tr = [(lp, destination remote_dir lp)] /\
    exec_calls tr = [] /\ no_finished tr.
Proof.
  intros Hc Hh [Hseen|[Hlate Hafter]].
  - destruct (upload_one_cancelled i lp s h Hc Hh Hseen)
      as (s' & tr & R & St & T & P & X & Q).
    exists s', tr, []. cbn [for_each_from]. unfold bind at 1. rewrite R.
    rewrite app_nil_r. auto 10.
  - destruct (upload_one_late i lp s h Hc Hh Hlate)
      as (s' & tr & R & C & St & T & P & X & Q).
    destruct after as [|lp' after']; [congruence|].
    exists s', tr, [destination remote_dir lp].
    cbn [for_each_from]. unfold bind at 1. rewrite R.
    unfold bind at 1. rewrite (upload_one_flag_set _ _ _ C). auto 10.
Qed.

End Loop.

Lemma exec_connected (r : reply (Z * string * string)) (cmd : string) (t : Z)
    (s : state) (h1 h2 : handle) :
  ssh (session s) = Some h1 -> sftp (session s) = Some h2 ->
  exec r cmd t s = do_call (SSHClient_exec_command h1 cmd t) r s.
Proof.
  intros H1 H2. unfold exec, bind, get, is_connected. now rewrite H1, H2.
Qed.

End CancelFacts.

(** One file; Cancel is pressed after its last block has been reported. *)
Definition one_file_late_cancel : upload_files_env :=
  {| uf_mkdir := returns (0, "", "");
     uf_file := fun _ =>
       {| getsize_reply := returns 40000;
          put_transfer :=
            {| callbacks := [ {| chunk_tx := 32768; chunk_cancel := false |};
                              {| chunk_tx := 40000; chunk_cancel := false |} ];
               completion := Reply true (inr tt) |} |} |}.

(** C2 as stated fails: the flag is read before each file and in each
    progress callback only.  Set during the transfer of the last file after
    its last callback, it is never read, and the job reports success. *)
Lemma upload_cancel_after_last_block_counterexample :
  let r := upload_files one_file_late_cancel "/home/u/a.txt" "/srv/data"
             connected_state in
  cancel_pressed (completion (put_transfer (uf_file one_file_late_cancel 1))) = true /\
  _cancel (snd r) = true /\
  trace (snd r) =
    [status "Ensuring remote dir: /srv/data";
     Call (SSHClient_exec_command 1 "mkdir -p '/srv/data'" 60);
     status "[1/1] Uploading file -> /srv/data/a.txt";
     Call (os_path_getsize "/home/u/a.txt");
     status "Uploading: a.txt"; progress 0;
     Call (SFTPClient_put 2 "/home/u/a.txt" "/srv/data/a.txt");
     progress 81; progress 100; progress 100;
     finished true "Upload completed."].
Proof. repeat split; vm_compute; reflexivity. Qed.

(** C2 (amended): let Cancel be pressed during the transfer of the k-th
    file, the files before it having gone through untouched, either while a
    block of that file moves (so that its progress callback finds the flag
    set) or, when the file is not the last one, after its last block.  Then
    the job ends with the single terminal event
    [finished(False, "Upload failed: Cancelled")]; the files before the k-th
    are stored at their destinations and no remote command follows the
    initial [mkdir], so none of them is undone; and the [put] calls are those
    of the first k files, so no later file is attempted. *)
Theorem upload_cancelled_during_file (env : upload_files_env) (csv dir : string)
    (s : state) (h1 h2 : handle) (before after : list string) (lp : string) :
  _cancel s = false ->
  ssh (session s) = Some h1 -> sftp (session s) = Some h2 ->
  split_paths csv = (before ++ lp :: after)%list ->
  cancel_pressed (uf_mkdir env) = false ->
  (exists r, outcome (uf_mkdir env) = inr r) ->
  (forall i, (1 <= i <= List.length before)%nat -> clean_put (uf_file env i)) ->
  cancelled_put (uf_file env (S (List.length before))) \/
  (late_cancel_put (uf_file env (S (List.length before))) /\ after <> []) ->
  let r := upload_files env csv dir s in
  let dir' := normalize_remote dir in
  fst r = inr tt /\
  (exists more : list string,
     stored (snd r) = (stored s ++ map (destination dir') before ++ more)%list /\
     (more = [] \/ more = [destination dir' lp])) /\
  exists tr : list effect,
    trace (snd r) =
      (trace s ++ tr ++ [finished false "Upload failed: Cancelled"])%list /\
    no_finished tr /\
    put_calls tr = map (fun p => (p, destination dir' p)) (before ++ [lp]) /\
    exec_calls tr = ["mkdir -p '" ++ dir' ++ "'"].
Proof.
  intros Hc Hssh Hsftp Hsplit Hmk [r0 Hmk'] Hclean Hcancel. cbv zeta.
  unfold upload_files. cbv zeta. rewrite Hsplit.
  set (paths := (before ++ lp :: after)%list).
  set (dir' := normalize_remote dir).
  change (fun (i : nat) (lp0 : string) => _)
    with (upload_one env dir' (List.length paths)).
  assert (Hne : paths <> []) by (subst paths; destruct before; discriminate).
  set (body := (emit (status ("Ensuring remote dir: " ++ dir'));;
                exec (uf_mkdir env) ("mkdir -p '" ++ dir' ++ "'") 60;;
                for_each_from 1 paths (upload_one env dir' (List.length paths));;
                emit (finished true "Upload completed."))).
  assert (Hm : match paths with
               | [] => emit (finished false "No local files selected.")
               | _ :: _ => body
               end = body) by (destruct paths; congruence).
  rewrite Hm. clear Hm.
  set (s1 := with_effect (status ("Ensuring remote dir: " ++ dir')) s).
  set (s2 := with_effect
               (Call (SSHClient_exec_command h1 ("mkdir -p '" ++ dir' ++ "'") 60)) s1).
  destruct (upload_loop_clean env dir' (List.length paths) before (lp :: after) 1 s2 h2)
    as (s3 & tr3 & R3 & C3 & Se3 & St3 & T3 & P3 & X3 & Q3);
    [exact Hc|exact Hsftp|intros i Hi; apply Hclean; lia|].
  fold paths in R3.
  destruct (upload_loop_cancelled env dir' (List.length paths)
              (1 + List.length before) lp after s3 h2)
    as (s4 & tr4 & more & R4 & St4 & Hmore & T4 & P4 & X4 & Q4);
    [exact C3|now rewrite Se3|exact Hcancel|].
  assert (Hbody : body s = (inl cancelled, s4)).
  { unfold body. unfold bind at 1. unfold emit at 1, modify. fold s1.
    unfold bind at 1. rewrite (exec_connected _ _ _ s1 h1 h2 Hssh Hsftp).
    unfold do_call, come_back. rewrite Hmk, Hmk'. fold s2.
    unfold bind at 1. rewrite R3. now rewrite R4. }
  unfold try_except. rewrite Hbody. cbn [fst snd].
  split; [reflexivity|]. split.
  { exists more. split; [|exact Hmore]. cbn. rewrite St4, St3, <- app_assoc.
    reflexivity. }
  exists ([status ("Ensuring remote dir: " ++ dir');
           Call (SSHClient_exec_command h1 ("mkdir -p '" ++ dir' ++ "'") 60)]
          ++ tr3 ++ tr4)%list.
  split.
  { cbn [emit modify snd with_effect trace exn_str cancelled].
    rewrite T4, T3. cbn [s2 s1 with_effect trace].
    rewrite <- !app_assoc. reflexivity. }
  unfold put_calls, exec_calls, no_finished in *.
  rewrite !flat_map_app, P3, P4, X3, X4, map_app. cbn.
  repeat split. repeat (constructor; [reflexivity|]). apply Forall_app. auto.
Qed.

(** Three files; Cancel is pressed while the second block of the second
    file moves. *)
Definition three_files_second_cancelled : upload_files_env :=
  {| uf_mkdir := returns (0, "", "");
     uf_file := fun i =>
       match i with
       | 2%nat =>
           {| getsize_reply := returns 100000;
              put_transfer :=
                {| callbacks := [ {| chunk_tx := 32768; chunk_cancel := false |};
                                  {| chunk_tx := 65536; chunk_cancel := true |};
                                  {| chunk_tx := 98304; chunk_cancel := false |} ];
                   completion := returns tt |} |}
       | _ =>
           {| getsize_reply := returns 40000;
              put_transfer :=
                {| callbacks := [ {| chunk_tx := 32768; chunk_cancel := false |};
                                  {| chunk_tx := 40000; chunk_cancel := false |} ];
                   completion := returns tt |} |}
       end |}.

Example three_files_second_cancelled_trace :
  upload_files three_files_second_cancelled
    "/home/u/a.txt|/home/u/b.bin|/home/u/c.txt" "/srv//data" connected_state =
  (inr tt,
   {| session := session connected_state;
      _cancel := true;
      window := MainWindow_init;
      stored := ["/srv/data/a.txt"]; fetched := [];
      trace :=
        [status "Ensuring remote dir: /srv/data";
         Call (SSHClient_exec_command 1 "mkdir -p '/srv/data'" 60);
         status "[1/3] Uploading file -> /srv/data/a.txt";
         Call (os_path_getsize "/home/u/a.txt");
         status "Uploading: a.txt"; progress 0;
         Call (SFTPClient_put 2 "/home/u/a.txt" "/srv/data/a.txt");
         progress 81; progress 100; progress 100;
         status "[2/3] Uploading file -> /srv/data/b.bin";
         Call (os_path_getsize "/home/u/b.bin");
         status "Uploading: b.bin"; progress 0;
         Call (SFTPClient_put 2 "/home/u/b.bin" "/srv/data/b.bin");
         progress 32; progress 65;
         finished false "Upload failed: Cancelled"] |}).
Proof. vm_compute. reflexivity. Qed.

Lemma upload_cancelled_during_file_witness :
  let r := upload_files three_files_second_cancelled
             "/home/u/a.txt|/home/u/b.bin|/home/u/c.txt" "/srv//data"
             connected_state in
  fst r = inr tt /\
  (exists more : list string,
     stored (snd r) = ("/srv/data/a.txt" :: more) /\
     (more = [] \/ more = ["/srv/data/b.bin"])) /\
  exists tr : list effect,
    trace (snd r) = (tr ++ [finished false "Upload failed: Cancelled"])%list /\
    no_finished tr /\
    put_calls tr = [("/home/u/a.txt", "/srv/data/a.txt");
                    ("/home/u/b.bin", "/srv/data/b.bin")] /\
    exec_calls tr = ["mkdir -p '/srv/data'"].
Proof.
  apply (upload_cancelled_during_file three_files_second_cancelled
           "/home/u/a.txt|/home/u/b.bin|/home/u/c.txt" "/srv//data"
           connected_state 1 2 ["/home/u/a.txt"] ["/home/u/c.txt"] "/home/u/b.bin");
    try reflexivity.
  - now exists (0, "", "").
  - intros i Hi. cbn [List.length] in Hi. assert (E : i = 1%nat) by lia. subst i.
    repeat split; [now exists 40000|repeat constructor].
  - left. split; [now exists 100000|].
    apply Exists_cons_tl, Exists_cons_hd. reflexivity.
Defined.

(** The model against the machine: on these byte counts the rational
    computed by [round53] is the binary64 value that the processor's
    division and multiplication produce. *)
Definition Q_of_float (f : float) : option Q :=
  match Prim2SF f with
  | S754_zero _ => Some 0%Q
  | S754_finite s m e =>
      Some ((if s then - inject_Z (Zpos m) else inject_Z (Zpos m)) * 2 ^ e)%Q
  | _ => None
  end.

Definition machine_scaled (tx total : Z) : option Q :=
  Q_of_float (PrimFloat.mul
                (PrimFloat.div (PrimFloat.of_uint63 (Uint63.of_Z tx))
                               (PrimFloat.of_uint63 (Uint63.of_Z total)))
                (PrimFloat.of_uint63 (Uint63.of_Z 100))).

Definition model_scaled (tx total : Z) : option Q :=
  match PyFloat.truediv tx total with
  | inl _ => None
  | inr q => Some (PyFloat.mul_int q 100)
  end.

Definition agree (a b : option Q) : bool :=
  match a, b with
  | Some x, Some y => Qeq_bool x y
  | _, _ => false
  end.

Example model_agrees_with_machine :
  forallb (fun total =>
    forallb (fun tx => agree (model_scaled tx total) (machine_scaled tx total))
      [0; 1; 2; 3; 29; 57; 58; 99; 100; 32768; 65536; 98304; 1000000006;
       123456789012344; 9007199254740990; 9007199254740991])
    [1; 3; 7; 100; 32768; 98304; 1000000007; 123456789012345; 9007199254740991]
  = true.
Proof. vm_compute. reflexivity. Qed.

(** * Further properties *)

(** ** Joining paths *)

Section JoinFacts.

Lemma endswith_char_split (c : ascii) (s : string) :
  PyStr.endswith_char c s = true -> exists d, s = d ++ String c "".
Proof.
  induction s as [|x t IH]; [discriminate|].
  destruct t as [|y t'].
  - cbn [PyStr.endswith_char]. intros H. apply Ascii.eqb_eq in H. subst x.
    now exists "".
  - intros H. destruct (IH H) as [d Hd]. exists (String x d).
    cbn [append]. now rewrite <- Hd.
Qed.

Lemma endswith_char_rstrip (c : ascii) (s : string) :
  PyStr.endswith_char c s = false -> PyStr.rstrip_char c s = s.
Proof.
  unfold PyStr.rstrip_char. induction s as [|x t IH]; [reflexivity|].
  rewrite rstrip_by_cons. destruct t as [|y t'].
  - cbn [PyStr.endswith_char PyStr.rstrip_by]. now intros ->.
  - intros H. rewrite (IH H). reflexivity.
Qed.

Lemma basename_no_sep (s : string) :
  PyStr.contains "/" s = false -> posixpath.basename s = s.
Proof. destruct s; [reflexivity|]. cbn [posixpath.basename]. now intros ->. Qed.

Lemma basename_app (d nm : string) :
  PyStr.contains "/" nm = false ->
  posixpath.basename (d ++ String slash nm) = nm.
Proof.
  intros Hs. induction d as [|c d IH]; cbn [append posixpath.basename].
  - rewrite contains_char_cons, Ascii.eqb_refl. cbn [orb].
    now apply basename_no_sep.
  - rewrite contains_char_cons, (contains_app_r "/" d (String slash nm)).
    + now rewrite orb_true_r.
    + rewrite contains_char_cons, Ascii.eqb_refl. reflexivity.
Qed.

(** The two shapes of a joined path. *)
Lemma join_remote_shape (base nm : string) :
  exists d, join_remote base nm = d ++ String slash nm /\
            PyStr.contains "//" (d ++ "/") = false /\
            PyStr.contains "\" d = false /\
            PyStr.or_else d "/" =
              PyStr.or_else (PyStr.rstrip_char "/" (normalize_remote base)) "/".
Proof.
  unfold join_remote. cbv zeta.
  pose proof (normalize_remote_no_dslash base) as Hd.
  pose proof (normalize_remote_backslash_free base) as Hb.
  set (nb := normalize_remote base) in *.
  destruct (PyStr.endswith_char slash nb) eqn:E.
  - destruct (endswith_char_split _ _ E) as [d Hnb]. exists d.
    rewrite Hnb in *. rewrite str_app_assoc. cbn [append].
    split; [reflexivity|]. split; [exact Hd|].
    split; [now apply contains_app_false in Hb|].
    unfold PyStr.rstrip_char.
    rewrite rstrip_by_dropped_tail by apply Ascii.eqb_refl.
    fold (PyStr.rstrip_char "/" d). now rewrite (rstrip_no_dslash d "" Hd).
  - exists nb. split; [reflexivity|]. split; [|split; [exact Hb|]].
    + clear Hb. induction nb as [|c t IH]; [reflexivity|].
      cbn [append PyStr.contains] in *. apply orb_false_elim in Hd.
      destruct Hd as [Hh Ht]. destruct t as [|c' t'].
      * cbn [PyStr.endswith_char] in E. cbn [append PyStr.startswith PyStr.contains].
        unfold slash in E. rewrite E. reflexivity.
      * rewrite IH; [|exact Ht|exact E]. rewrite orb_false_r.
        cbn [append PyStr.startswith] in *. exact Hh.
    + pose proof (endswith_char_rstrip _ _ E) as R. unfold slash in R.
      now rewrite R.
Qed.

Lemma no_slash_no_dslash (nm : string) :
  PyStr.contains "/" nm = false ->
  PyStr.startswith "/" nm = false /\ PyStr.contains "//" nm = false.
Proof.
  induction nm as [|x r IH]; [now split|].
  rewrite contains_char_cons. intros H. apply orb_false_elim in H.
  destruct H as [Hx Hr]. destruct (IH Hr) as [_ IHc].
  cbn [PyStr.contains PyStr.startswith]. now rewrite Hx, IHc.
Qed.

Lemma contains_dslash_segment (a nm : string) :
  PyStr.contains "//" (a ++ "/") = false -> PyStr.contains "/" nm = false ->
  PyStr.contains "//" (a ++ String slash nm) = false.
Proof.
  intros Ha Hn. destruct (no_slash_no_dslash nm Hn) as [Hs Hc].
  induction a as [|c t IH].
  - cbn [append PyStr.contains PyStr.startswith].
    cbn [PyStr.startswith] in Hs. now rewrite Hs, Hc, andb_false_r.
  - cbn [append PyStr.contains] in *. apply orb_false_elim in Ha.
    destruct Ha as [Hh Ht]. rewrite (IH Ht), orb_false_r.
    destruct t as [|c' t']; cbn [append PyStr.startswith] in *; exact Hh.
Qed.

End JoinFacts.

(** ** [normalize_remote] in one pass *)

(** A slash is dropped when it follows a slash; [after_slash] tells whether
    the character before [s] was one. *)
Fixpoint squeeze (after_slash : bool) (s : string) : string :=
  match s with
  | EmptyString => EmptyString
  | String c t =>
      if Ascii.eqb slash c
      then (if after_slash then squeeze true t else String c (squeeze true t))
      else String c (squeeze false t)
  end.

(** Backslashes become slashes, character by character. *)
Fixpoint to_slashes (s : string) : string :=
  match s with
  | EmptyString => EmptyString
  | String c t => String (if Ascii.eqb backslash c then slash else c) (to_slashes t)
  end.

Section SqueezeFacts.

Lemma replace_backslash_to_slashes (s : string) :
  PyStr.replace "\" "/" s = to_slashes s.
Proof.
  unfold PyStr.replace. induction s as [|c t IH]; [reflexivity|].
  rewrite backslash_step. cbn [to_slashes]. now rewrite IH.
Qed.

Lemma squeeze_replace_dslash (s : string) :
  (forall b, squeeze b (PyStr.replace_from "//" "/" 0 s) = squeeze b s) /\
  (forall c t, s = String c t ->
     squeeze true (PyStr.replace_from "//" "/" 1 s) = squeeze true t).
Proof.
  induction s as [|c t [IH0 IH1]].
  - split; [reflexivity|discriminate].
  - split.
    + intros b. rewrite dslash_step0.
      destruct (PyStr.startswith "//" (String c t)) eqn:E.
      * apply startswith_dslash in E. destruct E as [t' E]. injection E as -> ->.
        cbn [squeeze]. rewrite !Ascii.eqb_refl.
        rewrite (IH1 slash t' eq_refl). now destruct b.
      * cbn [squeeze]. rewrite !IH0. reflexivity.
    + intros c' t' E. injection E as -> ->. rewrite dslash_step1. apply IH0.
Qed.

Lemma squeeze_fixed (s : string) (b : bool) :
  PyStr.contains "//" s = false ->
  (b = true -> PyStr.startswith "/" s = false) ->
  squeeze b s = s.
Proof.
  revert b. induction s as [|c t IH]; intros b Hd Hs; [reflexivity|].
  cbn [PyStr.contains] in Hd. apply orb_false_elim in Hd. destruct Hd as [Hh Ht].
  cbn [squeeze]. destruct (Ascii.eqb slash c) eqn:Ec.
  - apply Ascii.eqb_eq in Ec. subst c.
    assert (Hb : b = false).
    { destruct b; [|reflexivity]. specialize (Hs eq_refl).
      cbn [PyStr.startswith] in Hs. now rewrite Ascii.eqb_refl in Hs. }
    subst b. rewrite IH; [reflexivity|exact Ht|].
    intros _. cbn [PyStr.startswith] in Hh. rewrite Ascii.eqb_refl in Hh.
    exact Hh.
  - rewrite IH; [reflexivity|exact Ht|discriminate].
Qed.

Lemma collapse_slashes_squeeze (s : string) : collapse_slashes s = squeeze false s.
Proof.
  apply (collapse_slashes_ind (fun s r => r = squeeze false s)).
  - intros s0 H. symmetry. apply squeeze_fixed; [exact H|discriminate].
  - intros s0 r _ ->. apply squeeze_replace_dslash.
Qed.

End SqueezeFacts.

(** X1: [normalize_remote] is a single left-to-right pass: every backslash
    becomes a slash and every slash that follows a slash is dropped; the
    empty path becomes the root. *)
Theorem normalize_remote_one_pass (p : string) :
  normalize_remote p =
  match p with
  | EmptyString => "/"
  | _ => squeeze false (to_slashes p)
  end.
Proof.
  destruct p as [|c t]; [reflexivity|].
  unfold normalize_remote.
  now rewrite replace_backslash_to_slashes, collapse_slashes_squeeze.
Qed.

Section JoinProperties.

Lemma to_slashes_app (a b : string) :
  to_slashes (a ++ b) = to_slashes a ++ to_slashes b.
Proof. induction a as [|c t IH]; [reflexivity|]. cbn [append to_slashes]. now rewrite IH. Qed.

Lemma squeeze_snoc_slash (b : bool) (a : string) :
  squeeze b (a ++ "/") = squeeze b a \/ squeeze b (a ++ "/") = squeeze b a ++ "/".
Proof.
  revert b. induction a as [|c t IH]; intros b.
  - destruct b; [now left|now right].
  - cbn [append squeeze]. destruct (Ascii.eqb slash c).
    + destruct b; [apply IH|].
      destruct (IH true) as [-> | ->]; [now left|now right].
    + destruct (IH false) as [-> | ->]; [now left|now right].
Qed.

Lemma normalize_remote_snoc_slash (base : string) :
  PyStr.rstrip_char "/" (normalize_remote (base ++ "/")) =
  PyStr.rstrip_char "/" (normalize_remote base).
Proof.
  destruct base as [|c t]; [reflexivity|].
  unfold normalize_remote. cbn [append].
  rewrite !replace_backslash_to_slashes, !collapse_slashes_squeeze.
  change (String c (t ++ "/")) with (String c t ++ "/").
  rewrite to_slashes_app. change (to_slashes "/") with "/".
  destruct (squeeze_snoc_slash false (to_slashes (String c t))) as [-> | ->];
    [reflexivity|].
  unfold PyStr.rstrip_char. apply rstrip_by_dropped_tail, Ascii.eqb_refl.
Qed.

Lemma join_prefix_unique (d1 d2 : string) :
  PyStr.contains "//" (d1 ++ "/") = false ->
  PyStr.contains "//" (d2 ++ "/") = false ->
  PyStr.or_else d1 "/" = PyStr.or_else d2 "/" -> d1 = d2.
Proof.
  intros H1 H2 E.
  destruct d1 as [|c1 t1], d2 as [|c2 t2]; cbn [PyStr.or_else] in E;
    try reflexivity; try exact E.
  - rewrite <- E in H2. discriminate.
  - rewrite E in H1. discriminate.
Qed.

Lemma contains_char_app (a : ascii) (x y : string) :
  PyStr.contains (String a "") (x ++ y) =
  PyStr.contains (String a "") x || PyStr.contains (String a "") y.
Proof.
  induction x as [|c t IH].
  - cbn [append PyStr.contains PyStr.startswith]. reflexivity.
  - cbn [append]. rewrite !contains_char_cons, IH. apply orb_assoc.
Qed.

Lemma join_remote_clean (base nm : string) :
  PyStr.contains "/" nm = false -> PyStr.contains "\" nm = false ->
  normalize_remote (join_remote base nm) = join_remote base nm.
Proof.
  intros Hs Hb. destruct (join_remote_shape base nm) as (d & -> & Hd & Hbd & _).
  apply normalize_remote_fixpoint.
  - destruct d; discriminate.
  - change (String slash nm) with ("/" ++ nm).
    rewrite !contains_char_app, Hbd, Hb. reflexivity.
  - now apply contains_dslash_segment.
Qed.

End JoinProperties.

(** X2: a trailing slash on the base makes no difference:
    [join_remote(base + "/", name) == join_remote(base, name)], for every
    base, the empty one included. *)
Theorem join_remote_trailing_slash (base nm : string) :
  join_remote (base ++ "/") nm = join_remote base nm.
Proof.
  destruct (join_remote_shape (base ++ "/") nm) as (d1 & -> & H1 & _ & E1).
  destruct (join_remote_shape base nm) as (d2 & -> & H2 & _ & E2).
  rewrite normalize_remote_snoc_slash, <- E2 in E1.
  now rewrite (join_prefix_unique d1 d2 H1 H2 E1).
Qed.

(** X3: joining and splitting agree.  For a name without slash,
    [os.path.basename(join_remote(base, name))] is the name, and
    [os.path.dirname] of the joined path is the normalized base without its
    trailing slash (the root when that is empty). *)
Theorem join_remote_split (base nm : string) :
  PyStr.contains "/" nm = false ->
  posixpath.basename (join_remote base nm) = nm /\
  PyStr.or_else (posixpath.dirname (join_remote base nm)) "/" =
  PyStr.or_else (PyStr.rstrip_char "/" (normalize_remote base)) "/".
Proof.
  intros Hs. destruct (join_remote_shape base nm) as (d & -> & Hd & _ & E).
  split; [now apply basename_app|].
  rewrite dirname_segment; [exact E|exact Hs|].
  now apply contains_dslash_segment.
Qed.

Lemma join_remote_split_witness :
  posixpath.basename (join_remote "\srv//www/" "index.html") = "index.html" /\
  PyStr.or_else (posixpath.dirname (join_remote "\srv//www/" "index.html")) "/" =
  "/srv/www".
Proof.
  apply (join_remote_split "\srv//www/" "index.html"). reflexivity.
Defined.

(** X4: a joined path needs no further normalization when the name holds
    neither slash nor backslash:
    [normalize_remote(join_remote(base, name)) == join_remote(base, name)]. *)
Theorem join_remote_normalized (base nm : string) :
  PyStr.contains "/" nm = false -> PyStr.contains "\" nm = false ->
  normalize_remote (join_remote base nm) = join_remote base nm /\
  PyStr.contains "//" (join_remote base nm) = false.
Proof.
  intros Hs Hb. pose proof (join_remote_clean base nm Hs Hb) as E.
  split; [exact E|]. rewrite <- E. apply normalize_remote_no_dslash.
Qed.

Lemma join_remote_normalized_witness :
  normalize_remote (join_remote "\srv//www" "a b.txt") = "/srv/www/a b.txt".
Proof.
  apply (join_remote_normalized "\srv//www" "a b.txt"); reflexivity.
Defined.

(** ** Browsing: double click, refresh, up *)

(** [RemoteTable._on_double_click] on the row [r], with [cd_requested]
    wired to [MainWindow.on_remote_cd]. *)
Definition _on_double_click (listing : reply (list SFTPAttributes)) (r : Z) : M unit :=
  s <- get ;;
  if (0 <=? r) && (r <? Z.of_nat (List.length (entries (window s))))
  then
    match nth_error (entries (window s)) (Z.to_nat r) with
    | Some e =>
        if is_dir e
        then
          let new_path := join_remote (current_path (window s)) (name e) in
          on_remote_cd listing new_path
        else ret tt
    | None => ret tt
    end
  else ret tt.

Section BrowsingFacts.


Lemma on_remote_cd_path (l : reply (list SFTPAttributes)) (p : string) (s : state) :
  remote_path (window (snd (on_remote_cd l p s))) = normalize_remote p.
Proof.
  unfold on_remote_cd, bind, remote_path_setText, modify.
  now rewrite refresh_remote_keeps_path.
Qed.

Lemma double_click_dir (l : reply (list SFTPAttributes)) (r : Z) (s : state)
    (e : RemoteEntry) :
  0 <= r -> nth_error (entries (window s)) (Z.to_nat r) = Some e ->
  is_dir e = true ->
  _on_double_click l r s =
  on_remote_cd l (join_remote (current_path (window s)) (name e)) s.
Proof.
  intros Hr He Hd. unfold _on_double_click, bind at 1, get.
  assert (Hlt : (Z.to_nat r < List.length (entries (window s)))%nat)
    by (apply nth_error_Some; congruence).
  assert (E : (0 <=? r) && (r <? Z.of_nat (List.length (entries (window s)))) = true).
  { apply andb_true_intro. split; [apply Z.leb_le|apply Z.ltb_lt]; lia. }
  rewrite E, He, Hd. reflexivity.
Qed.

Lemma refresh_remote_returns (l : reply (list SFTPAttributes)) (s : state) :
  fst (refresh_remote l s) = inr tt.
Proof.
  destruct s as [[ssh0 sftp0 host0 user0] c [rp cp es st] sd fd tr].
  destruct l as [pressed [e|attrs]], ssh0 as [h0|], sftp0 as [h1|], pressed;
    reflexivity.
Qed.

End BrowsingFacts.

(** X5: a double click that is not on a directory row changes nothing: a
    row outside the table, or the row of a file, leaves the state as it
    was and lists nothing. *)
Theorem double_click_elsewhere (l : reply (list SFTPAttributes)) (r : Z) (s : state) :
  (r < 0 \/ Z.of_nat (List.length (entries (window s))) <= r \/
   exists e, nth_error (entries (window s)) (Z.to_nat r) = Some e /\
             is_dir e = false) ->
  _on_double_click l r s = (inr tt, s).
Proof.
  intros H. unfold _on_double_click, bind, get.
  destruct ((0 <=? r) && (r <? Z.of_nat (List.length (entries (window s))))) eqn:E;
    [|reflexivity].
  apply andb_prop in E. destruct E as [E1 E2].
  apply Z.leb_le in E1. apply Z.ltb_lt in E2.
  destruct H as [H|[H|(e & He & Hd)]]; try lia.
  now rewrite He, Hd.
Qed.

(** A table that lists a directory [docs] and a file [notes.txt] of [/srv]. *)
Definition srv_listing : list RemoteEntry :=
  [ {| name := "docs"; is_dir := true; size := 4096; mtime := 0; mode := 16877 |};
    {| name := "notes.txt"; is_dir := false; size := 12; mtime := 0; mode := 33188 |} ].

Definition browsing_srv : state :=
  with_window (fun _ =>
    {| remote_path := "/srv"; current_path := "/srv"; entries := srv_listing;
       lbl_status := "Remote: /srv" |}) connected_state.

Lemma double_click_elsewhere_witness :
  _on_double_click (returns []) 1 browsing_srv = (inr tt, browsing_srv) /\
  _on_double_click (returns []) 7 browsing_srv = (inr tt, browsing_srv).
Proof.
  split.
  - apply (double_click_elsewhere (returns []) 1 browsing_srv).
    right. right. eexists. split; reflexivity.
  - apply (double_click_elsewhere (returns []) 7 browsing_srv).
    right. left. cbn. lia.
Defined.



(** [refresh_remote] on a session that is not connected does nothing at
    all: no call is made and the state, the entries shown included, is as
    before. *)
Theorem refresh_remote_not_connected (l : reply (list SFTPAttributes)) (s : state) :
  is_connected (session s) = false -> refresh_remote l s = (inr tt, s).
Proof.
  intros H. unfold refresh_remote, bind, get. now rewrite H.
Qed.

Lemma refresh_remote_not_connected_witness :
  let s := with_session (fun _ => SshSftpSession_init) browsing_srv in
  refresh_remote (returns example_listing) s = (inr tt, s).
Proof.
  apply (refresh_remote_not_connected (returns example_listing)
           (with_session (fun _ => SshSftpSession_init) browsing_srv)).
  reflexivity.
Defined.

(** X7: [refresh_remote] never raises, and a listing that fails leaves the
    table as it was: the entries, the path field and the status line are
    unchanged, and the only effects are the [listdir_attr] call and one
    message box with [str(e)].  The table's [current_path] has already been
    set to the path asked for. *)
Theorem refresh_remote_failure (s : state) (pressed : bool) (e : exn) (h : handle) :
  is_connected (session s) = true -> sftp (session s) = Some h ->
  let p := normalize_remote
             (PyStr.or_else (PyStr.strip (remote_path (window s))) "/") in
  let r := refresh_remote (Reply pressed (inl e)) s in
  fst r = inr tt /\
  entries (window (snd r)) = entries (window s) /\
  remote_path (window (snd r)) = remote_path (window s) /\
  lbl_status (window (snd r)) = lbl_status (window s) /\
  current_path (window (snd r)) = p /\
  session (snd r) = session s /\
  trace (snd r) =
    (trace s ++ [Call (SFTPClient_listdir_attr h p);
                 Call (QMessageBox_critical "Remote list failed" (exn_str e))])%list.
Proof.
  intros Hc Hh. cbv zeta.
  destruct s as [[ssh0 sftp0 host0 user0] c [rp cp es st] sd fd tr].
  cbn [session sftp ssh] in Hc, Hh. subst sftp0.
  destruct ssh0 as [h0|]; [|discriminate].
  cbn [window remote_path].
  set (p := normalize_remote (PyStr.or_else (PyStr.strip rp) "/")).
  assert (Hp : normalize_remote p = p).
  { unfold p. destruct (PyStr.or_else (PyStr.strip rp) "/") as [|x t] eqn:Ex;
      [reflexivity|].
    apply normalize_remote_fixpoint;
      [apply normalize_remote_nonempty|apply normalize_remote_backslash_free
      |apply normalize_remote_no_dslash]. }
  set (s0 := {| session := {| ssh := Some h0; sftp := Some h; host := host0;
                              username := user0 |};
                _cancel := c;
                window := {| remote_path := rp; current_path := cp;
                             entries := es; lbl_status := st |};
                stored := sd; fetched := fd; trace := tr |}).
  assert (Hrun : refresh_remote (Reply pressed (inl e)) s0 =
    (inr tt,
     {| session := session s0; _cancel := pressed || c;
        window := {| remote_path := rp; current_path := normalize_remote p;
                     entries := es; lbl_status := st |};
        stored := sd; fetched := fd;
        trace := (tr ++ [Call (SFTPClient_listdir_attr h p)]) ++
                 [Call (QMessageBox_critical "Remote list failed"
                          (exn_str e))] |})).
  { destruct pressed; reflexivity. }
  rewrite Hrun, Hp. cbn [fst snd window session trace entries remote_path
                         lbl_status current_path].
  rewrite <- app_assoc. repeat split.
Qed.

Lemma refresh_remote_failure_witness :
  let r := refresh_remote (raises (Exn OtherException "Permission denied"))
             browsing_srv in
  entries (window (snd r)) = srv_listing /\
  trace (snd r) =
    [Call (SFTPClient_listdir_attr 2 "/srv");
     Call (QMessageBox_critical "Remote list failed" "Permission denied")].
Proof.
  destruct (refresh_remote_failure browsing_srv false
              (Exn OtherException "Permission denied") 2 eq_refl eq_refl)
    as (_ & He & _ & _ & _ & _ & Ht).
  split; [exact He|exact Ht].
Defined.

(** ** The session: a successful [connect] *)

(** The server accepts: a new client 3 and a new channel 4. *)
Definition good_credentials : connect_env :=
  {| connect_disconnect := closes_ok;
     SSHClient_reply := returns 3;
     ssh_connect_reply := returns tt;
     open_sftp_reply := returns 4 |}.

(** X8: when every step of [connect] succeeds, the session ends up
    connected on the two new handles with the new host and user name; the
    handles it held before were closed first, and the notifications are
    [connected_changed(False)] from the leading [disconnect] and then, last,
    [connected_changed(True)]. *)
Theorem connect_success (env : connect_env) (h u pw : string) (port t : Z)
    (s : state) (c f : handle) :
  outcome (SSHClient_reply env) = inr c ->
  outcome (ssh_connect_reply env) = inr tt ->
  outcome (open_sftp_reply env) = inr f ->
  let r := connect env h u pw port t s in
  fst r = inr tt /\
  session (snd r) = {| ssh := Some c; sftp := Some f; host := h; username := u |} /\
  is_connected (session (snd r)) = true /\
  trace (snd r) =
    (trace s ++ close_calls (session s) ++
     [connected_changed false; Call SSHClient_new;
      Call (SSHClient_connect c h port u pw t); Call (SSHClient_open_sftp c);
      connected_changed true])%list.
Proof.
  intros H0 H1 H2. cbv zeta. rewrite connect_run. cbv zeta.
  rewrite disconnect_run. cbn [snd].
  destruct env as [denv [p0 o0] [p1 o1] [p2 o2]].
  cbn [SSHClient_reply ssh_connect_reply open_sftp_reply outcome] in *. subst.
  destruct p0, p1, p2;
    cbv -[app cancel_after_disconnect close_calls];
    rewrite <- !app_assoc; repeat split.
Qed.

Lemma connect_success_witness :
  let r := connect good_credentials "new.example" "bob" "secret" 22 12
             connected_state in
  session (snd r) = {| ssh := Some 3; sftp := Some 4;
                       host := "new.example"; username := "bob" |} /\
  trace (snd r) =
    [Call (SFTPClient_close 2); Call (SSHClient_close 1);
     connected_changed false; Call SSHClient_new;
     Call (SSHClient_connect 3 "new.example" 22 "bob" "secret" 12);
     Call (SSHClient_open_sftp 3); connected_changed true].
Proof.
  destruct (connect_success good_credentials "new.example" "bob" "secret" 22 12
              connected_state 3 4 eq_refl eq_refl eq_refl) as (_ & Hs & _ & Ht).
  split; [exact Hs|exact Ht].
Defined.

(** ** The list of paths handed to the worker *)

(** ["|".join(files)], as [on_upload_files] and [on_download_files] build
    the argument of the worker. *)
Fixpoint join_paths (files : list string) : string :=
  match files with
  | [] => ""
  | [p] => p
  | p :: rest => p ++ "|" ++ join_paths rest
  end.

Section CsvFacts.

Lemma split_char_no_sep (sep : ascii) (p : string) :
  PyStr.contains (String sep "") p = false -> PyStr.split_char sep p = [p].
Proof.
  induction p as [|c t IH]; [reflexivity|].
  rewrite contains_char_cons. intros H. apply orb_false_elim in H.
  destruct H as [Hc Ht]. cbn [PyStr.split_char]. now rewrite Hc, (IH Ht).
Qed.

Lemma split_char_app (sep : ascii) (p rest : string) :
  PyStr.contains (String sep "") p = false ->
  PyStr.split_char sep (p ++ String sep rest) = p :: PyStr.split_char sep rest.
Proof.
  induction p as [|c t IH].
  - intros _. cbn [append PyStr.split_char]. now rewrite Ascii.eqb_refl.
  - rewrite contains_char_cons. intros H. apply orb_false_elim in H.
    destruct H as [Hc Ht]. cbn [append PyStr.split_char].
    now rewrite Hc, (IH Ht).
Qed.

Lemma split_join_paths (files : list string) :
  files <> [] ->
  Forall (fun p => PyStr.contains "|" p = false) files ->
  PyStr.split_char "|" (join_paths files) = files.
Proof.
  intros Hne H. induction H as [|p rest Hp Hrest IH]; [congruence|].
  destruct rest as [|q rest'].
  - cbn [join_paths]. now apply split_char_no_sep.
  - change (join_paths (p :: q :: rest'))
      with (p ++ String "|" (join_paths (q :: rest'))).
    rewrite split_char_app by exact Hp. rewrite IH; [reflexivity|discriminate].
Qed.

End CsvFacts.

(** X9: the path list survives the trip to the worker.  When no path holds
    a ["|"] and none is blank, splitting ["|".join(files)] the way
    [upload_files] and [download_files] do gives the same paths in the same
    order; an empty selection gives the empty list. *)
Theorem split_paths_join_paths (files : list string) :
  Forall (fun p => PyStr.contains "|" p = false /\ PyStr.strip p <> "") files ->
  split_paths (join_paths files) = files.
Proof.
  intros H. destruct files as [|p rest]; [reflexivity|].
  unfold split_paths. rewrite split_join_paths; [|discriminate|].
  - apply forallb_filter_id. apply forallb_forall. intros x Hx.
    rewrite Forall_forall in H. destruct (H x Hx) as [_ Hs].
    apply negb_true_iff. now apply String.eqb_neq.
  - eapply Forall_impl; [|exact H]. now intros x [Hx _].
Qed.

Lemma split_paths_join_paths_witness :
  split_paths (join_paths ["/home/u/a.txt"; "/home/u/my file.bin"]) =
  ["/home/u/a.txt"; "/home/u/my file.bin"].
Proof.
  apply (split_paths_join_paths ["/home/u/a.txt"; "/home/u/my file.bin"]).
  repeat constructor; discriminate.
Defined.

(** A name that holds the separator does not survive. *)
Example split_paths_pipe_in_name :
  split_paths (join_paths ["/home/u/a|b.txt"]) = ["/home/u/a"; "b.txt"].
Proof. reflexivity. Qed.

(** ** [upload_files]: the other ways it ends *)

Section UploadFacts.

(** [upload_files] on a connected session with something to upload, once
    the remote directory has been made. *)
Lemma upload_files_connected (env : upload_files_env) (csv dir : string)
    (s : state) (h1 h2 : handle) (r0 : Z * string * string) :
  split_paths csv <> [] ->
  ssh (session s) = Some h1 -> sftp (session s) = Some h2 ->
  outcome (uf_mkdir env) = inr r0 ->
  let dir' := normalize_remote dir in
  let paths := split_paths csv in
  let s1 := with_effect (status ("Ensuring remote dir: " ++ dir')) s in
  let s2 := with_effect
              (Call (SSHClient_exec_command h1 ("mkdir -p '" ++ dir' ++ "'") 60)) s1 in
  let s3 := if cancel_pressed (uf_mkdir env) then with_cancel true s2 else s2 in
  upload_files env csv dir s =
  match for_each_from 1 paths (upload_one env dir' (List.length paths)) s3 with
  | (inr _, s4) => (inr tt, with_effect (finished true "Upload completed.") s4)
  | (inl e, s4) =>
      (inr tt, with_effect (finished false ("Upload failed: " ++ exn_str e)) s4)
  end.
Proof.
  intros Hne Hssh Hsftp Hmk. cbv zeta. unfold upload_files. cbv zeta.
  set (paths := split_paths csv) in *. set (dir' := normalize_remote dir).
  change (fun (i : nat) (lp0 : string) => _)
    with (upload_one env dir' (List.length paths)).
  set (body := (emit (status ("Ensuring remote dir: " ++ dir'));;
                exec (uf_mkdir env) ("mkdir -p '" ++ dir' ++ "'") 60;;
                for_each_from 1 paths (upload_one env dir' (List.length paths));;
                emit (finished true "Upload completed."))).
  assert (Hm : match paths with
               | [] => emit (finished false "No local files selected.")
               | _ :: _ => body
               end = body) by (destruct paths; congruence).
  rewrite Hm. clear Hm.
  set (s1 := with_effect (status ("Ensuring remote dir: " ++ dir')) s).
  unfold try_except, body.
  unfold bind at 1. unfold emit at 1, modify. fold s1.
  unfold bind at 1. rewrite (exec_connected _ _ _ s1 h1 h2 Hssh Hsftp).
  unfold do_call, come_back. rewrite Hmk. unfold bind at 1.
  destruct (for_each_from 1 paths _ _) as [[e|[]] s4]; reflexivity.
Qed.

(** A turn of the loop in which the size lookup or the transfer raises [e],
    nobody having pressed Cancel. *)
Definition failing_put (e : exn) (env : put_env) : Prop :=
  cancel_pressed (getsize_reply env) = false /\
  Forall (fun c => chunk_cancel c = false) (callbacks (put_transfer env)) /\
  (outcome (getsize_reply env) = inl e \/
   ((exists total, outcome (getsize_reply env) = inr total) /\
    outcome (completion (put_transfer env)) = inl e)).

Lemma put_file_effects_failed_lookup (sftp_ : option handle) (env : put_env)
    (lp rp : string) (flag : bool) (e : exn) :
  outcome (getsize_reply env) = inl e ->
  put_file_effects sftp_ env lp rp flag = [Call (os_path_getsize lp)].
Proof. intros H. unfold put_file_effects. now rewrite H. Qed.

Lemma upload_one_failing (env : upload_files_env) (remote_dir : string) (n i : nat)
    (lp : string) (s : state) (h : handle) (e : exn) :
  _cancel s = false -> sftp (session s) = Some h -> failing_put e (uf_file env i) ->
  exists s' tr attempted,
    upload_one env remote_dir n i lp s = (inl e, s') /\
    stored s' = stored s /\
    trace s' = (trace s ++ tr)%list /\
    put_calls tr = attempted /\
    (attempted = [] \/ attempted = [(lp, destination remote_dir lp)]) /\
    exec_calls tr = [] /\ no_finished tr.
Proof.
  intros Hc Hh (Hp & Hcs & Hfail).
  unfold upload_one, check_cancel. unfold bind at 1. unfold bind at 1, get.
  rewrite Hc. unfold ret. cbv zeta. unfold bind at 1, emit, modify.
  rewrite put_file_run. fold (destination remote_dir lp).
  cbn [session _cancel with_effect trace stored fetched window]. rewrite Hh, Hc.
  destruct (cb_clean _ Hcs) as [Hr Hf].
  assert (Hres : put_file_result (Some h) (uf_file env i) false = inl e).
  { unfold put_file_result, transfer_result.
    destruct Hfail as [Ho|[[total Ho] Hdone]]; rewrite Ho; [reflexivity|].
    rewrite Hp. cbn [orb]. now rewrite Hr. }
  unfold put_file_stored. rewrite Hres.
  eexists _, _, _. split; [reflexivity|]. cbn [session _cancel stored trace].
  rewrite app_nil_r.
  split; [reflexivity|]. split; [rewrite <- app_assoc; reflexivity|].
  split; [reflexivity|].
  destruct Hfail as [Ho|[[total Ho] Hdone]].
  - rewrite (put_file_effects_failed_lookup _ _ _ _ _ e Ho).
    split; [now left|]. split; [reflexivity|]. repeat constructor.
  - destruct (put_file_effects_summary h (uf_file env i) lp
                (destination remote_dir lp) false total Ho) as (S1 & S2 & S3).
    split; [right; cbn; exact S1|]. split; [cbn; exact S2|].
    constructor; [reflexivity|exact S3].
Qed.

End UploadFacts.

(** Three files that all go through. *)
Definition three_files_clean : upload_files_env :=
  {| uf_mkdir := returns (0, "", "");
     uf_file := fun _ =>
       {| getsize_reply := returns 40000;
          put_transfer :=
            {| callbacks := [ {| chunk_tx := 32768; chunk_cancel := false |};
                              {| chunk_tx := 40000; chunk_cancel := false |} ];
               completion := returns tt |} |} |}.

(** X10: when the remote directory can be made and every file goes through
    with nobody pressing Cancel, [upload_files] ends with
    [finished(True, "Upload completed.")], has called [put] once per path,
    in order, each to [join_remote(remote_dir, basename(path))], and all of
    them are stored. *)
Theorem upload_files_success (env : upload_files_env) (csv dir : string)
    (s : state) (h1 h2 : handle) :
  _cancel s = false ->
  ssh (session s) = Some h1 -> sftp (session s) = Some h2 ->
  split_paths csv <> [] ->
  cancel_pressed (uf_mkdir env) = false ->
  (exists r, outcome (uf_mkdir env) = inr r) ->
  (forall i, (1 <= i <= List.length (split_paths csv))%nat -> clean_put (uf_file env i)) ->
  let r := upload_files env csv dir s in
  let dir' := normalize_remote dir in
  fst r = inr tt /\
  stored (snd r) = (stored s ++ map (destination dir') (split_paths csv))%list /\
  exists tr : list effect,
    trace (snd r) = (trace s ++ tr ++ [finished true "Upload completed."])%list /\
    no_finished tr /\
    put_calls tr = map (fun p => (p, destination dir' p)) (split_paths csv) /\
    exec_calls tr = ["mkdir -p '" ++ dir' ++ "'"].
Proof.
  intros Hc Hssh Hsftp Hne Hmk [r0 Hmk'] Hclean. cbv zeta.
  rewrite (upload_files_connected env csv dir s h1 h2 r0 Hne Hssh Hsftp Hmk').
  cbv zeta. rewrite Hmk.
  set (dir' := normalize_remote dir). set (paths := split_paths csv) in *.
  set (s2 := with_effect _ (with_effect _ s)).
  destruct (upload_loop_clean env dir' (List.length paths) paths [] 1 s2 h2)
    as (s3 & tr3 & R3 & C3 & Se3 & St3 & T3 & P3 & X3 & Q3);
    [exact Hc|exact Hsftp|intros i Hi; apply Hclean; lia|].
  rewrite app_nil_r in R3. rewrite R3. cbn [for_each_from ret fst snd].
  split; [reflexivity|]. split; [cbn; rewrite St3; reflexivity|].
  exists ([status ("Ensuring remote dir: " ++ dir');
           Call (SSHClient_exec_command h1 ("mkdir -p '" ++ dir' ++ "'") 60)]
          ++ tr3)%list.
  split.
  { cbn [with_effect trace]. rewrite T3. cbn [s2 with_effect trace].
    rewrite <- !app_assoc. reflexivity. }
  unfold put_calls, exec_calls, no_finished in *.
  rewrite !flat_map_app, P3, X3. cbn.
  repeat split. repeat (constructor; [reflexivity|]). exact Q3.
Qed.

Lemma upload_files_success_witness :
  let r := upload_files three_files_clean
             "/home/u/a.txt|/home/u/b.bin|/home/u/c.txt" "/srv//data"
             connected_state in
  fst r = inr tt /\
  stored (snd r) = ["/srv/data/a.txt"; "/srv/data/b.bin"; "/srv/data/c.txt"] /\
  exists tr : list effect,
    trace (snd r) = (tr ++ [finished true "Upload completed."])%list /\
    no_finished tr /\
    put_calls tr = [("/home/u/a.txt", "/srv/data/a.txt");
                    ("/home/u/b.bin", "/srv/data/b.bin");
                    ("/home/u/c.txt", "/srv/data/c.txt")] /\
    exec_calls tr = ["mkdir -p '/srv/data'"].
Proof.
  apply (upload_files_success three_files_clean
           "/home/u/a.txt|/home/u/b.bin|/home/u/c.txt" "/srv//data"
           connected_state 1 2); try reflexivity.
  - discriminate.
  - now exists (0, "", "").
  - intros i _. repeat split; [now exists 40000|repeat constructor].
Defined.

(** Three files; the transfer of the second one breaks off. *)
Definition three_files_second_fails : upload_files_env :=
  {| uf_mkdir := returns (0, "", "");
     uf_file := fun i =>
       match i with
       | 2%nat =>
           {| getsize_reply := returns 100000;
              put_transfer :=
                {| callbacks := [ {| chunk_tx := 32768; chunk_cancel := false |} ];
                   completion := raises (Exn OtherException "Socket is closed") |} |}
       | _ =>
           {| getsize_reply := returns 40000;
              put_transfer :=
                {| callbacks := [ {| chunk_tx := 32768; chunk_cancel := false |};
                                  {| chunk_tx := 40000; chunk_cancel := false |} ];
                   completion := returns tt |} |}
       end |}.

(** X11: the first file whose size lookup or transfer raises ends the job.
    If the files before the k-th go through and the k-th raises [e], nobody
    having pressed Cancel, [upload_files] ends with
    [finished(False, "Upload failed: " + str(e))]; the files before the
    k-th stay stored, the k-th is not, and no file after the k-th is looked
    at: the [put] calls are those of the files before it and at most that
    of the k-th. *)
Theorem upload_files_first_failure (env : upload_files_env) (csv dir : string)
    (s : state) (h1 h2 : handle) (before after : list string) (lp : string)
    (e : exn) :
  _cancel s = false ->
  ssh (session s) = Some h1 -> sftp (session s) = Some h2 ->
  split_paths csv = (before ++ lp :: after)%list ->
  cancel_pressed (uf_mkdir env) = false ->
  (exists r, outcome (uf_mkdir env) = inr r) ->
  (forall i, (1 <= i <= List.length before)%nat -> clean_put (uf_file env i)) ->
  failing_put e (uf_file env (S (List.length before))) ->
  let r := upload_files env csv dir s in
  let dir' := normalize_remote dir in
  fst r = inr tt /\
  stored (snd r) = (stored s ++ map (destination dir') before)%list /\
  exists (tr : list effect) (attempted : list (string * string)),
    trace (snd r) =
      (trace s ++ tr ++ [finished false ("Upload failed: " ++ exn_str e)])%list /\
    no_finished tr /\
    put_calls tr = (map (fun p => (p, destination dir' p)) before ++ attempted)%list /\
    (attempted = [] \/ attempted = [(lp, destination dir' lp)]) /\
    exec_calls tr = ["mkdir -p '" ++ dir' ++ "'"].
Proof.
  intros Hc Hssh Hsftp Hsplit Hmk [r0 Hmk'] Hclean Hfail. cbv zeta.
  assert (Hne : split_paths csv <> []) by (rewrite Hsplit; destruct before; discriminate).
  rewrite (upload_files_connected env csv dir s h1 h2 r0 Hne Hssh Hsftp Hmk').
  cbv zeta. rewrite Hmk, Hsplit.
  set (dir' := normalize_remote dir). set (paths := (before ++ lp :: after)%list).
  set (s2 := with_effect _ (with_effect _ s)).
  destruct (upload_loop_clean env dir' (List.length paths) before (lp :: after) 1 s2 h2)
    as (s3 & tr3 & R3 & C3 & Se3 & St3 & T3 & P3 & X3 & Q3);
    [exact Hc|exact Hsftp|intros i Hi; apply Hclean; lia|].
  fold paths in R3.
  destruct (upload_one_failing env dir' (List.length paths) (1 + List.length before)
              lp s3 h2 e C3)
    as (s4 & tr4 & attempted & R4 & St4 & T4 & P4 & Hatt & X4 & Q4);
    [now rewrite Se3|exact Hfail|].
  assert (L : for_each_from 1 paths (upload_one env dir' (List.length paths)) s2
              = (inl e, s4)).
  { rewrite R3. cbn [for_each_from]. unfold bind at 1. now rewrite R4. }
  rewrite L. cbn [fst snd].
  split; [reflexivity|]. split; [cbn; rewrite St4, St3; reflexivity|].
  exists ([status ("Ensuring remote dir: " ++ dir');
           Call (SSHClient_exec_command h1 ("mkdir -p '" ++ dir' ++ "'") 60)]
          ++ tr3 ++ tr4)%list, attempted.
  split.
  { cbn [with_effect trace]. rewrite T4, T3. cbn [s2 with_effect trace].
    rewrite <- !app_assoc. reflexivity. }
  unfold put_calls, exec_calls, no_finished in *.
  rewrite !flat_map_app, P3, P4, X3, X4. cbn.
  repeat split; [|exact Hatt].
  repeat (constructor; [reflexivity|]). apply Forall_app. auto.
Qed.

Lemma upload_files_first_failure_witness :
  let r := upload_files three_files_second_fails
             "/home/u/a.txt|/home/u/b.bin|/home/u/c.txt" "/srv//data"
             connected_state in
  fst r = inr tt /\
  stored (snd r) = ["/srv/data/a.txt"] /\
  exists (tr : list effect) (attempted : list (string * string)),
    trace (snd r) =
      (tr ++ [finished false "Upload failed: Socket is closed"])%list /\
    no_finished tr /\
    put_calls tr = (("/home/u/a.txt", "/srv/data/a.txt") :: attempted)%list /\
    (attempted = [] \/ attempted = [("/home/u/b.bin", "/srv/data/b.bin")]) /\
    exec_calls tr = ["mkdir -p '/srv/data'"].
Proof.
  apply (upload_files_first_failure three_files_second_fails
           "/home/u/a.txt|/home/u/b.bin|/home/u/c.txt" "/srv//data"
           connected_state 1 2 ["/home/u/a.txt"] ["/home/u/c.txt"] "/home/u/b.bin"
           (Exn OtherException "Socket is closed")); try reflexivity.
  - now exists (0, "", "").
  - intros i Hi. cbn [List.length] in Hi. assert (i = 1%nat) as -> by lia.
    repeat split; [now exists 40000|repeat constructor].
  - repeat split; [repeat constructor|]. right. split; [now exists 100000|reflexivity].
Defined.

(** X12: Cancel pressed before the first file is looked at (before the job
    starts, or while the remote [mkdir -p] runs) stops [upload_files] with
    [finished(False, "Upload failed: Cancelled")]: the [mkdir -p] command is
    still issued, but no file size is read and no [put] is made. *)
Theorem upload_files_cancelled_before_first (env : upload_files_env)
    (csv dir : string) (s : state) (h1 h2 : handle) :
  ssh (session s) = Some h1 -> sftp (session s) = Some h2 ->
  split_paths csv <> [] ->
  (exists r, outcome (uf_mkdir env) = inr r) ->
  _cancel s = true \/ cancel_pressed (uf_mkdir env) = true ->
  let r := upload_files env csv dir s in
  let dir' := normalize_remote dir in
  fst r = inr tt /\
  stored (snd r) = stored s /\
  trace (snd r) =
    (trace s ++
     [status ("Ensuring remote dir: " ++ dir');
      Call (SSHClient_exec_command h1 ("mkdir -p '" ++ dir' ++ "'") 60);
      finished false "Upload failed: Cancelled"])%list.
Proof.
  intros Hssh Hsftp Hne [r0 Hmk'] Hcancel. cbv zeta.
  rewrite (upload_files_connected env csv dir s h1 h2 r0 Hne Hssh Hsftp Hmk').
  cbv zeta.
  set (dir' := normalize_remote dir). set (s2 := with_effect _ (with_effect _ s)).
  set (s3 := if cancel_pressed (uf_mkdir env) then with_cancel true s2 else s2).
  assert (C3 : _cancel s3 = true).
  { subst s3. destruct (cancel_pressed (uf_mkdir env)); [reflexivity|].
    destruct Hcancel as [H|H]; [exact H|discriminate]. }
  assert (T3 : trace s3 = trace s2 /\ stored s3 = stored s)
    by (subst s3; destruct (cancel_pressed (uf_mkdir env)); split; reflexivity).
  destruct (split_paths csv) as [|lp rest]; [congruence|].
  assert (L : for_each_from 1 (lp :: rest)
                (upload_one env dir' (List.length (lp :: rest))) s3
              = (inl cancelled, s3)).
  { cbn [for_each_from]. unfold bind at 1.
    now rewrite (upload_one_flag_set env dir' _ 1 lp s3 C3). }
  rewrite L. cbn [fst snd].
  split; [reflexivity|]. destruct T3 as [T3 S3]. split; [exact S3|].
  cbn [with_effect trace exn_str cancelled]. rewrite T3. cbn [s2 with_effect trace].
  rewrite <- !app_assoc. reflexivity.
Qed.

Lemma upload_files_cancelled_before_first_witness :
  let r := upload_files
             {| uf_mkdir := Reply true (inr (0, "", ""));
                uf_file := uf_file three_files_clean |}
             "/home/u/a.txt|/home/u/b.bin" "/srv/data/" connected_state in
  fst r = inr tt /\
  stored (snd r) = [] /\
  trace (snd r) =
    [status "Ensuring remote dir: /srv/data/";
     Call (SSHClient_exec_command 1 "mkdir -p '/srv/data/'" 60);
     finished false "Upload failed: Cancelled"].
Proof.
  apply (upload_files_cancelled_before_first
           {| uf_mkdir := Reply true (inr (0, "", ""));
              uf_file := uf_file three_files_clean |}
           "/home/u/a.txt|/home/u/b.bin" "/srv/data/" connected_state 1 2);
    try reflexivity.
  - discriminate.
  - now exists (0, "", "").
  - now right.
Defined.

(** X13: on a session that is not connected, [upload_files] with something
    to upload announces the remote directory and then ends with
    [finished(False, "Upload failed: Not connected")], whatever the
    environment would answer: no call leaves the program. *)
Theorem upload_files_not_connected (env : upload_files_env) (csv dir : string)
    (s : state) :
  is_connected (session s) = false ->
  split_paths csv <> [] ->
  upload_files env csv dir s =
  (inr tt,
   with_effect (finished false "Upload failed: Not connected")
     (with_effect (status ("Ensuring remote dir: " ++ normalize_remote dir)) s)).
Proof.
  intros Hconn Hne. unfold upload_files. cbv zeta.
  destruct (split_paths csv) as [|lp rest]; [congruence|].
  unfold try_except. unfold bind at 1. unfold emit at 1, modify.
  unfold bind at 1. unfold exec. unfold bind at 1. unfold get.
  cbn [session with_effect]. rewrite Hconn. reflexivity.
Qed.

Lemma upload_files_not_connected_witness :
  upload_files three_files_clean "/home/u/a.txt" "srv\data"
    {| session := SshSftpSession_init; _cancel := false; window := MainWindow_init;
       stored := []; fetched := []; trace := [] |} =
  (inr tt,
   {| session := SshSftpSession_init; _cancel := false; window := MainWindow_init;
      stored := []; fetched := [];
      trace := [status "Ensuring remote dir: srv/data";
                finished false "Upload failed: Not connected"] |}).
Proof.
  rewrite (upload_files_not_connected three_files_clean "/home/u/a.txt" "srv\data").
  - vm_compute. reflexivity.
  - reflexivity.
  - discriminate.
Defined.

(** ** The percentage at the ends of a transfer *)

Section PercentageFacts.

Lemma scaled_percent_mono (x y : Q) :
  (x <= y)%Q ->
  PyFloat.int_of (PyFloat.mul_int (PyFloat.round53 x) 100) <=
  PyFloat.int_of (PyFloat.mul_int (PyFloat.round53 y) 100).
Proof.
  intros H. unfold PyFloat.mul_int. apply int_of_mono, round53_mono.
  apply Qmult_le_compat_r; [|discriminate]. now apply round53_mono.
Qed.

(** The percentage depends on the quotient only. *)
Lemma scaled_percent_eq (x y : Q) :
  (x == y)%Q ->
  PyFloat.int_of (PyFloat.mul_int (PyFloat.round53 x) 100) =
  PyFloat.int_of (PyFloat.mul_int (PyFloat.round53 y) 100).
Proof.
  intros H. apply Z.le_antisymm; apply scaled_percent_mono; rewrite H; apply Qle_refl.
Qed.

Lemma percentage_all (total : Z) : 0 < total -> percentage total total = inr 100.
Proof.
  intros H. unfold percentage, PyFloat.truediv.
  assert (E : (total =? 0) = false) by (apply Z.eqb_neq; lia). rewrite E.
  f_equal. rewrite (scaled_percent_eq _ 1%Q); [vm_compute; reflexivity|].
  apply Qmult_inv_r. intros C. unfold Qeq in C. cbn in C. lia.
Qed.

Lemma percentage_none (total : Z) : 0 < total -> percentage 0 total = inr 0.
Proof.
  intros H. unfold percentage, PyFloat.truediv.
  assert (E : (total =? 0) = false) by (apply Z.eqb_neq; lia). rewrite E.
  reflexivity.
Qed.

End PercentageFacts.

(** X14: for a file of [total > 0] bytes and a byte count
    [0 <= tx <= total], [int((tx / total) * 100)] computed in floating
    point is defined and lies within 0..100, so the clamp of the callback
    leaves it alone; it is exactly 0 at [tx = 0] and exactly 100 at
    [tx = total], whatever the size. *)
Theorem percentage_bounds (tx total : Z) :
  0 < total -> 0 <= tx <= total ->
  exists p : Z,
    percentage tx total = inr p /\ 0 <= p <= 100 /\ clamp p = p /\
    (tx = 0 -> p = 0) /\ (tx = total -> p = 100).
Proof.
  intros Ht [H0 H1].
  destruct (percentage_defined tx total) as [p Hp]; [lia|].
  exists p. split; [exact Hp|].
  pose proof (percentage_mono 0 tx total 0 p Ht H0 (percentage_none total Ht) Hp) as L.
  pose proof (percentage_mono tx total total p 100 Ht H1 Hp (percentage_all total Ht)) as U.
  split; [lia|]. split; [unfold clamp; lia|]. split.
  - intros ->. rewrite (percentage_none total Ht) in Hp. congruence.
  - intros ->. rewrite (percentage_all total Ht) in Hp. congruence.
Qed.

Lemma percentage_bounds_witness :
  exists p : Z,
    percentage 98304 100000 = inr p /\ 0 <= p <= 100 /\ clamp p = p /\
    (98304 = 0 -> p = 0) /\ (98304 = 100000 -> p = 100).
Proof. apply (percentage_bounds 98304 100000); lia. Defined.

(** ** Downloads *)

(** The size lookup of [_get_file] gives nothing to divide by: [sftp.stat]
    raises, or reports no size, or a size that is not positive. *)
Definition size_unknown (env : get_env) : Prop :=
  match outcome (stat_reply env) with
  | inl _ => True
  | inr None => True
  | inr (Some size_) => size_ <= 0
  end.

Definition get_without_size : get_env :=
  {| stat_reply := raises (Exn OtherException "No such file");
     get_transfer := four_blocks |}.

(** X15: when the size of the remote file cannot be found, [_get_file]
    goes on all the same: the failure of [sftp.stat] is swallowed, the
    callbacks emit no percentage, and the only progress events are the 0
    before [sftp.get] and the 100 after it when it succeeds.  The download
    fails only if [sftp.get] does or Cancel is seen. *)
Theorem get_file_unknown_size (env : get_env) (rp lp : string) (s : state)
    (h : handle) :
  sftp (session s) = Some h -> size_unknown env ->
  let r := _get_file env rp lp None s in
  let res := transfer_result (get_transfer env)
               (cancel_pressed (stat_reply env) || _cancel s) in
  fst r = res /\
  trace (snd r) =
    (trace s ++
     [Call (SFTPClient_stat h rp);
      status ("Downloading: " ++ posixpath.basename rp);
      progress 0;
      Call (SFTPClient_get h rp lp)] ++
     match res with inr _ => [progress 100] | inl _ => [] end)%list /\
  fetched (snd r) =
    (fetched s ++ match res with inr _ => [lp] | inl _ => [] end)%list.
Proof.
  intros Hh Hsize. cbv zeta. rewrite get_file_run. cbn [fst snd trace fetched].
  rewrite Hh. unfold get_file_result, get_file_effects, get_file_fetched,
    get_file_result, flag_after_stat, stat_effects.
  assert (K : known_size (found_size (Some h) env None) <= 0).
  { unfold found_size, size_unknown in *.
    destruct (outcome (stat_reply env)) as [e|[z|]]; cbn; lia. }
  rewrite (cb_steps_no_size _ _ _ K). repeat split.
Qed.

Lemma get_file_unknown_size_witness :
  let r := _get_file get_without_size "/srv/b.bin" "/home/u/b.bin" None
             connected_state in
  fst r = inr tt /\
  trace (snd r) =
    [Call (SFTPClient_stat 2 "/srv/b.bin"); status "Downloading: b.bin";
     progress 0; Call (SFTPClient_get 2 "/srv/b.bin" "/home/u/b.bin");
     progress 100] /\
  fetched (snd r) = ["/home/u/b.bin"].
Proof.
  apply (get_file_unknown_size get_without_size "/srv/b.bin" "/home/u/b.bin"
           connected_state 2); [reflexivity|exact I].
Defined.

(** The [sftp.get] calls among the effects. *)
Definition get_calls (tr : list effect) : list (string * string) :=
  flat_map (fun e => match e with
                     | Call (SFTPClient_get _ rp lp) => [(rp, lp)]
                     | _ => []
                     end) tr.

(** A download that nobody cancels and that succeeds, whatever the size
    lookup gives. *)
Definition clean_get (e : get_env) : Prop :=
  cancel_pressed (stat_reply e) = false /\
  Forall (fun c => chunk_cancel c = false) (callbacks (get_transfer e)) /\
  completion (get_transfer e) = returns tt.

(** Where [download_files] puts the remote file [rp]. *)
Definition local_target (local_dir rp : string) : string :=
  posixpath_join local_dir (posixpath.basename (PyStr.rstrip_char "/" rp)).

(** The body of the loop of [download_files]. *)
Definition download_one (env : download_files_env) (local_dir : string) (n i : nat)
    (rp : string) : M unit :=
  check_cancel ;;
  let fname := posixpath.basename (PyStr.rstrip_char "/" rp) in
  let lp := posixpath_join local_dir fname in
  emit (status ("[" ++ str_of_nat i ++ "/" ++ str_of_nat n
                ++ "] Downloading -> " ++ lp)) ;;
  _get_file (df_file env i) rp lp None.

Section DownloadFacts.

Lemma only_progress_get (tr : list effect) :
  Forall (fun e => exists pct, e = progress pct) tr -> get_calls tr = [].
Proof. induction 1 as [|e tr [pct ->] _ IH]; [reflexivity|exact IH]. Qed.

(** What the effects of one [_get_file] contain. *)
Lemma get_file_effects_summary (h : handle) (env : get_env) (rp lp : string)
    (flag : bool) :
  let tr := get_file_effects (Some h) env rp lp None flag in
  get_calls tr = [(rp, lp)] /\ exec_calls tr = [] /\ no_finished tr.
Proof.
  cbv zeta. unfold get_file_effects, stat_effects.
  set (steps := cb_steps _ _ _).
  pose proof (cb_steps_progress (known_size (found_size (Some h) env None))
                (flag_after_stat (Some h) env None flag)
                (callbacks (get_transfer env))) as Hp.
  fold steps in Hp.
  destruct (only_progress _ Hp) as (_ & P2 & P3).
  pose proof (only_progress_get _ Hp) as P1.
  set (last_ := match transfer_result _ _ with inr _ => [progress 100] | inl _ => [] end).
  assert (L : get_calls last_ = [] /\ exec_calls last_ = [] /\ no_finished last_).
  { subst last_. destruct (transfer_result _ _); repeat split; repeat constructor. }
  destruct L as (L1 & L2 & L3).
  unfold get_calls, exec_calls, no_finished in *.
  cbn [flat_map app]. rewrite !flat_map_app, P1, P2, L1, L2.
  repeat split. repeat (constructor; [reflexivity|]).
  apply Forall_app. auto.
Qed.

Section Loop.
Context (env : download_files_env) (local_dir : string) (n : nat).

Lemma download_one_clean (i : nat) (rp : string) (s : state) (h : handle) :
  _cancel s = false -> sftp (session s) = Some h -> clean_get (df_file env i) ->
  exists s' tr,
    download_one env local_dir n i rp s = (inr tt, s') /\
    _cancel s' = false /\ session s' = session s /\
    fetched s' = (fetched s ++ [local_target local_dir rp])%list /\
    trace s' = (trace s ++ tr)%list /\
    get_calls tr = [(rp, local_target local_dir rp)] /\
    exec_calls tr = [] /\ no_finished tr.
Proof.
  intros Hc Hh (Hp & Hcs & Hdone).
  unfold download_one, check_cancel. unfold bind at 1. unfold bind at 1, get.
  rewrite Hc. unfold ret. cbv zeta. unfold bind at 1, emit, modify.
  rewrite get_file_run. fold (local_target local_dir rp).
  cbn [session _cancel with_effect trace stored fetched window]. rewrite Hh, Hc.
  destruct (cb_clean _ Hcs) as [Hr Hf].
  assert (Hres : get_file_result (Some h) (df_file env i) None false = inr tt).
  { unfold get_file_result, transfer_result, flag_after_stat. rewrite Hp. cbn [orb].
    now rewrite Hr, Hdone. }
  assert (Hflag : get_file_flag (Some h) (df_file env i) None false = false).
  { unfold get_file_flag, transfer_flag, flag_after_stat. rewrite Hp. cbn [orb].
    now rewrite Hr, Hf, Hdone. }
  unfold get_file_fetched. rewrite Hres, Hflag.
  eexists _, _. split; [reflexivity|]. cbn [session _cancel fetched trace].
  repeat split; [rewrite <- app_assoc; reflexivity| | |].
  all: destruct (get_file_effects_summary h (df_file env i) rp
                   (local_target local_dir rp) false) as (S1 & S2 & S3).
  - cbn. exact S1.
  - cbn. exact S2.
  - constructor; [reflexivity|exact S3].
Qed.

Lemma download_loop_clean (files : list string) (i0 : nat) (s : state) (h : handle) :
  _cancel s = false -> sftp (session s) = Some h ->
  (forall i, (i0 <= i < i0 + List.length files)%nat -> clean_get (df_file env i)) ->
  exists s' tr,
    for_each_from i0 files (download_one env local_dir n) s = (inr tt, s') /\
    _cancel s' = false /\ session s' = session s /\
    fetched s' = (fetched s ++ map (local_target local_dir) files)%list /\
    trace s' = (trace s ++ tr)%list /\
    get_calls tr = map (fun rp => (rp, local_target local_dir rp)) files /\
    exec_calls tr = [] /\ no_finished tr.
Proof.
  revert i0 s. induction files as [|rp files IH]; intros i0 s Hc Hh Hclean.
  - exists s, []. cbn [for_each_from map]. rewrite !app_nil_r.
    repeat split; auto. constructor.
  - destruct (download_one_clean i0 rp s h Hc Hh) as
      (s1 & tr1 & R1 & C1 & Se1 & St1 & T1 & P1 & X1 & Q1).
    { apply Hclean. cbn [List.length]. lia. }
    destruct (IH (S i0) s1 C1) as (s2 & tr2 & R2 & C2 & Se2 & St2 & T2 & P2 & X2 & Q2).
    { now rewrite Se1. }
    { intros i Hi. apply Hclean. cbn [List.length]. lia. }
    exists s2, (tr1 ++ tr2)%list.
    cbn [for_each_from map]. unfold bind at 1. rewrite R1, R2.
    split; [reflexivity|]. split; [exact C2|]. split; [congruence|].
    split; [rewrite St2, St1, <- app_assoc; reflexivity|].
    split; [rewrite T2, T1, <- app_assoc; reflexivity|].
    unfold get_calls, exec_calls, no_finished in *.
    rewrite !flat_map_app, P1, P2, X1, X2.
    repeat split. apply Forall_app. auto.
Qed.

End Loop.

End DownloadFacts.

Definition two_downloads : download_files_env :=
  {| df_abspath := "/home/u/in";
     df_makedirs := returns tt;
     df_file := fun i =>
       match i with
       | 1%nat => {| stat_reply := returns (Some 100000); get_transfer := four_blocks |}
       | _ => get_without_size
       end |}.

(** X16: when the local directory can be made and every file comes through
    with nobody pressing Cancel, [download_files] ends with
    [finished(True, "Download completed.")], having called [get] once per
    remote path, in order, each into
    [os.path.join(local_dir, basename(path.rstrip("/")))]; no remote command
    is run, and a size lookup that fails does not matter. *)
Theorem download_files_success (env : download_files_env) (csv dir : string)
    (s : state) (h : handle) :
  _cancel s = false -> sftp (session s) = Some h ->
  split_paths csv <> [] ->
  df_makedirs env = returns tt ->
  (forall i, (1 <= i <= List.length (split_paths csv))%nat -> clean_get (df_file env i)) ->
  let r := download_files env csv dir s in
  let target := local_target (df_abspath env) in
  fst r = inr tt /\
  fetched (snd r) = (fetched s ++ map target (split_paths csv))%list /\
  exists tr : list effect,
    trace (snd r) =
      (trace s ++ Call (os_makedirs (df_abspath env)) :: tr
               ++ [finished true "Download completed."])%list /\
    no_finished tr /\
    get_calls tr = map (fun rp => (rp, target rp)) (split_paths csv) /\
    exec_calls tr = [].
Proof.
  intros Hc Hsftp Hne Hmk Hclean. cbv zeta.
  unfold download_files. cbv zeta.
  set (paths := split_paths csv) in *. set (dir' := df_abspath env).
  change (fun (i : nat) (rp0 : string) => _)
    with (download_one env dir' (List.length paths)).
  set (body := (for_each_from 1 paths (download_one env dir' (List.length paths));;
                emit (finished true "Download completed."))).
  assert (Hm : match paths with
               | [] => emit (finished false "No remote files selected.")
               | _ :: _ => body
               end = body) by (destruct paths; congruence).
  rewrite Hm. clear Hm.
  set (s1 := with_effect (Call (os_makedirs dir')) s).
  destruct (download_loop_clean env dir' (List.length paths) paths 1 s1 h)
    as (s2 & tr2 & R2 & C2 & Se2 & St2 & T2 & P2 & X2 & Q2);
    [exact Hc|exact Hsftp|intros i Hi; apply Hclean; lia|].
  match goal with |- context [try_except ?b ?f s] =>
    assert (L : try_except b f s =
                (inr tt, with_effect (finished true "Download completed.") s2))
  end.
  { unfold try_except. unfold bind at 1. unfold do_call, come_back. rewrite Hmk.
    cbn [returns cancel_pressed outcome]. fold s1. unfold body. unfold bind at 1.
    now rewrite R2. }
  rewrite L. cbn [fst snd with_effect trace fetched].
  split; [reflexivity|]. split; [rewrite St2; reflexivity|].
  exists tr2. split; [|auto].
  rewrite T2. cbn [s1 with_effect trace]. rewrite <- !app_assoc. reflexivity.
Qed.

Lemma download_files_success_witness :
  let r := download_files two_downloads "/srv/data/b.bin|/srv/data/logs/" "in"
             connected_state in
  fst r = inr tt /\
  fetched (snd r) = ["/home/u/in/b.bin"; "/home/u/in/logs"] /\
  exists tr : list effect,
    trace (snd r) =
      (Call (os_makedirs "/home/u/in") :: tr
       ++ [finished true "Download completed."])%list /\
    no_finished tr /\
    get_calls tr = [("/srv/data/b.bin", "/home/u/in/b.bin");
                    ("/srv/data/logs/", "/home/u/in/logs")] /\
    exec_calls tr = [].
Proof.
  apply (download_files_success two_downloads "/srv/data/b.bin|/srv/data/logs/" "in"
           connected_state 2); try reflexivity.
  - discriminate.
  - intros i _. destruct i as [|[|i]]; repeat split; repeat constructor.
Defined.

(** X17: [download_files] does not look at the connection before it
    starts.  On a session without an SFTP channel it still creates the
    local directory, announces the first file, swallows the failure of the
    size lookup, and only then fails, with the [AttributeError] of calling
    [get] on [None] as its message. *)
Theorem download_files_not_connected (env : download_files_env) (csv dir : string)
    (s : state) (rp : string) (rest : list string) :
  sftp (session s) = None -> _cancel s = false ->
  split_paths csv = rp :: rest ->
  df_makedirs env = returns tt ->
  let r := download_files env csv dir s in
  let lp := local_target (df_abspath env) rp in
  fst r = inr tt /\ fetched (snd r) = fetched s /\
  trace (snd r) =
    (trace s ++
     [Call (os_makedirs (df_abspath env));
      status ("[1/" ++ str_of_nat (S (List.length rest)) ++ "] Downloading -> " ++ lp);
      status ("Downloading: " ++ posixpath.basename rp);
      progress 0;
      finished false
        "Download failed: 'NoneType' object has no attribute 'get'"])%list.
Proof.
  intros Hsftp Hc Hsplit Hmk. cbv zeta.
  remember (download_files env csv dir s) as r eqn:R.
  unfold download_files in R. cbv zeta in R. rewrite Hsplit in R.
  unfold try_except in R. unfold bind at 1 in R. unfold do_call, come_back in R.
  rewrite Hmk in R. cbn [returns cancel_pressed outcome for_each_from] in R.
  unfold bind at 1 in R. unfold bind at 1 in R. unfold bind at 1 in R.
  unfold check_cancel at 1 in R. unfold bind at 1 in R. unfold get at 1 in R.
  cbn [with_effect _cancel] in R. rewrite Hc in R. unfold ret at 1 in R.
  unfold bind at 1 in R. unfold emit at 1, modify at 1 in R.
  rewrite get_file_run in R.
  cbn [session with_effect _cancel trace fetched] in R. rewrite Hsftp in R.
  cbn [get_file_result emit modify fst snd with_effect trace fetched
       get_file_fetched get_file_effects stat_effects app exn_str no_attribute] in R.
  subst r. cbn [fst snd trace fetched]. rewrite app_nil_r. repeat split.
  cbn [emit modify snd with_effect trace]. rewrite <- !app_assoc. reflexivity.
Qed.

Lemma download_files_not_connected_witness :
  let r := download_files two_downloads "/srv/data/b.bin" "in"
             {| session := SshSftpSession_init; _cancel := false;
                window := MainWindow_init; stored := []; fetched := [];
                trace := [] |} in
  fst r = inr tt /\ fetched (snd r) = [] /\
  trace (snd r) =
    [Call (os_makedirs "/home/u/in");
     status "[1/1] Downloading -> /home/u/in/b.bin";
     status "Downloading: b.bin";
     progress 0;
     finished false "Download failed: 'NoneType' object has no attribute 'get'"].
Proof.
  apply (download_files_not_connected two_downloads "/srv/data/b.bin" "in"
           {| session := SshSftpSession_init; _cancel := false;
              window := MainWindow_init; stored := []; fetched := [];
              trace := [] |} "/srv/data/b.bin" []); reflexivity.
Defined.

(** ** Names of transferred files *)

Section NameFacts.

Lemma basename_slash_free (s : string) :
  PyStr.contains "/" (posixpath.basename s) = false.
Proof.
  induction s as [|c t IH]; [reflexivity|].
  cbn [posixpath.basename]. destruct (PyStr.contains "/" (String c t)) eqn:E.
  - exact IH.
  - exact E.
Qed.



End NameFacts.

(** X18: an uploaded file keeps its name.  The destination that
    [upload_files] computes for a local path has the same base name as the
    local path, and its directory is the normalized remote directory (less
    a trailing slash), whatever the two paths are. *)
Theorem upload_destination_split (remote_dir lp : string) :
  posixpath.basename (destination remote_dir lp) = posixpath.basename lp /\
  PyStr.or_else (posixpath.dirname (destination remote_dir lp)) "/" =
  PyStr.or_else (PyStr.rstrip_char "/" (normalize_remote remote_dir)) "/".
Proof.
  unfold destination. pose proof (basename_slash_free lp) as Hs.
  destruct (join_remote_shape remote_dir (posixpath.basename lp))
    as (d & -> & Hd & _ & E).
  split; [now apply basename_app|].
  rewrite dirname_segment; [exact E|exact Hs|].
  now apply contains_dslash_segment.
Qed.



(** ** The temporary archive of [upload_folder] *)

(** The paths given to [os.remove] among the effects. *)
Definition remove_calls (tr : list effect) : list string :=
  flat_map (fun e => match e with Call (os_remove p) => [p] | _ => [] end) tr.

Definition is_remove (e : effect) : bool :=
  match e with
  | Call (os_remove _) => true
  | _ => false
  end.

(** Effects none of which satisfies [P], and computations that add only
    such effects. *)
Definition free_of (P : effect -> bool) (tr : list effect) : Prop :=
  Forall (fun e => P e = false) tr.

Definition avoids (P : effect -> bool) {A : Type} (m : M A) : Prop :=
  forall s, exists tr, trace (snd (m s)) = (trace s ++ tr)%list /\ free_of P tr.

Section AvoidFacts.
Context (P : effect -> bool).

Lemma avoids_same_trace {A : Type} (m : M A) :
  (forall s, trace (snd (m s)) = trace s) -> avoids P m.
Proof.
  intros H s. exists []. rewrite H, app_nil_r. split; [reflexivity|constructor].
Qed.

Lemma avoids_ret {A : Type} (a : A) : avoids P (ret a).
Proof. now apply avoids_same_trace. Qed.

Lemma avoids_raise {A : Type} (e : exn) : avoids P (@raise A e).
Proof. now apply avoids_same_trace. Qed.

Lemma avoids_get : avoids P get.
Proof. now apply avoids_same_trace. Qed.

Lemma avoids_lift {A : Type} (r : exn + A) : avoids P (lift r).
Proof. now apply avoids_same_trace. Qed.

Lemma avoids_press_cancel (b : bool) : avoids P (press_cancel b).
Proof. apply avoids_same_trace. intros s. now destruct b. Qed.

Lemma avoids_come_back {A : Type} (r : reply A) : avoids P (come_back r).
Proof.
  apply avoids_same_trace. intros s. unfold come_back.
  now destruct (cancel_pressed r).
Qed.

Lemma avoids_with_stored (p : string) : avoids P (modify (with_stored p)).
Proof. now apply avoids_same_trace. Qed.

Lemma avoids_with_fetched (p : string) : avoids P (modify (with_fetched p)).
Proof. now apply avoids_same_trace. Qed.

Lemma avoids_emit (e : effect) : P e = false -> avoids P (emit e).
Proof.
  intros H s. exists [e]. split; [reflexivity|]. now repeat constructor.
Qed.

Lemma avoids_do_call {A : Type} (c : call) (r : reply A) :
  P (Call c) = false -> avoids P (do_call c r).
Proof.
  intros H s. exists [Call c]. unfold do_call, come_back.
  split; [now destruct (cancel_pressed r)|]. now repeat constructor.
Qed.

Lemma avoids_bind {A B : Type} (m : M A) (k : A -> M B) :
  avoids P m -> (forall a, avoids P (k a)) -> avoids P (bind m k).
Proof.
  intros Hm Hk s. unfold bind. destruct (Hm s) as (tr1 & E1 & Q1).
  destruct (m s) as [[e|a] s1]; cbn [snd] in *.
  - exists tr1. auto.
  - destruct (Hk a s1) as (tr2 & E2 & Q2). exists (tr1 ++ tr2)%list.
    rewrite E2, E1, app_assoc. split; [reflexivity|].
    apply Forall_app. auto.
Qed.

Lemma avoids_try_except {A : Type} (m : M A) (h : exn -> M A) :
  avoids P m -> (forall e, avoids P (h e)) -> avoids P (try_except m h).
Proof.
  intros Hm Hh s. unfold try_except. destruct (Hm s) as (tr1 & E1 & Q1).
  destruct (m s) as [[e|a] s1]; cbn [snd] in *.
  - destruct (Hh e s1) as (tr2 & E2 & Q2). exists (tr1 ++ tr2)%list.
    rewrite E2, E1, app_assoc. split; [reflexivity|].
    apply Forall_app. auto.
  - exists tr1. auto.
Qed.

Lemma avoids_for_each {A : Type} (xs : list A) (body : A -> M unit) :
  (forall x, avoids P (body x)) -> avoids P (for_each xs body).
Proof.
  intros H. induction xs as [|x rest IH]; cbn [for_each].
  - apply avoids_ret.
  - apply avoids_bind; auto.
Qed.

End AvoidFacts.

(** Breaks an [avoids] goal down along the structure of the program. *)
Ltac avoids_step :=
  first
    [ apply avoids_ret | apply avoids_raise | apply avoids_get | apply avoids_lift
    | apply avoids_press_cancel | apply avoids_come_back
    | apply avoids_do_call; reflexivity
    | apply avoids_with_stored | apply avoids_with_fetched
    | apply avoids_emit; reflexivity
    | apply avoids_bind; [|intros ?]
    | apply avoids_try_except; [|intros ?]
    | apply avoids_for_each; intros ?
    | match goal with
      | |- avoids _ (if ?b then _ else _) => destruct b
      | |- avoids _ (match ?x with _ => _ end) => destruct x
      end ].

Section ArchiveFacts.

Lemma exec_never_removes (r : reply (Z * string * string)) (cmd : string) (t : Z) :
  avoids is_remove (exec r cmd t).
Proof. unfold exec. repeat avoids_step. Qed.

Lemma put_file_never_removes (env : put_env) (lp rp : string) :
  avoids is_remove (_put_file env lp rp).
Proof. unfold _put_file, sftp_put, run_transfer, put_cb, check_cancel. repeat avoids_step. Qed.

Lemma get_file_never_removes (env : get_env) (rp lp : string) (size_ : option Z) :
  avoids is_remove (_get_file env rp lp size_).
Proof. unfold _get_file, sftp_get, run_transfer, get_cb, check_cancel. repeat avoids_step. Qed.

Lemma free_of_remove (tr : list effect) : free_of is_remove tr -> remove_calls tr = [].
Proof.
  induction 1 as [|e tr He _ IH]; [reflexivity|].
  cbn [remove_calls flat_map]. fold (remove_calls tr). rewrite IH.
  destruct e as [| | | |c]; try reflexivity. destruct c; try reflexivity. discriminate.
Qed.

(** A computation that either ends the job well after removing a path that
    satisfies [Q] as its last call, or ends it badly, or raises, having
    removed nothing in the last two cases. *)
Definition tidy (Q : string -> Prop) (m : M unit) : Prop :=
  forall s,
    (exists tr p msg,
        fst (m s) = inr tt /\ Q p /\
        trace (snd (m s)) =
          (trace s ++ tr ++ [Call (os_remove p); finished true msg])%list /\
        free_of is_remove tr) \/
    (exists tr msg,
        fst (m s) = inr tt /\
        trace (snd (m s)) = (trace s ++ tr ++ [finished false msg])%list /\
        free_of is_remove tr) \/
    (exists e tr,
        fst (m s) = inl e /\
        trace (snd (m s)) = (trace s ++ tr)%list /\ free_of is_remove tr).

Lemma tidy_fail (Q : string -> Prop) (msg : string) :
  tidy Q (emit (finished false msg)).
Proof.
  intros s. right. left. exists [], msg. repeat split. constructor.
Qed.

Lemma tidy_end (Q : string -> Prop) (p msg : string) (r : reply unit) :
  Q p ->
  tidy Q (try_except (do_call (os_remove p) r) (fun _ => ret tt) ;;
          emit (finished true msg)).
Proof.
  intros Hq s. left. exists [], p, msg.
  unfold bind, try_except, do_call, come_back, emit, modify, ret.
  destruct r as [pressed [e|[]]], pressed;
    cbn [fst snd outcome cancel_pressed with_cancel with_effect trace app];
    rewrite <- app_assoc; repeat split; auto; constructor.
Qed.

Lemma tidy_bind {A : Type} (Q : string -> Prop) (m : M A) (k : A -> M unit) :
  avoids is_remove m ->
  (forall a s, fst (m s) = inr a -> tidy Q (k a)) ->
  tidy Q (bind m k).
Proof.
  intros Hm Hk s. unfold bind. destruct (Hm s) as (tr1 & E1 & Q1).
  specialize (Hk) with (s := s).
  destruct (m s) as [[e|a] s1]; cbn [fst snd] in *.
  - right. right. exists e, tr1. auto.
  - destruct (Hk a eq_refl s1)
      as [(tr2 & p & msg & R & Hq & E2 & Q2)
         |[(tr2 & msg & R & E2 & Q2)|(e & tr2 & R & E2 & Q2)]].
    + left. exists (tr1 ++ tr2)%list, p, msg. rewrite R, E2, E1.
      rewrite <- !app_assoc. repeat split; auto. apply Forall_app. auto.
    + right. left. exists (tr1 ++ tr2)%list, msg. rewrite R, E2, E1.
      rewrite <- !app_assoc. repeat split. apply Forall_app. auto.
    + right. right. exists e, (tr1 ++ tr2)%list. rewrite R, E2, E1, app_assoc.
      repeat split. apply Forall_app. auto.
Qed.

Lemma do_call_result {A : Type} (c : call) (r : reply A) (s : state) (a : A) :
  fst (do_call c r s) = inr a -> outcome r = inr a.
Proof. unfold do_call, come_back. now cbn [fst]. Qed.

Lemma upload_folder_tidy (env : upload_folder_env) (folder dir : string)
    (extract_remote : bool) :
  exists body message,
    upload_folder env folder dir extract_remote =
      try_except body (fun e => emit (finished false (message e))) /\
    tidy (fun p => outcome (uo_tmp env) = inr p) body.
Proof.
  unfold upload_folder. eexists _, (fun e => "Folder upload failed: " ++ exn_str e).
  split; [reflexivity|]. cbv zeta.
  apply tidy_bind; [apply avoids_do_call; reflexivity|intros isdir s0 _].
  destruct (negb isdir); [apply tidy_fail|].
  apply tidy_bind; [apply avoids_do_call; reflexivity|intros tar_path s1 Htmp].
  apply do_call_result in Htmp.
  repeat (apply tidy_bind;
          [solve [repeat first [apply exec_never_removes
                               | apply put_file_never_removes | avoids_step]]
          |intros ? ? _]).
  now apply tidy_end.
Qed.

End ArchiveFacts.

Definition folder_upload (extract : reply (Z * string * string)) : upload_folder_env :=
  {| uo_isdir := returns true;
     uo_abspath := "/home/u/site";
     uo_tmp := returns "/tmp/tmpab12_site.tar.gz";
     uo_tar := returns tt;
     uo_mkdir := returns (0, "", "");
     uo_put := put_100000;
     uo_extract := extract;
     uo_remove := returns tt |}.

(** X20: [upload_folder] removes its temporary archive exactly when the job
    succeeds.  Whatever the outside world does, the job ends with one
    [finished(ok, message)]; if [ok], the call just before it is
    [os.remove] of the path that [NamedTemporaryFile] gave, and that is the
    only removal (a failure of [os.remove] itself is ignored); if not [ok],
    [os.remove] is never called, so an archive already written stays in
    the temporary directory. *)
Theorem upload_folder_archive_removal (env : upload_folder_env)
    (folder dir : string) (extract_remote : bool) (s : state) :
  let r := upload_folder env folder dir extract_remote s in
  exists (tr : list effect) (ok : bool) (msg : string),
    fst r = inr tt /\
    trace (snd r) = (trace s ++ tr ++ [finished ok msg])%list /\
    if ok
    then exists tr0 p,
           outcome (uo_tmp env) = inr p /\
           tr = (tr0 ++ [Call (os_remove p)])%list /\ remove_calls tr0 = []
    else remove_calls tr = [].
Proof.
  cbv zeta.
  destruct (upload_folder_tidy env folder dir extract_remote)
    as (body & message & -> & Hb).
  unfold try_except.
  destruct (Hb s) as [(tr & p & msg & R & Hq & E & Q)
                     |[(tr & msg & R & E & Q)|(e & tr & R & E & Q)]];
    destruct (body s) as [[e'|[]] s1]; cbn [fst snd] in *; try discriminate.
  - exists (tr ++ [Call (os_remove p)])%list, true, msg.
    split; [reflexivity|]. split; [rewrite E, <- !app_assoc; reflexivity|].
    exists tr, p. auto using free_of_remove.
  - exists tr, false, msg. auto using free_of_remove.
  - exists tr, false, (message e'). split; [reflexivity|].
    split; [cbn; rewrite E, <- app_assoc; reflexivity|].
    now apply free_of_remove.
Qed.

Example upload_folder_extract_fails :
  let r := upload_folder (folder_upload (returns (2, "", "tar: short read ")))
             "site" "/srv/www" true connected_state in
  remove_calls (trace (snd r)) = [] /\
  put_calls (trace (snd r)) =
    [("/tmp/tmpab12_site.tar.gz", "/srv/www/site.tar.gz")] /\
  last (trace (snd r)) (progress 0) =
    finished false "Folder upload failed: Remote extract failed: tar: short read".
Proof. repeat split; vm_compute; reflexivity. Qed.

(** ** [download_folder]: nothing is cleaned up before the archive is here *)

(** What [download_folder] does once the archive has been fetched: the
    remote [rm -f], the local extraction, the removal of the local
    archive. *)
Definition after_fetch (e : effect) : bool :=
  match e with
  | Call (SSHClient_exec_command _ cmd _) => PyStr.startswith "rm -f" cmd
  | Call (tarfile_extractall _ _) => true
  | Call (os_remove _) => true
  | _ => false
  end.

(** Computations that leave the list of fetched files alone. *)
Definition keeps_fetched {A : Type} (m : M A) : Prop :=
  forall s, fetched (snd (m s)) = fetched s.

Section FetchFacts.

Lemma keeps_fetched_ret {A : Type} (a : A) : keeps_fetched (ret a).
Proof. now intros s. Qed.

Lemma keeps_fetched_raise {A : Type} (e : exn) : keeps_fetched (@raise A e).
Proof. now intros s. Qed.

Lemma keeps_fetched_get : keeps_fetched get.
Proof. now intros s. Qed.

Lemma keeps_fetched_emit (e : effect) : keeps_fetched (emit e).
Proof. now intros s. Qed.

Lemma keeps_fetched_do_call {A : Type} (c : call) (r : reply A) :
  keeps_fetched (do_call c r).
Proof. intros s. unfold do_call, come_back. now destruct (cancel_pressed r). Qed.

Lemma keeps_fetched_bind {A B : Type} (m : M A) (k : A -> M B) :
  keeps_fetched m -> (forall a, keeps_fetched (k a)) -> keeps_fetched (bind m k).
Proof.
  intros Hm Hk s. unfold bind. specialize (Hm s).
  destruct (m s) as [[e|a] s1]; cbn [snd] in *; [exact Hm|].
  now rewrite Hk.
Qed.

Lemma keeps_fetched_try_except {A : Type} (m : M A) (h : exn -> M A) :
  keeps_fetched m -> (forall e, keeps_fetched (h e)) ->
  keeps_fetched (try_except m h).
Proof.
  intros Hm Hh s. unfold try_except. specialize (Hm s).
  destruct (m s) as [[e|a] s1]; cbn [snd] in *; [|exact Hm].
  now rewrite Hh.
Qed.

End FetchFacts.

Ltac keeps_fetched_step :=
  first
    [ apply keeps_fetched_ret | apply keeps_fetched_raise | apply keeps_fetched_get
    | apply keeps_fetched_emit | apply keeps_fetched_do_call
    | apply keeps_fetched_bind; [|intros ?]
    | apply keeps_fetched_try_except; [|intros ?]
    | match goal with
      | |- keeps_fetched (if ?b then _ else _) => destruct b
      | |- keeps_fetched (match ?x with _ => _ end) => destruct x
      end ].

Section CleanupFacts.

Lemma keeps_fetched_exec (r : reply (Z * string * string)) (cmd : string) (t : Z) :
  keeps_fetched (exec r cmd t).
Proof. unfold exec. repeat keeps_fetched_step. Qed.

Lemma exec_avoids (P : effect -> bool) (r : reply (Z * string * string))
    (cmd : string) (t : Z) :
  (forall h, P (Call (SSHClient_exec_command h cmd t)) = false) ->
  avoids P (exec r cmd t).
Proof.
  intros H. unfold exec. apply avoids_bind; [apply avoids_get|intros s].
  destruct (negb _); [apply avoids_raise|].
  destruct (ssh (session s)); [|apply avoids_raise].
  apply avoids_do_call. apply H.
Qed.

Lemma exec_not_after_fetch (r : reply (Z * string * string)) (cmd : string) (t : Z) :
  PyStr.startswith "rm -f" cmd = false -> avoids after_fetch (exec r cmd t).
Proof. intros H. apply exec_avoids. intros h. exact H. Qed.

Lemma get_file_not_after_fetch (env : get_env) (rp lp : string) (size_ : option Z) :
  avoids after_fetch (_get_file env rp lp size_).
Proof. unfold _get_file, sftp_get, run_transfer, get_cb, check_cancel. repeat avoids_step. Qed.

(** A computation that fetches a file satisfying [Q], or else does nothing
    of what follows a fetch. *)
Definition fetch_first (Q : string -> Prop) (m : M unit) : Prop :=
  forall s, exists tr,
    trace (snd (m s)) = (trace s ++ tr)%list /\
    ((free_of after_fetch tr /\ fetched (snd (m s)) = fetched s) \/
     (exists lp, Q lp /\ fetched (snd (m s)) = (fetched s ++ [lp])%list)).

Lemma fetch_first_bind {A : Type} (Q : string -> Prop) (m : M A) (k : A -> M unit) :
  avoids after_fetch m -> keeps_fetched m ->
  (forall a s, fst (m s) = inr a -> fetch_first Q (k a)) ->
  fetch_first Q (bind m k).
Proof.
  intros Hm Hf Hk s. unfold bind. destruct (Hm s) as (tr1 & E1 & Q1).
  specialize (Hf s). specialize (Hk) with (s := s).
  destruct (m s) as [[e|a] s1]; cbn [fst snd] in *.
  - exists tr1. auto.
  - destruct (Hk a eq_refl s1) as (tr2 & E2 & [[Q2 F2]|(lp & Hq & F2)]);
      exists (tr1 ++ tr2)%list; rewrite E2, E1, app_assoc; (split; [reflexivity|]).
    + left. split; [apply Forall_app; auto|congruence].
    + right. exists lp. split; [exact Hq|congruence].
Qed.

Lemma fetch_first_get (Q : string -> Prop) (env : get_env) (rp lp : string)
    (rest : M unit) :
  Q lp -> keeps_fetched rest -> avoids (fun _ => false) rest ->
  fetch_first Q (_get_file env rp lp None ;; rest).
Proof.
  intros Hq Hk Hr s. unfold bind.
  destruct (get_file_not_after_fetch env rp lp None s) as (tr1 & E1 & Q1).
  pose proof (get_file_run env rp lp None s) as R. cbv zeta in R.
  unfold get_file_fetched in R.
  destruct (_get_file env rp lp None s) as [[e|[]] s1]; cbn [fst snd] in *.
  - exists tr1. split; [exact E1|]. left. split; [exact Q1|].
    injection R as R1 R2. rewrite <- R1 in R2. rewrite R2. cbn. apply app_nil_r.
  - destruct (Hr s1) as (tr2 & E2 & _). exists (tr1 ++ tr2)%list.
    rewrite E2, E1, app_assoc. split; [reflexivity|]. right. exists lp.
    split; [exact Hq|]. rewrite Hk.
    injection R as R1 R2. rewrite <- R1 in R2. rewrite R2. reflexivity.
Qed.

Lemma fetch_first_try_except (Q : string -> Prop) (body : M unit)
    (message : exn -> string) :
  fetch_first Q body ->
  fetch_first Q (try_except body (fun e => emit (finished false (message e)))).
Proof.
  intros Hb s. unfold try_except. destruct (Hb s) as (tr & E & H).
  destruct (body s) as [[e|[]] s1]; cbn [fst snd] in *.
  - exists (tr ++ [finished false (message e)])%list. cbn.
    rewrite E, app_assoc. split; [reflexivity|].
    destruct H as [[Q1 F1]|(lp & Hq & F1)]; [left|right; eauto].
    split; [|exact F1]. apply Forall_app. split; [exact Q1|]. now repeat constructor.
  - exists tr. auto.
Qed.

End CleanupFacts.

(** The name of the archive that [download_folder] makes and fetches. *)
Definition remote_archive (remote_folder : string) (now_ : Z) : string :=
  normalize_remote
    ("/tmp/" ++ posixpath.basename
                  (PyStr.rstrip_char "/" (normalize_remote remote_folder))
     ++ "_" ++ str_of_Z now_ ++ ".tar.gz").

(** X21: [download_folder] cleans up only after the archive has arrived.
    Whatever the outside world does, either the archive has been fetched in
    full into [os.path.join(local_dir, basename(remote_tar))], or the job
    has issued no remote [rm -f], no local extraction and no [os.remove]:
    when the archive command or the transfer fails, or Cancel is pressed,
    the archive made on the server under [/tmp] is left there. *)
Theorem download_folder_cleanup_after_fetch (env : download_folder_env)
    (folder dir : string) (extract_local : bool) (s : state) :
  let r := download_folder env folder dir extract_local s in
  exists tr : list effect,
    trace (snd r) = (trace s ++ tr)%list /\
    ((free_of after_fetch tr /\ fetched (snd r) = fetched s) \/
     (exists now_ : Z,
        outcome (do_time env) = inr now_ /\
        fetched (snd r) =
          (fetched s ++
           [posixpath_join (do_abspath env)
              (posixpath.basename (remote_archive folder now_))])%list)).
Proof.
  cbv zeta.
  set (Q := fun lp : string =>
              exists now_ : Z,
                outcome (do_time env) = inr now_ /\
                lp = posixpath_join (do_abspath env)
                       (posixpath.basename (remote_archive folder now_))).
  assert (H : fetch_first Q (download_folder env folder dir extract_local)).
  { unfold download_folder. apply fetch_first_try_except. cbv zeta.
    apply fetch_first_bind;
      [apply avoids_do_call; reflexivity|apply keeps_fetched_do_call|intros _ _ _].
    apply fetch_first_bind;
      [apply avoids_do_call; reflexivity|apply keeps_fetched_do_call
      |intros now_ s1 Hnow].
    apply do_call_result in Hnow.
    apply fetch_first_bind;
      [apply avoids_emit; reflexivity|apply keeps_fetched_emit|intros _ _ _].
    apply fetch_first_bind;
      [apply exec_not_after_fetch; reflexivity|apply keeps_fetched_exec
      |intros [[code out] err] _ _].
    apply fetch_first_bind;
      [destruct (negb (code =? 0)); [apply avoids_raise|apply avoids_ret]
      |destruct (negb (code =? 0)); [apply keeps_fetched_raise|apply keeps_fetched_ret]
      |intros _ _ _].
    apply fetch_first_bind;
      [apply avoids_emit; reflexivity|apply keeps_fetched_emit|intros _ _ _].
    apply fetch_first_get.
    - exists now_. split; [exact Hnow|reflexivity].
    - repeat first [apply keeps_fetched_exec | keeps_fetched_step].
    - repeat first [apply exec_avoids; reflexivity | avoids_step]. }
  destruct (H s) as (tr & E & [[Q1 F1]|(lp & (now_ & Hn & ->) & F1)]); exists tr.
  - auto.
  - split; [exact E|]. right. exists now_. auto.
Qed.

Definition folder_download (archive : reply (Z * string * string)) (get_ : get_env)
  : download_folder_env :=
  {| do_abspath := "/home/u/in";
     do_makedirs := returns tt;
     do_time := returns 1700000000;
     do_archive := archive;
     do_get := get_;
     do_clean := returns (0, "", "");
     do_extract := returns tt;
     do_remove := returns tt |}.

Example download_folder_archive_fails :
  trace (snd (download_folder
                (folder_download (returns (2, "", " tar: www: Cannot stat "))
                   get_without_size)
                "/srv/www/" "in" true connected_state)) =
  [Call (os_makedirs "/home/u/in"); Call time_time;
   status "Creating archive on remote...";
   Call (SSHClient_exec_command 1
           "tar -czf '/tmp/www_1700000000.tar.gz' -C '/srv' 'www'" 300);
   finished false
     "Folder download failed: Remote archive failed: tar: www: Cannot stat"].
Proof. vm_compute. reflexivity. Qed.

Example download_folder_done :
  let r := download_folder (folder_download (returns (0, "", "")) get_without_size)
             "/srv/www/" "in" true connected_state in
  fetched (snd r) = ["/home/u/in/www_1700000000.tar.gz"] /\
  exec_calls (trace (snd r)) =
    ["tar -czf '/tmp/www_1700000000.tar.gz' -C '/srv' 'www'";
     "rm -f '/tmp/www_1700000000.tar.gz'"] /\
  remove_calls (trace (snd r)) = ["/home/u/in/www_1700000000.tar.gz"] /\
  last (trace (snd r)) (progress 0) = finished true "Folder download completed.".
Proof. repeat split; vm_compute; reflexivity. Qed.

(** ** The window after a disconnect and after a transfer *)

(** [MainWindow.on_disconnect]; resetting the progress bar is presentation. *)
Definition on_disconnect (env : disconnect_env) : M unit :=
  disconnect env ;;
  set_status "Disconnected." ;;
  populate [] ;;
  remote_path_setText "/".

(** [MainWindow.on_transfer_finished], the slot of the worker's [finished];
    [set_busy] only enables and disables buttons. *)
Definition on_transfer_finished (listing : reply (list SFTPAttributes))
    (ok : bool) (message : string) : M unit :=
  if ok
  then set_status message ;; refresh_remote listing
  else set_status message ;;
       emit (Call (QMessageBox_critical "Transfer error" message)).

Section WindowFacts.

Lemma on_disconnect_run (env : disconnect_env) (s : state) :
  on_disconnect env s =
  (inr tt,
   {| session := {| ssh := None; sftp := None;
                    host := host (session s); username := username (session s) |};
      _cancel := cancel_after_disconnect env s;
      window := {| remote_path := "/"; current_path := current_path (window s);
                   entries := []; lbl_status := "Disconnected." |};
      stored := stored s; fetched := fetched s;
      trace := (trace s ++ close_calls (session s)) ++ [connected_changed false] |}).
Proof.
  unfold on_disconnect. unfold bind at 1. rewrite disconnect_run. reflexivity.
Qed.

End WindowFacts.

(** X22: after [on_disconnect], whatever the two [close] calls did, the
    session has no handles, the table is empty, the path field shows [/]
    and the status line [Disconnected.]; and the browsing slots are dead:
    refresh, up and a double click on any row each leave the state as it is
    and call nothing. *)
Theorem on_disconnect_stops_browsing (env : disconnect_env)
    (l : reply (list SFTPAttributes)) (r : Z) (s : state) :
  let s' := snd (on_disconnect env s) in
  is_connected (session s') = false /\
  window s' = {| remote_path := "/"; current_path := current_path (window s);
                 entries := []; lbl_status := "Disconnected." |} /\
  refresh_remote l s' = (inr tt, s') /\
  remote_up l s' = (inr tt, s') /\
  _on_double_click l r s' = (inr tt, s').
Proof.
  cbv zeta. rewrite on_disconnect_run. cbn [snd].
  split; [reflexivity|]. split; [reflexivity|].
  split; [now apply refresh_remote_not_connected|].
  split; [apply remote_up_at_root; vm_compute; reflexivity|].
  unfold _on_double_click, bind, get. cbn [window entries List.length].
  assert (E : (0 <=? r) && (r <? Z.of_nat 0) = false).
  { apply andb_false_iff. destruct (Z.leb_spec 0 r); [right|now left].
    apply Z.ltb_ge. cbn. lia. }
  now rewrite E.
Qed.

(** X23: what the window shows when a job is over.  After a job that
    failed, the status line shows the worker's message and an error box
    repeats it; nothing is listed.  After a job that succeeded on a
    connected session, the remote directory is listed again, and if the
    listing succeeds the status line shows [Remote: <path>], not the
    worker's message. *)
Theorem on_transfer_finished_status (l : reply (list SFTPAttributes))
    (done failed : string) (s : state) :
  is_connected (session s) = true ->
  let p := normalize_remote
             (PyStr.or_else (PyStr.strip (remote_path (window s))) "/") in
  let good := snd (on_transfer_finished l true done s) in
  let bad := snd (on_transfer_finished l false failed s) in
  lbl_status (window good) =
    match outcome l with
    | inr _ => "Remote: " ++ p
    | inl _ => done
    end /\
  (exists h, trace good =
     (trace s ++ Call (SFTPClient_listdir_attr h p) ::
      match outcome l with
      | inr _ => []
      | inl e => [Call (QMessageBox_critical "Remote list failed" (exn_str e))]
      end)%list) /\
  lbl_status (window bad) = failed /\
  entries (window bad) = entries (window s) /\
  trace bad = (trace s ++ [Call (QMessageBox_critical "Transfer error" failed)])%list.
Proof.
  intros Hc. cbv zeta.
  destruct s as [[[h0|] [h1|] host0 user0] c [rp cp es st] sd fd tr];
    try discriminate.
  destruct l as [pressed [e|attrs]], pressed;
    (split; [reflexivity|]);
    (split; [exists h1;
             cbv -[app normalize_remote PyStr.strip PyStr.or_else append
                   sort_entries map];
             rewrite <- ?app_assoc; reflexivity|]);
    repeat split.
Qed.

Lemma on_transfer_finished_status_witness :
  let good := snd (on_transfer_finished (returns example_listing) true
                     "Upload completed." (browsing " /srv//data ")) in
  let bad := snd (on_transfer_finished (returns example_listing) false
                    "Upload failed: Cancelled" (browsing " /srv//data ")) in
  lbl_status (window good) = "Remote: /srv/data" /\
  (exists h, trace good = [Call (SFTPClient_listdir_attr h "/srv/data")]) /\
  lbl_status (window bad) = "Upload failed: Cancelled" /\
  entries (window bad) = [] /\
  trace bad = [Call (QMessageBox_critical "Transfer error" "Upload failed: Cancelled")].
Proof.
  apply (on_transfer_finished_status (returns example_listing) "Upload completed."
           "Upload failed: Cancelled" (browsing " /srv//data ")).
  reflexivity.
Defined.

(** ** Making a remote directory *)

(** [MainWindow.on_remote_mkdir].  [dialog] is what
    [QInputDialog.getText] returns: the text typed and whether OK was
    pressed.  The log pane is presentation. *)
Definition on_remote_mkdir (dialog : string * bool)
    (mkdir_ : reply (Z * string * string))
    (listing : reply (list SFTPAttributes)) : M unit :=
  s <- get ;;
  if negb (is_connected (session s)) then ret tt
  else
    let base := normalize_remote
                  (PyStr.or_else (PyStr.strip (remote_path (window s))) "/") in
    let '(name_, ok) := dialog in
    if negb ok || String.eqb (PyStr.strip name_) "" then ret tt
    else
      let name_ := PyStr.replace "\" "/" (PyStr.strip name_) in
      let newp := join_remote base name_ in
      try_except
        (exec mkdir_ ("mkdir -p '" ++ newp ++ "'") 60 ;;
         refresh_remote listing)
        (fun e => emit (Call (QMessageBox_critical "mkdir failed" (exn_str e)))).

Section MkdirFacts.

Lemma normalize_remote_idem (p : string) :
  normalize_remote (normalize_remote p) = normalize_remote p.
Proof.
  apply normalize_remote_fixpoint.
  - apply normalize_remote_nonempty.
  - apply normalize_remote_backslash_free.
  - apply normalize_remote_no_dslash.
Qed.

Lemma replace_nothing (old new s : string) (k : nat) :
  PyStr.contains old s = false -> k = O ->
  PyStr.replace_from old new k s = s.
Proof.
  intros H ->. induction s as [|c t IH]; [reflexivity|].
  cbn [PyStr.contains] in H. apply orb_false_elim in H. destruct H as [H1 H2].
  cbn [PyStr.replace_from]. rewrite H1, (IH H2). reflexivity.
Qed.

Lemma refresh_remote_current_path (l : reply (list SFTPAttributes)) (s : state) :
  is_connected (session s) = true ->
  current_path (window (snd (refresh_remote l s))) =
  normalize_remote
    (normalize_remote (PyStr.or_else (PyStr.strip (remote_path (window s))) "/")).
Proof.
  destruct s as [[[h0|] [h1|] host0 user0] c [rp cp es st] sd fd tr];
    try discriminate.
  intros _. destruct l as [pressed [e|attrs]], pressed; reflexivity.
Qed.

(** [on_remote_mkdir] once a name has been given: the command, then the
    refresh, whatever the exit status of the command. *)
Lemma on_remote_mkdir_run (nm : string) (mk : reply (Z * string * string))
    (l : reply (list SFTPAttributes)) (s : state) (h1 h2 : handle)
    (res : Z * string * string) :
  ssh (session s) = Some h1 -> sftp (session s) = Some h2 ->
  PyStr.strip nm <> "" -> outcome mk = inr res ->
  let base := normalize_remote
                (PyStr.or_else (PyStr.strip (remote_path (window s))) "/") in
  let newp := join_remote base (PyStr.replace "\" "/" (PyStr.strip nm)) in
  let s1 := with_effect
              (Call (SSHClient_exec_command h1 ("mkdir -p '" ++ newp ++ "'") 60)) s in
  on_remote_mkdir (nm, true) mk l s =
  refresh_remote l (if cancel_pressed mk then with_cancel true s1 else s1).
Proof.
  intros Hssh Hsftp Hnm Hmk. cbv zeta. unfold on_remote_mkdir. unfold bind at 1, get.
  unfold is_connected. rewrite Hssh, Hsftp. cbn [negb orb].
  apply String.eqb_neq in Hnm. rewrite Hnm.
  unfold try_except. unfold bind at 1.
  rewrite (exec_connected _ _ _ s h1 h2 Hssh Hsftp).
  unfold do_call, come_back. rewrite Hmk.
  set (s2 := if cancel_pressed mk then _ else _).
  pose proof (refresh_remote_returns l s2) as R.
  destruct (refresh_remote l s2) as [[e|[]] s3]; [discriminate|reflexivity].
Qed.

End MkdirFacts.

(** X24: the directory that [on_remote_mkdir] makes is the one a double
    click on its row opens.  For a name that, once stripped, is not empty
    and holds no slash or backslash, the command sent is
    [mkdir -p '<target>'] with [target = join_remote(base, name)]; its exit
    status is not looked at, no error box is shown for it and the refresh
    follows; and a double click on a directory row of that name sets the
    path field to the same [target]. *)
Theorem mkdir_then_open (nm : string) (mk : reply (Z * string * string))
    (l1 l2 : reply (list SFTPAttributes)) (s : state) (h1 h2 : handle)
    (res : Z * string * string) (r : Z) (e : RemoteEntry) :
  ssh (session s) = Some h1 -> sftp (session s) = Some h2 ->
  PyStr.strip nm <> "" ->
  PyStr.contains "/" (PyStr.strip nm) = false ->
  PyStr.contains "\" (PyStr.strip nm) = false ->
  outcome mk = inr res ->
  let base := normalize_remote
                (PyStr.or_else (PyStr.strip (remote_path (window s))) "/") in
  let target := join_remote base (PyStr.strip nm) in
  let made := with_effect
                (Call (SSHClient_exec_command h1 ("mkdir -p '" ++ target ++ "'") 60)) s in
  let s1 := snd (on_remote_mkdir (nm, true) mk l1 s) in
  0 <= r -> nth_error (entries (window s1)) (Z.to_nat r) = Some e ->
  is_dir e = true -> name e = PyStr.strip nm ->
  on_remote_mkdir (nm, true) mk l1 s =
    refresh_remote l1 (if cancel_pressed mk then with_cancel true made else made) /\
  remote_path (window (snd (_on_double_click l2 r s1))) = target.
Proof.
  intros Hssh Hsftp Hnm Hs Hb Hmk. cbv zeta. intros Hr He Hd Hname.
  pose proof (on_remote_mkdir_run nm mk l1 s h1 h2 res Hssh Hsftp Hnm Hmk) as R.
  cbv zeta in R. unfold PyStr.replace in R.
  rewrite (replace_nothing "\" "/" _ 0 Hb eq_refl) in R.
  split; [exact R|].
  rewrite (double_click_dir l2 r _ e Hr He Hd), on_remote_cd_path, Hname.
  rewrite R. rewrite refresh_remote_current_path.
  - assert (E : remote_path (window (if cancel_pressed mk
                   then with_cancel true
                          (with_effect (Call (SSHClient_exec_command h1
                             ("mkdir -p '" ++ join_remote (normalize_remote
                                (PyStr.or_else (PyStr.strip (remote_path (window s))) "/"))
                                (PyStr.strip nm) ++ "'") 60)) s)
                   else with_effect (Call (SSHClient_exec_command h1
                             ("mkdir -p '" ++ join_remote (normalize_remote
                                (PyStr.or_else (PyStr.strip (remote_path (window s))) "/"))
                                (PyStr.strip nm) ++ "'") 60)) s))
                = remote_path (window s)) by (destruct (cancel_pressed mk); reflexivity).
    rewrite E, !normalize_remote_idem. now apply join_remote_clean.
  - destruct (cancel_pressed mk); unfold is_connected; cbn [session with_cancel with_effect];
      now rewrite Hssh, Hsftp.
Qed.

Definition listing_with_docs : list SFTPAttributes :=
  [ {| filename := "notes.txt"; st_size := 12; st_mtime := 1700000001; st_mode := 33188 |};
    {| filename := "docs"; st_size := 4096; st_mtime := 1700000002; st_mode := 16877 |} ].

Lemma mkdir_then_open_witness :
  let s1 := snd (on_remote_mkdir (" docs ", true) (returns (1, "", "mkdir: denied"))
                   (returns listing_with_docs) (browsing "/srv/")) in
  on_remote_mkdir (" docs ", true) (returns (1, "", "mkdir: denied"))
    (returns listing_with_docs) (browsing "/srv/") =
    refresh_remote (returns listing_with_docs)
      (with_effect (Call (SSHClient_exec_command 1 "mkdir -p '/srv/docs'" 60))
         (browsing "/srv/")) /\
  remote_path (window (snd (_on_double_click (returns []) 0 s1))) = "/srv/docs".
Proof.
  apply (mkdir_then_open " docs " (returns (1, "", "mkdir: denied"))
           (returns listing_with_docs) (returns []) (browsing "/srv/") 1 2
           (1, "", "mkdir: denied") 0
           {| name := "docs"; is_dir := true; size := 4096; mtime := 1700000002;
              mode := 16877 |}); try reflexivity.
  all: first [discriminate | lia].
Defined.

(** ** The selection of the remote table *)

(** [sorted({...})] on row numbers: the distinct rows in ascending order. *)
Fixpoint insert_row (r : Z) (rows : list Z) : list Z :=
  match rows with
  | [] => [r]
  | x :: rest =>
      if r <? x then r :: rows
      else if r =? x then rows
      else x :: insert_row r rest
  end.

Definition sorted_set (rows : list Z) : list Z := fold_right insert_row [] rows.

(** [RemoteTable.selected_entries]; [selected_rows] holds [i.row()] for
    every selected item [i], so a selected row occurs once per cell. *)
Definition selected_entries (entries_ : list RemoteEntry) (selected_rows : list Z)
  : list RemoteEntry :=
  flat_map
    (fun r =>
       if (0 <=? r) && (r <? Z.of_nat (List.length entries_))
       then match nth_error entries_ (Z.to_nat r) with
            | Some e => [e]
            | None => []
            end
       else [])
    (sorted_set selected_rows).

(** [enumerate(xs, start=k)]. *)
Fixpoint enumerate_from {A : Type} (k : Z) (xs : list A) : list (Z * A) :=
  match xs with
  | [] => []
  | x :: rest => (k, x) :: enumerate_from (k + 1) rest
  end.

Section SelectionFacts.

Lemma existsb_insert_row (k r : Z) (rows : list Z) :
  existsb (Z.eqb k) (insert_row r rows) = (k =? r) || existsb (Z.eqb k) rows.
Proof.
  induction rows as [|x rest IH]; [reflexivity|].
  cbn [insert_row]. destruct (Z.ltb_spec r x); [reflexivity|].
  destruct (Z.eqb_spec r x) as [->|Hne].
  - cbn [existsb]. now destruct (k =? x).
  - cbn [existsb]. rewrite IH. now destruct (k =? r), (k =? x).
Qed.

Lemma existsb_sorted_set (k : Z) (rows : list Z) :
  existsb (Z.eqb k) (sorted_set rows) = existsb (Z.eqb k) rows.
Proof.
  induction rows as [|r rest IH]; [reflexivity|].
  cbn [sorted_set fold_right existsb]. fold (sorted_set rest).
  now rewrite existsb_insert_row, IH.
Qed.

Lemma insert_row_above (x r : Z) (rows : list Z) :
  x < r -> Forall (Z.lt x) rows -> Forall (Z.lt x) (insert_row r rows).
Proof.
  intros Hx H. induction H as [|y rest Hy Hrest IH]; [now repeat constructor|].
  cbn [insert_row]. destruct (r <? y); [now repeat constructor|].
  destruct (r =? y); now constructor.
Qed.

Lemma insert_row_sorted (r : Z) (rows : list Z) :
  StronglySorted Z.lt rows -> StronglySorted Z.lt (insert_row r rows).
Proof.
  induction 1 as [|x rest Hs IH Hx]; [repeat constructor|].
  cbn [insert_row]. destruct (Z.ltb_spec r x).
  - constructor; [now constructor|]. constructor; [assumption|].
    eapply Forall_impl; [|exact Hx]. intros y Hy. lia.
  - destruct (Z.eqb_spec r x); [now constructor|].
    constructor; [exact IH|]. apply insert_row_above; [lia|exact Hx].
Qed.

Lemma sorted_set_sorted (rows : list Z) : StronglySorted Z.lt (sorted_set rows).
Proof.
  induction rows as [|r rest IH]; [constructor|].
  cbn [sorted_set fold_right]. now apply insert_row_sorted.
Qed.

(** The entry that the row [r] picks in a table whose first row has the
    number [k]. *)
Definition pick (es : list RemoteEntry) (k r : Z) : list RemoteEntry :=
  if (k <=? r) && (r <? k + Z.of_nat (List.length es))
  then match nth_error es (Z.to_nat (r - k)) with
       | Some e => [e]
       | None => []
       end
  else [].

Lemma pick_nil (k r : Z) : pick [] k r = [].
Proof.
  unfold pick. destruct ((k <=? r) && _); [|reflexivity]. now destruct (Z.to_nat (r - k)).
Qed.

Lemma pick_below (es : list RemoteEntry) (k r : Z) : r < k -> pick es k r = [].
Proof.
  intros H. unfold pick. destruct (Z.leb_spec k r); [lia|reflexivity].
Qed.

Lemma pick_first (e : RemoteEntry) (es : list RemoteEntry) (k : Z) :
  pick (e :: es) k k = [e].
Proof.
  unfold pick. rewrite Z.leb_refl, Z.sub_diag. cbn [andb Z.to_nat nth_error].
  destruct (Z.ltb_spec k (k + Z.of_nat (List.length (e :: es)))); [reflexivity|].
  cbn [List.length] in *. lia.
Qed.

Lemma pick_later (e : RemoteEntry) (es : list RemoteEntry) (k r : Z) :
  k < r -> pick (e :: es) k r = pick es (k + 1) r.
Proof.
  intros H. unfold pick.
  replace (Z.to_nat (r - k)) with (S (Z.to_nat (r - (k + 1)))) by lia.
  cbn [nth_error List.length].
  destruct (Z.leb_spec k r), (Z.leb_spec (k + 1) r); try lia.
  cbn [andb].
  destruct (Z.ltb_spec r (k + Z.of_nat (S (List.length es)))),
           (Z.ltb_spec r (k + 1 + Z.of_nat (List.length es))); try lia; reflexivity.
Qed.

Lemma not_among_later (k x : Z) (rows : list Z) :
  k <= x -> Forall (Z.lt x) rows -> existsb (Z.eqb k) rows = false.
Proof.
  intros Hk H. induction H as [|y rest Hy _ IH]; [reflexivity|].
  cbn [existsb]. rewrite IH. destruct (Z.eqb_spec k y); [lia|reflexivity].
Qed.

Lemma flat_map_agree {A B : Type} (f g : A -> list B) (l : list A) :
  (forall y, In y l -> f y = g y) -> flat_map f l = flat_map g l.
Proof.
  induction l as [|x rest IH]; intros H; [reflexivity|].
  cbn [flat_map]. rewrite (H x) by now left.
  rewrite IH; [reflexivity|]. intros y Hy. apply H. now right.
Qed.

Lemma pick_cons (e : RemoteEntry) (es : list RemoteEntry) (k : Z) (rows : list Z) :
  StronglySorted Z.lt rows ->
  flat_map (pick (e :: es) k) rows =
  ((if existsb (Z.eqb k) rows then [e] else []) ++ flat_map (pick es (k + 1)) rows)%list.
Proof.
  induction 1 as [|x rest Hs IH Hx]; [reflexivity|].
  cbn [flat_map existsb].
  assert (Later : k <= x ->
            flat_map (pick (e :: es) k) rest = flat_map (pick es (k + 1)) rest).
  { intros Hk. apply flat_map_agree. intros y Hy.
    rewrite Forall_forall in Hx. specialize (Hx y Hy). apply pick_later. lia. }
  destruct (Z.lt_trichotomy x k) as [Hlt|[->|Hgt]].
  - rewrite !pick_below by lia. destruct (Z.eqb_spec k x); [lia|]. exact IH.
  - rewrite Z.eqb_refl, pick_first, pick_below by lia. cbn [orb app].
    now rewrite Later by lia.
  - rewrite (not_among_later k x rest) by (assumption || lia).
    destruct (Z.eqb_spec k x); [lia|]. cbn [orb app].
    rewrite pick_later by lia. now rewrite Later by lia.
Qed.

Lemma flat_map_pick (es : list RemoteEntry) (k : Z) (rows : list Z) :
  StronglySorted Z.lt rows ->
  flat_map (pick es k) rows =
  map snd (filter (fun p => existsb (Z.eqb (fst p)) rows) (enumerate_from k es)).
Proof.
  intros Hs. revert k. induction es as [|e es IH]; intros k.
  - cbn [enumerate_from filter map]. induction rows as [|r rest IHr]; [reflexivity|].
    cbn [flat_map]. rewrite pick_nil. apply IHr. now inversion Hs.
  - rewrite pick_cons by exact Hs. cbn [enumerate_from filter fst].
    rewrite IH. now destruct (existsb (Z.eqb k) rows).
Qed.

End SelectionFacts.

(** X25: [selected_entries] returns, in the order of the table and once
    each, exactly the entries whose row number occurs among the selected
    items.  The order in which items were selected, the number of selected
    cells per row and row numbers outside the table make no difference. *)
Theorem selected_entries_by_row (es : list RemoteEntry) (selected_rows : list Z) :
  selected_entries es selected_rows =
  map snd (filter (fun p => existsb (Z.eqb (fst p)) selected_rows)
             (enumerate_from 0 es)).
Proof.
  unfold selected_entries.
  rewrite (flat_map_ext (fun r => _) (pick es 0)).
  - rewrite flat_map_pick by apply sorted_set_sorted.
    f_equal. apply filter_ext. intros p. apply existsb_sorted_set.
  - intros r. unfold pick. now rewrite Z.sub_0_r.
Qed.

Example selected_entries_ex :
  map name (selected_entries (sort_entries (map entry_of_attr example_listing))
              [2; 7; 0; 2; 0; -1; 2]) = ["B"; "a"].
Proof. vm_compute. reflexivity. Qed.

(** ** Sizes shown in the table *)

(** The magnitude of a float. *)
Definition fabs (f : Q) : Q := if Qle_bool 0 f then f else (- f)%Q.

(** [float(n)] for an integer [n]; the conversion of an integer that
    rounds to [2^1024] or more raises [OverflowError]. *)
Definition float_of_int (n : Z) : exn + Q :=
  let f := PyFloat.round53 (inject_Z n) in
  if Qle_bool (inject_Z (2 ^ 1024)) (fabs f)
  then inl (Exn OtherException "int too large to convert to float")
  else inr f.

(** [f"{f:.1f}"]: the decimal with one digit after the point that is
    nearest to [f], ties going to the even digit. *)
Definition format_1f (f : Q) : string :=
  let t := PyFloat.round_half_even (fabs f * 10) in
  (if Qle_bool 0 f then "" else "-")
  ++ str_of_Z (t / 10) ++ "." ++ str_of_Z (t mod 10).

Definition human_units : list string := ["B"; "KB"; "MB"; "GB"; "TB"].

(** The loop of [human_size] over the units still to try. *)
Fixpoint human_size_loop (units : list string) (f : Q) : string :=
  match units with
  | [] => format_1f f ++ " PB"
  | u :: rest =>
      if negb (Qle_bool 1024 f)
      then if String.eqb u "B"
           then str_of_Z (PyFloat.int_of f) ++ " " ++ u
           else format_1f f ++ " " ++ u
      else human_size_loop rest (PyFloat.round53 (f / 1024))
  end.

(** [human_size]; [n] is [None] when the server sent no size. *)
Definition human_size (n : option Z) : exn + string :=
  match n with
  | None => inr ""
  | Some n =>
      match float_of_int n with
      | inl e => inl e
      | inr f => inr (human_size_loop human_units f)
      end
  end.

Example human_size_ex :
  map human_size [None; Some 0; Some 1023; Some 1024; Some 1536; Some 1048575;
                  Some 5368709120; Some (-7)] =
  map inr [""; "0 B"; "1023 B"; "1.0 KB"; "1.5 KB"; "1024.0 KB"; "5.0 GB"; "-7 B"].
Proof. vm_compute. reflexivity. Qed.

Section SizeFacts.
Local Open Scope Q_scope.

Lemma round53_compat (x y : Q) : x == y -> PyFloat.round53 x == PyFloat.round53 y.
Proof.
  intros H. apply Qle_antisym; apply round53_mono; rewrite H; apply Qle_refl.
Qed.

Lemma round_half_even_compat (x y : Q) :
  x == y -> PyFloat.round_half_even x = PyFloat.round_half_even y.
Proof.
  intros H. apply Z.le_antisymm; apply round_half_even_mono; rewrite H; apply Qle_refl.
Qed.

Lemma int_of_compat (x y : Q) : x == y -> PyFloat.int_of x = PyFloat.int_of y.
Proof.
  intros H. apply Z.le_antisymm; apply int_of_mono; rewrite H; apply Qle_refl.
Qed.

Lemma int_of_Z (n : Z) : PyFloat.int_of (inject_Z n) = n.
Proof.
  unfold PyFloat.int_of. destruct (Qle_bool 0 (inject_Z n));
    [apply Qfloor_Z|apply Qceiling_Z].
Qed.

Lemma fabs_compat (x y : Q) : x == y -> fabs x == fabs y.
Proof. intros H. unfold fabs. rewrite H. now destruct (Qle_bool 0 y); rewrite H. Qed.

Lemma format_1f_compat (x y : Q) : x == y -> format_1f x = format_1f y.
Proof.
  intros H. unfold format_1f.
  rewrite (round_half_even_compat (fabs x * 10) (fabs y * 10))
    by now rewrite (fabs_compat x y H).
  now rewrite H.
Qed.

Lemma human_size_loop_compat (units : list string) (x y : Q) :
  x == y -> human_size_loop units x = human_size_loop units y.
Proof.
  revert x y. induction units as [|u rest IH]; intros x y H; cbn [human_size_loop].
  - now rewrite (format_1f_compat x y H).
  - rewrite (format_1f_compat x y H), (int_of_compat x y H).
    rewrite (IH (PyFloat.round53 (x / 1024)) (PyFloat.round53 (y / 1024)))
      by (apply round53_compat; now rewrite H).
    now rewrite H.
Qed.

(** A number with a significand below [2^53] is a float. *)
Lemma round53_pos_exact (m e : Z) :
  (0 < m < 2 ^ 53)%Z ->
  PyFloat.round53_pos (inject_Z m * 2 ^ e) == inject_Z m * 2 ^ e.
Proof.
  intros [H0 H1]. set (x := inject_Z m * 2 ^ e).
  assert (Hx : 0 < x).
  { apply Qmult_lt_0_compat; [now rewrite <- (Zlt_Qlt 0)|apply two_pow_pos]. }
  destruct (ilog2_spec x Hx) as [L _].
  unfold PyFloat.round53_pos. set (a := PyFloat.ilog2 x) in *.
  assert (Ha : (a - 52 <= e)%Z).
  { destruct (Z_le_gt_dec (a - 52) e) as [|Hgt]; [assumption|exfalso].
    assert (U : x < 2 ^ (53 + e)).
    { unfold x. rewrite Qpower_plus by discriminate.
      apply Qmult_lt_compat_r; [apply two_pow_pos|].
      rewrite <- (Zpower_Qpower 2) by lia. now rewrite <- Zlt_Qlt. }
    assert (M : 2 ^ (53 + e) <= 2 ^ a) by (apply two_pow_mono; lia).
    lra. }
  set (d := (e - (a - 52))%Z).
  assert (E : x / 2 ^ (a - 52) == inject_Z (m * 2 ^ d)).
  { unfold x. rewrite inject_Z_mult, (Zpower_Qpower 2) by (unfold d; lia).
    unfold d. rewrite (Qpower_minus 2 e (a - 52)) by discriminate.
    field. apply Qnot_eq_sym, Qlt_not_eq, two_pow_pos. }
  rewrite (round_half_even_compat _ _ E), round_half_even_Z.
  rewrite inject_Z_mult, (Zpower_Qpower 2) by (unfold d; lia).
  unfold x, d. rewrite (Qpower_minus 2 e (a - 52)) by discriminate.
  field. apply Qnot_eq_sym, Qlt_not_eq, two_pow_pos.
Qed.

Lemma round53_pos_compat (x y : Q) :
  x == y -> 0 < x -> PyFloat.round53_pos x == PyFloat.round53_pos y.
Proof.
  intros H Hx. apply Qle_antisym; apply round53_pos_mono; rewrite <- ?H;
    try exact Hx; rewrite ?H; apply Qle_refl.
Qed.

Lemma round53_exact (m e : Z) :
  (Z.abs m < 2 ^ 53)%Z ->
  PyFloat.round53 (inject_Z m * 2 ^ e) == inject_Z m * 2 ^ e.
Proof.
  intros H. pose proof (two_pow_pos e) as He. unfold PyFloat.round53.
  destruct (Z.lt_trichotomy m 0) as [Hm|[->|Hm]].
  - assert (C : inject_Z m * 2 ^ e < 0).
    { setoid_replace (inject_Z m * 2 ^ e) with (- (inject_Z (- m) * 2 ^ e))
        by (rewrite inject_Z_opp; ring).
      assert (0 < inject_Z (- m) * 2 ^ e);
        [apply Qmult_lt_0_compat; [rewrite <- (Zlt_Qlt 0); lia|exact He]|lra]. }
    pose proof C as C'. rewrite Qlt_alt in C'. rewrite C'.
    assert (E : - (inject_Z m * 2 ^ e) == inject_Z (- m) * 2 ^ e)
      by (rewrite inject_Z_opp; ring).
    rewrite (round53_pos_compat _ _ E) by lra.
    rewrite round53_pos_exact by lia. rewrite inject_Z_opp. ring.
  - assert (C : inject_Z 0 * 2 ^ e == 0) by ring.
    pose proof C as C'. rewrite Qeq_alt in C'. rewrite C'. now rewrite C.
  - assert (C : 0 < inject_Z m * 2 ^ e)
      by (apply Qmult_lt_0_compat; [now rewrite <- (Zlt_Qlt 0)|exact He]).
    pose proof (proj1 (Qgt_alt (inject_Z m * 2 ^ e) 0) C) as C'. rewrite C'.
    apply round53_pos_exact. lia.
Qed.

Lemma round53_Z (n : Z) :
  (Z.abs n < 2 ^ 53)%Z -> PyFloat.round53 (inject_Z n) == inject_Z n.
Proof.
  intros H. assert (X : inject_Z n * 2 ^ 0 == inject_Z n) by (cbn; ring).
  transitivity (PyFloat.round53 (inject_Z n * 2 ^ 0)).
  - apply round53_compat. now symmetry.
  - now rewrite (round53_exact n 0 H).
Qed.

End SizeFacts.

(** [n / 1024^j], as the float that the loop of [human_size] holds after
    [j] divisions. *)
Definition scaled (n : Z) (j : nat) : Q :=
  (inject_Z n * 2 ^ (- (10 * Z.of_nat j)))%Q.

Section HumanSizeFacts.
Local Open Scope Q_scope.

Lemma kib_pow (j : nat) : inject_Z (1024 ^ Z.of_nat j) == 2 ^ (10 * Z.of_nat j).
Proof.
  change 1024%Z with (2 ^ 10)%Z. rewrite <- Z.pow_mul_r by lia.
  apply Zpower_Qpower. lia.
Qed.

Lemma scaled_div (n : Z) (j : nat) :
  scaled n j == inject_Z n / inject_Z (1024 ^ Z.of_nat j).
Proof.
  unfold scaled. rewrite kib_pow, Qpower_opp. reflexivity.
Qed.

Lemma kib_pow_pos (j : nat) : 0 < inject_Z (1024 ^ Z.of_nat j).
Proof. rewrite kib_pow. apply two_pow_pos. Qed.

Lemma scaled_ge (n : Z) (j : nat) :
  (1024 ^ Z.of_nat (S j) <= n)%Z -> 1024 <= scaled n j.
Proof.
  intros H. rewrite scaled_div. apply Qle_shift_div_l; [apply kib_pow_pos|].
  change 1024 with (inject_Z 1024). rewrite <- inject_Z_mult, <- Zle_Qle.
  rewrite Nat2Z.inj_succ, Z.pow_succ_r in H by lia. exact H.
Qed.

Lemma scaled_lt (n : Z) (j : nat) :
  (n < 1024 ^ Z.of_nat (S j))%Z -> scaled n j < 1024.
Proof.
  intros H. rewrite scaled_div. apply Qlt_shift_div_r; [apply kib_pow_pos|].
  change 1024 with (inject_Z 1024). rewrite <- inject_Z_mult, <- Zlt_Qlt.
  rewrite Nat2Z.inj_succ, Z.pow_succ_r in H by lia. exact H.
Qed.

Lemma scaled_succ (n : Z) (j : nat) : scaled n j / 1024 == scaled n (S j).
Proof.
  unfold scaled.
  replace (- (10 * Z.of_nat (S j)))%Z with (- (10 * Z.of_nat j) - 10)%Z by lia.
  rewrite (Qpower_minus 2 (- (10 * Z.of_nat j)) 10) by discriminate.
  change (2 ^ 10) with 1024. field.
Qed.

Lemma scaled_zero (n : Z) : scaled n 0 == inject_Z n.
Proof. unfold scaled. cbn. ring. Qed.

Lemma not_below (c x : Q) : c <= x -> Qle_bool c x = true.
Proof. apply Qle_bool_iff. Qed.

Lemma below (c x : Q) : x < c -> Qle_bool c x = false.
Proof.
  intros H. destruct (Qle_bool c x) eqn:E; [|reflexivity].
  apply Qle_bool_iff in E. lra.
Qed.

(** The loop divides as long as the size is at least the next power of
    1024. *)
Lemma human_size_loop_skip (n : Z) (m : nat) (units : list string) (j : nat) :
  (Z.abs n < 2 ^ 53)%Z -> (m <= List.length units)%nat ->
  (1024 ^ Z.of_nat (j + m) <= n)%Z ->
  human_size_loop units (scaled n j) =
  human_size_loop (skipn m units) (scaled n (j + m)).
Proof.
  intros Hn. revert units j. induction m as [|m IH]; intros units j Hm H.
  - now rewrite Nat.add_0_r.
  - destruct units as [|u rest]; [cbn in Hm; lia|].
    cbn [human_size_loop skipn].
    assert (G : (1024 ^ Z.of_nat (S j) <= n)%Z).
    { eapply Z.le_trans; [|exact H]. apply Z.pow_le_mono_r; lia. }
    rewrite (not_below _ _ (scaled_ge n j G)). cbn [negb].
    rewrite (human_size_loop_compat rest _ (scaled n (S j))).
    + replace (j + S m)%nat with (S j + m)%nat by lia.
      apply IH; [cbn in Hm; lia|].
      now replace (S j + m)%nat with (j + S m)%nat by lia.
    + rewrite (round53_compat _ _ (scaled_succ n j)).
      apply round53_exact. exact Hn.
Qed.

Lemma float_of_int_exact (n : Z) :
  (Z.abs n < 2 ^ 53)%Z ->
  exists f, float_of_int n = inr f /\ f == inject_Z n.
Proof.
  intros H. unfold float_of_int. pose proof (round53_Z n H) as E.
  exists (PyFloat.round53 (inject_Z n)). split; [|exact E].
  rewrite below; [reflexivity|].
  rewrite (fabs_compat _ _ E). unfold fabs.
  assert (B : (2 ^ 53 <= 2 ^ 1024)%Z) by (apply Z.pow_le_mono_r; lia).
  destruct (Qle_bool 0 (inject_Z n)).
  - rewrite <- Zlt_Qlt. lia.
  - rewrite <- inject_Z_opp, <- Zlt_Qlt. lia.
Qed.

End HumanSizeFacts.

(** X26: sizes below 1024 bytes are shown exactly.  For
    [-2^53 < n < 1024], [human_size n] is [str(n)] followed by [" B"]: no
    decimal point, no rounding; this includes [0] and negative sizes. *)
Theorem human_size_bytes (n : Z) :
  - 2 ^ 53 < n < 1024 -> human_size (Some n) = inr (str_of_Z n ++ " B").
Proof.
  intros H. cbn [human_size].
  destruct (float_of_int_exact n) as (f & -> & E); [lia|].
  rewrite (human_size_loop_compat _ f (inject_Z n) E).
  cbn [human_units human_size_loop].
  rewrite below by (change 1024%Q with (inject_Z 1024); rewrite <- Zlt_Qlt; lia).
  cbn [negb]. now rewrite int_of_Z.
Qed.

Lemma human_size_bytes_witness : human_size (Some 1023) = inr "1023 B".
Proof. apply (human_size_bytes 1023). lia. Defined.

(** X27: from 1024 bytes on, the unit is chosen by the magnitude and the
    number shown is the quotient rounded to one decimal.  For
    [1024^k <= n < 1024^(k+1)] with [1 <= k <= 4], [human_size n] is
    [n / 1024^k] with one decimal followed by the k-th unit (KB, MB, GB,
    TB); from [1024^5] on the unit is PB.  Sizes up to [2^53], which a
    float holds exactly. *)
Theorem human_size_scaled (n : Z) (k : nat) :
  (1 <= k <= 5)%nat ->
  1024 ^ Z.of_nat k <= n < 2 ^ 53 ->
  ((k < 5)%nat -> n < 1024 ^ Z.of_nat (S k)) ->
  human_size (Some n) =
  inr (format_1f (inject_Z n / inject_Z (1024 ^ Z.of_nat k))
       ++ " " ++ nth k human_units "PB").
Proof.
  intros Hk [Hlo Hhi] Hup. cbn [human_size].
  assert (Hpos : 0 < 1024 ^ Z.of_nat k) by (apply Z.pow_pos_nonneg; lia).
  destruct (float_of_int_exact n) as (f & -> & E); [lia|].
  assert (E0 : (f == scaled n 0)%Q) by now rewrite scaled_zero.
  rewrite (human_size_loop_compat _ f _ E0).
  rewrite (human_size_loop_skip n k human_units 0); [|lia|cbn; lia|exact Hlo].
  cbn [Nat.add].
  rewrite <- (format_1f_compat _ _ (scaled_div n k)).
  destruct k as [|[|[|[|[|[|k]]]]]]; try lia; cbn [skipn human_units human_size_loop nth];
    try (rewrite (below _ _ (scaled_lt n _ (Hup ltac:(lia)))); reflexivity).
  reflexivity.
Qed.

Lemma human_size_scaled_witness : human_size (Some 1048575) = inr "1024.0 KB".
Proof.
  rewrite (human_size_scaled 1048575 1); [vm_compute; reflexivity|lia|lia|].
  intros _. vm_compute. reflexivity.
Defined.
